(** * Gallagher Photo Sync: face crop and resize (scripts/2_face_crop_resize.py)

    A shallow embedding of the [FaceProcessor] class and the properties of
    its crop geometry, face selection, JPEG quality search, per-image
    pipeline, batch accounting and input enumeration.

    Conventions of the embedding:
    - Python [int] is [Z] (unbounded); floats are rationals [Q];
      [int(x)] on a float truncates toward zero; the product of two
      NumPy float32 values is rounded to float32.
    - [self.config] is a typed record holding the keys the script reads.
    - OpenCV, InsightFace and the operating system are interfaces: their
      operations are parameters of the development and may raise.  A
      [mkdir] or [rename] that raises has changed nothing; an [open] and
      [write] that raises leaves the file as the interface says.
    - [pathlib.Path] is the POSIX flavour: glob patterns match
      case-sensitively and paths compare by code points. *)

From Stdlib Require Import ZArith QArith Qround List String Ascii Bool Lia.
From Stdlib Require Import Sorted OrderedTypeEx Permutation.
Import ListNotations.

Local Open Scope Z_scope.

(** ** Python numerics *)

(** [int(x)] for a float [x]: truncation toward zero. *)
Definition py_int (x : Q) : Z := Z.quot (Qnum x) (Z.pos (Qden x)).

(** [a < b] on floats. *)
Definition Qltb (a b : Q) : bool := negb (Qle_bool b a).

(** ** NumPy float32 *)

(** The integer nearest to [x], the even one of two that are equally
    near. *)
Definition round_half_even (x : Q) : Z :=
  let f := Qfloor x in
  match (x - inject_Z f ?= 1 # 2)%Q with
  | Lt => f
  | Gt => f + 1
  | Eq => if Z.even f then f else f + 1
  end.

(** The exponent of the power of two at or below a positive [x]. *)
Definition floor_log2 (x : Q) : Z :=
  let k := Z.log2 (Qnum x) - Z.log2 (Z.pos (Qden x)) in
  if Qle_bool (2 ^ k) x then k else k - 1.

(** [inf] is kept as [2^128]: every finite float32 value lies strictly
    between [-2^128] and [2^128], so the order of the values is that of
    the floats. *)
Definition float32_inf : Q := 2 ^ 128.

(** Rounding of a positive real to float32: 24 significant bits, a least
    exponent of -149 (subnormal numbers), ties to the even significand,
    and [inf] when the rounded value leaves the range. *)
Definition float32_round_pos (x : Q) : Q :=
  let e := Z.max (floor_log2 x - 23) (-149) in
  let y := (inject_Z (round_half_even (x / 2 ^ e)) * 2 ^ e)%Q in
  if Qle_bool float32_inf y then float32_inf else y.

Definition float32_round (x : Q) : Q :=
  match (x ?= 0)%Q with
  | Eq => 0
  | Gt => float32_round_pos x
  | Lt => - float32_round_pos (- x)
  end.

(** [a * b] on two [numpy.float32] values. *)
Definition float32_mul (a b : Q) : Q := float32_round (a * b).

(** ** Configuration (config/config.json) *)

Record Directories := {
  processing_renamed : string;
  processing_cropped : string;
  processing_failed : string;
  logs : string
}.

Record FaceProcessing := {
  padding_width_factor : Q;
  padding_height_factor : Q;
  intermediate_size : Z * Z;
  target_size : Z * Z;
  min_face_confidence : Q;
  max_file_size_kb : Z;
  jpeg_quality_start : Z;
  jpeg_quality_min : Z;
  jpeg_quality_step : Z;
  supported_formats : list string;
  batch_size : Z
}.

Record Config := {
  directories : Directories;
  face_processing : FaceProcessing
}.

(** ** Faces returned by the detector *)

(** [bbox] is the float32 array (x1, y1, x2, y2); [det_score] is [None]
    when the attribute is absent ([hasattr(face, 'det_score')] is
    false). *)
Record Face := {
  bbox : Q * Q * Q * Q;
  det_score : option Q
}.

Definition bbox_x1 (f : Face) : Q := let '(a, _, _, _) := bbox f in a.
Definition bbox_y1 (f : Face) : Q := let '(_, b, _, _) := bbox f in b.
Definition bbox_x2 (f : Face) : Q := let '(_, _, c, _) := bbox f in c.
Definition bbox_y2 (f : Face) : Q := let '(_, _, _, d) := bbox f in d.

(** ** CropGeometry *)

Module CropGeometry.

(** [clamp(val, minval, maxval) = max(min(val, maxval), minval)] *)
Definition clamp (val minval maxval : Z) : Z :=
  Z.max (Z.min val maxval) minval.

(** [image_shape] is NumPy's (height, width, channels); the dimensions of
    an array are natural numbers. *)
Definition calculate_crop_region (cfg : Config) (face : Face)
    (image_shape : N * N * N) : Z * Z * Z * Z :=
  let '(shape0, shape1, _) := image_shape in
  let x1 := py_int (bbox_x1 face) in
  let y1 := py_int (bbox_y1 face) in
  let x2 := py_int (bbox_x2 face) in
  let y2 := py_int (bbox_y2 face) in
  let w := x2 - x1 in
  let h := y2 - y1 in
  let cx := (x1 + x2) / 2 in
  let cy := (y1 + y2) / 2 in
  let pad_w :=
    py_int (inject_Z w * padding_width_factor (face_processing cfg))%Q in
  let pad_h :=
    py_int (inject_Z h * padding_height_factor (face_processing cfg))%Q in
  let x1_crop := clamp (cx - pad_w) 0 (Z.of_N shape1) in
  let y1_crop := clamp (cy - pad_h) 0 (Z.of_N shape0) in
  let x2_crop := clamp (cx + pad_w) 0 (Z.of_N shape1) in
  let y2_crop := clamp (cy + pad_h) 0 (Z.of_N shape0) in
  (x1_crop, y1_crop, x2_crop, y2_crop).

End CropGeometry.

(** ** FaceSelector *)

Module FaceSelector.

(** Python's [max(iterable, key=...)]: the running best is replaced only
    by an item whose key is strictly greater, so the first of several
    maximal items is returned. *)
Fixpoint max_from {A : Type} (key : A -> Q) (best : A) (rest : list A) : A :=
  match rest with
  | [] => best
  | x :: rest' =>
      if Qltb (key best) (key x) then max_from key x rest'
      else max_from key best rest'
  end.

Definition py_max {A : Type} (key : A -> Q) (l : list A) : option A :=
  match l with
  | [] => None
  | x :: rest => Some (max_from key x rest)
  end.

(** [lambda f: f.bbox[2] * f.bbox[3]]: [bbox] is a float32 array, and
    so is the product of two of its entries. *)
Definition rank_key (f : Face) : Q := float32_mul (bbox_x2 f) (bbox_y2 f).

(** [face = max(faces, key=lambda f: f.bbox[2] * f.bbox[3])] *)
Definition select_face (faces : list Face) : option Face :=
  py_max rank_key faces.

(** [float(face.det_score) if hasattr(face, 'det_score') else 1.0] *)
Definition confidence_of (f : Face) : Q :=
  match det_score f with
  | Some s => s
  | None => 1
  end.

(** The bounding-box area, width times height. *)
Definition bbox_area (f : Face) : Q :=
  ((bbox_x2 f - bbox_x1 f) * (bbox_y2 f - bbox_y1 f))%Q.

End FaceSelector.

(** ** Results, statistics, log records *)

Local Open Scope string_scope.
Local Open Scope list_scope.
Local Open Scope Z_scope.

Definition bytes := list Byte.byte.

(** [len(enc_img)] *)
Definition len (b : bytes) : Z := Z.of_nat (List.length b).

(** A [pathlib.Path] inside a directory: [parent / name]. *)
Record Path := mkPath {
  parent : string;
  name : string
}.

(** [name.rfind('.')] *)
Fixpoint rfind_dot (s : string) (i : nat) (acc : option nat) : option nat :=
  match s with
  | EmptyString => acc
  | String c s' =>
      rfind_dot s' (S i) (if Ascii.eqb c "." then Some i else acc)
  end.

(** [Path.stem]: the name without its last suffix; a leading or a trailing
    dot does not start a suffix. *)
Definition stem (p : Path) : string :=
  match rfind_dot (name p) 0 None with
  | Some i =>
      if (Nat.ltb 0 i && Nat.ltb i (String.length (name p) - 1))%bool
      then String.substring 0 i (name p)
      else name p
  | None => name p
  end.

(** The dataclass [ProcessingResult]. *)
Record ProcessingResult := {
  filename : string;
  success : bool;
  face_detected : bool;
  face_confidence : Q;
  original_size : Z * Z;
  output_size : Z * Z;
  file_size_kb : Q;
  jpeg_quality : Z;
  error_message : string;
  processing_time : Q
}.

(** Exceptions: the script's own [raise Exception(msg)], and errors raised
    inside OpenCV, InsightFace or the operating system. *)
Inductive exn :=
| PyException (msg : string)
| ExternalError (msg : string).

(** [str(e)] *)
Definition str (e : exn) : string :=
  match e with
  | PyException msg => msg
  | ExternalError msg => msg
  end.

(** The result of a call into an external library. *)
Inductive result (A : Type) :=
| Ok (a : A)
| Err (msg : string).
Arguments Ok {A} a.
Arguments Err {A} msg.

(** [self.stats] *)
Record Stats := {
  total_files : Z;
  successful : Z;
  failed : Z;
  no_face : Z;
  poor_quality : Z
}.

(** The dictionary built by [__init__]. *)
Definition init_stats : Stats :=
  {| total_files := 0; successful := 0; failed := 0;
     no_face := 0; poor_quality := 0 |}.

(** Records handed to [self.logger]; the formatted text of a record is a
    function of the data kept here. *)
Inductive LogRecord :=
| InfoProcessed (r : ProcessingResult)
| WarningFailed (file msg : string)
| ErrorMoveFailed (file : string) (e : exn).

(** ** External collaborators *)

Class Platform := {
  (** a decoded image (NumPy array) and the state of the file system *)
  image : Type;
  FS : Type;
  (** [image.shape], [image[y1:y2, x1:x2]], [image.size] *)
  shape : image -> N * N * N;
  np_slice : image -> Z -> Z -> Z -> Z -> image;
  np_size : image -> N;
  (** [cv2.imread]: [None] for a missing or undecodable file *)
  cv2_imread : Path -> FS -> result (option image);
  (** [self.app.get] *)
  app_get : image -> result (list Face);
  (** [cv2.resize(img, size, interpolation=cv2.INTER_AREA)] *)
  cv2_resize : image -> Z * Z -> result image;
  (** [cv2.filter2D(img, -1, kernel @ kernel.T)] with the 3x3 Gaussian kernel *)
  cv2_filter2D : image -> result image;
  (** [cv2.imencode(".jpg", img, [IMWRITE_JPEG_QUALITY, quality])]:
      the success flag and the encoded buffer *)
  cv2_imencode : image -> Z -> bool * bytes;
  (** [open(path, "wb")] followed by [f.write(data)] *)
  os_write : Path -> bytes -> FS -> result FS;
  (** what an [open] and [write] that raised leaves behind: the file may
      have been created, truncated or written in part *)
  os_write_failed : Path -> bytes -> FS -> FS;
  (** [Path(dir).mkdir(exist_ok=True)] *)
  os_mkdir : string -> FS -> result FS;
  (** [src.rename(dst)] *)
  os_rename : Path -> Path -> FS -> result FS;
  (** the names found in a directory, in the order the system lists them *)
  os_listdir : string -> FS -> list string;
  (** the reading of the k-th call of [datetime.now()], in microseconds *)
  clock : nat -> Z;
  (** [f"Face confidence {c:.2f} below threshold {m}"] *)
  fmt_low_confidence : Q -> Q -> string
}.

(** ** Program state and the monad of the embedding *)

Record State `{Platform} := mkState {
  fs : FS;
  ticks : nat;
  log : list LogRecord;
  stats : Stats
}.

(** A call returns, raises, or has not finished when the fuel of a
    [while] loop ran out. *)
Inductive Outcome (A : Type) :=
| Val (a : A)
| Raise (e : exn)
| Diverge.
Arguments Val {A} a.
Arguments Raise {A} e.
Arguments Diverge {A}.

Definition M `{Platform} (A : Type) : Type := State -> Outcome A * State.

Section Monad.
Context `{Platform}.

Definition ret {A} (a : A) : M A := fun st => (Val a, st).

Definition bind {A B} (m : M A) (k : A -> M B) : M B :=
  fun st =>
    match m st with
    | (Val a, st') => k a st'
    | (Raise e, st') => (Raise e, st')
    | (Diverge, st') => (Diverge, st')
    end.

Definition raise {A} (e : exn) : M A := fun st => (Raise e, st).

Definition diverge {A} : M A := fun st => (Diverge, st).

(** [try: body  except Exception as e: handler(e)] *)
Definition try_except {A} (body : M A) (handler : exn -> M A) : M A :=
  fun st =>
    match body st with
    | (Raise e, st') => handler e st'
    | other => other
    end.

(** A pure library call: its error is raised. *)
Definition call {A} (r : result A) : M A :=
  match r with
  | Ok a => ret a
  | Err msg => raise (ExternalError msg)
  end.

(** A library call reading the file system. *)
Definition call_fs {A} (op : FS -> result A) : M A :=
  fun st => call (op (fs st)) st.

Definition set_fs (st : State) (fs' : FS) : State :=
  {| fs := fs'; ticks := ticks st; log := log st; stats := stats st |}.

(** A system call changing the file system ([mkdir], [rename]): when it
    fails nothing has changed. *)
Definition syscall (op : FS -> result FS) : M unit :=
  fun st =>
    match op (fs st) with
    | Ok fs' => (Val tt, set_fs st fs')
    | Err msg => (Raise (ExternalError msg), st)
    end.

(** [with open(path, "wb") as f: f.write(data)]: the exception of a
    failure is raised after the file system has been touched. *)
Definition write_file (path : Path) (data : bytes) : M unit :=
  fun st =>
    match os_write path data (fs st) with
    | Ok fs' => (Val tt, set_fs st fs')
    | Err msg =>
        (Raise (ExternalError msg),
         set_fs st (os_write_failed path data (fs st)))
    end.

(** [datetime.now()] *)
Definition datetime_now : M Z :=
  fun st =>
    (Val (clock (ticks st)),
     {| fs := fs st; ticks := S (ticks st); log := log st; stats := stats st |}).

(** [self.logger.info / warning / error] *)
Definition logger (r : LogRecord) : M unit :=
  fun st =>
    (Val tt,
     {| fs := fs st; ticks := ticks st; log := log st ++ [r];
        stats := stats st |}).

Definition modify_stats (f : Stats -> Stats) : M unit :=
  fun st =>
    (Val tt,
     {| fs := fs st; ticks := ticks st; log := log st; stats := f (stats st) |}).

End Monad.

Notation "x <- c1 ;; c2" := (bind c1 (fun x => c2))
  (at level 61, c1 at next level, right associativity).
Notation "' pat <- c1 ;; c2" :=
  (bind c1 (fun x => match x with pat => c2 end))
  (at level 61, pat pattern, c1 at next level, right associativity).
Notation "c1 ;; c2" := (bind c1 (fun _ => c2))
  (at level 61, right associativity).

(** ** The FaceProcessor methods *)

Section FaceProcessor.
Context `{Platform}.
Variable cfg : Config.

(** *** QualityOptimizedEncoder *)

(** [file_size_kb = len(enc_img) / 1024] *)
Definition size_kb (enc_img : bytes) : Q := Qmake (len enc_img) 1024.

(** [ret and len(enc_img) <= max_size_kb * 1024] at one quality. *)
Definition within_budget (img : image) (quality : Z) : bool :=
  let '(ok, enc_img) := cv2_imencode img quality in
  (ok && (len enc_img <=? max_file_size_kb (face_processing cfg) * 1024))%bool.

(** The [while quality >= quality_min] loop.  [Some] is the [return]
    inside the loop, [None] the exit of the loop; one unit of fuel pays
    for one test of the loop condition. *)
Fixpoint quality_loop (fuel : nat) (img : image) (output_path : Path)
    (quality : Z) : M (option (Z * Q)) :=
  match fuel with
  | O => diverge
  | S fuel' =>
      if quality >=? jpeg_quality_min (face_processing cfg) then
        let '(ok, enc_img) := cv2_imencode img quality in
        if (ok && (len enc_img <=?
                   max_file_size_kb (face_processing cfg) * 1024))%bool
        then
          write_file output_path enc_img ;;
          ret (Some (quality, size_kb enc_img))
        else
          quality_loop fuel' img output_path
            (quality - jpeg_quality_step (face_processing cfg))
      else ret None
  end.

Definition save_with_quality_optimization (fuel : nat) (img : image)
    (output_path : Path) : M (Z * Q) :=
  let quality_min := jpeg_quality_min (face_processing cfg) in
  found <- quality_loop fuel img output_path
             (jpeg_quality_start (face_processing cfg)) ;;
  match found with
  | Some r => ret r
  | None =>
      let '(ok, enc_img) := cv2_imencode img quality_min in
      if ok then
        write_file output_path enc_img ;;
        ret (quality_min, size_kb enc_img)
      else raise (PyException "Failed to encode image")
  end.

(** *** ImagePipeline *)

(** [(t1 - t0).total_seconds()] *)
Definition total_seconds (t1 t0 : Z) : Q := Qmake (t1 - t0) 1000000.

(** A [ProcessingResult] with [success=False]; [processing_time] keeps
    its default [0.0] unless given. *)
Definition failure (fname : string) (detected : bool) (confidence : Q)
    (orig : Z * Z) (msg : string) (time : Q) : ProcessingResult :=
  {| filename := fname; success := false; face_detected := detected;
     face_confidence := confidence; original_size := orig;
     output_size := (0, 0); file_size_kb := 0; jpeg_quality := 0;
     error_message := msg; processing_time := time |}.

(** The body of the [try] block of [process_single_image]. *)
Definition pipeline_body (fuel : nat) (image_path : Path) (start_time : Z)
    : M ProcessingResult :=
  let fname := name image_path in
  read <- call_fs (cv2_imread image_path) ;;
  match read with
  | None => ret (failure fname false 0 (0, 0) "Failed to read image" 0)
  | Some img =>
      let '(shape0, shape1, _) := shape img in
      let orig := (Z.of_N shape1, Z.of_N shape0) in
      faces <- call (app_get img) ;;
      match FaceSelector.select_face faces with
      | None => ret (failure fname false 0 orig "No face detected" 0)
      | Some face =>
          let confidence := FaceSelector.confidence_of face in
          let min_confidence := min_face_confidence (face_processing cfg) in
          if Qltb confidence min_confidence then
            ret (failure fname true confidence orig
                   (fmt_low_confidence confidence min_confidence) 0)
          else
            let '(x1, y1, x2, y2) :=
              CropGeometry.calculate_crop_region cfg face (shape img) in
            let cropped := np_slice img y1 y2 x1 x2 in
            if (np_size cropped =? 0)%N then
              ret (failure fname true confidence orig
                     "Cropped region is empty" 0)
            else
              intermediate <-
                call (cv2_resize cropped
                        (intermediate_size (face_processing cfg))) ;;
              resized <-
                call (cv2_resize intermediate
                        (target_size (face_processing cfg))) ;;
              sharpened <- call (cv2_filter2D resized) ;;
              let output_path :=
                mkPath (processing_cropped (directories cfg))
                       (stem image_path ++ ".jpg")%string in
              '(quality, kb) <-
                save_with_quality_optimization fuel sharpened output_path ;;
              now <- datetime_now ;;
              ret {| filename := fname; success := true;
                     face_detected := true; face_confidence := confidence;
                     original_size := orig;
                     output_size := target_size (face_processing cfg);
                     file_size_kb := kb; jpeg_quality := quality;
                     error_message := "";
                     processing_time := total_seconds now start_time |}
      end
  end.

(** The [except Exception as e] handler. *)
Definition pipeline_handler (image_path : Path) (start_time : Z) (e : exn)
    : M ProcessingResult :=
  now <- datetime_now ;;
  ret (failure (name image_path) false 0 (0, 0) (str e)
         (total_seconds now start_time)).

Definition process_single_image (fuel : nat) (image_path : Path)
    : M ProcessingResult :=
  start_time <- datetime_now ;;
  try_except (pipeline_body fuel image_path start_time)
             (pipeline_handler image_path start_time).

(** *** BatchOrchestrator *)

Definition incr_total (s : Stats) : Stats :=
  {| total_files := total_files s + 1; successful := successful s;
     failed := failed s; no_face := no_face s;
     poor_quality := poor_quality s |}.
Definition incr_successful (s : Stats) : Stats :=
  {| total_files := total_files s; successful := successful s + 1;
     failed := failed s; no_face := no_face s;
     poor_quality := poor_quality s |}.
Definition incr_failed (s : Stats) : Stats :=
  {| total_files := total_files s; successful := successful s;
     failed := failed s + 1; no_face := no_face s;
     poor_quality := poor_quality s |}.
Definition incr_no_face (s : Stats) : Stats :=
  {| total_files := total_files s; successful := successful s;
     failed := failed s; no_face := no_face s + 1;
     poor_quality := poor_quality s |}.
Definition incr_poor_quality (s : Stats) : Stats :=
  {| total_files := total_files s; successful := successful s;
     failed := failed s; no_face := no_face s;
     poor_quality := poor_quality s + 1 |}.

(** The "Update statistics" block of [process_batch]. *)
Definition classify (r : ProcessingResult) (s : Stats) : Stats :=
  if success r then incr_successful s
  else if negb (face_detected r) then incr_no_face s
  else if Qltb (face_confidence r) (min_face_confidence (face_processing cfg))
  then incr_poor_quality s
  else incr_failed s.

Definition update_statistics (r : ProcessingResult) (s : Stats) : Stats :=
  classify r (incr_total s).

(** The "Log result" block, with the move of a failed file. *)
Definition log_and_quarantine (file_path : Path) (r : ProcessingResult)
    : M unit :=
  if success r then logger (InfoProcessed r)
  else
    logger (WarningFailed (filename r) (error_message r)) ;;
    let failed_dir := processing_failed (directories cfg) in
    syscall (os_mkdir failed_dir) ;;
    try_except
      (syscall (os_rename file_path (mkPath failed_dir (name file_path))))
      (fun e => logger (ErrorMoveFailed (name file_path) e)).

(** The body of [for file_path in files]. *)
Definition process_file (fuel : nat) (file_path : Path) : M ProcessingResult :=
  r <- process_single_image fuel file_path ;;
  modify_stats (update_statistics r) ;;
  log_and_quarantine file_path r ;;
  ret r.

(** The [for] loop; [results] is the list being appended to. *)
Fixpoint batch_loop (fuel : nat) (files : list Path)
    (results : list ProcessingResult) : M (list ProcessingResult) :=
  match files with
  | [] => ret results
  | file_path :: rest =>
      r <- process_file fuel file_path ;;
      batch_loop fuel rest (results ++ [r])
  end.

Definition process_batch (fuel : nat) (files : list Path)
    : M (list ProcessingResult) :=
  batch_loop fuel files [].

End FaceProcessor.

(** *** Input enumeration *)

(** [str.upper()] on ASCII letters. *)
Definition upper_ascii (c : ascii) : ascii :=
  let n := N_of_ascii c in
  if ((97 <=? n) && (n <=? 122))%N then ascii_of_N (n - 32) else c.

Fixpoint upper (s : string) : string :=
  match s with
  | EmptyString => EmptyString
  | String c s' => String (upper_ascii c) (upper s')
  end.

(** [s.endswith(suffix)] *)
Definition endswith (s suffix : string) : bool :=
  let n := String.length s in
  let m := String.length suffix in
  (Nat.leb m n && String.eqb (String.substring (n - m) m s) suffix)%bool.

(** The order of [PosixPath] values: by parent, then by name, each
    compared by code points. *)
Definition path_ltb (p q : Path) : bool :=
  if String.eqb (parent p) (parent q) then String.ltb (name p) (name q)
  else String.ltb (parent p) (parent q).

(** [sorted]: a stable sort that only uses [<]. *)
Fixpoint insert_sorted (x : Path) (l : list Path) : list Path :=
  match l with
  | [] => [x]
  | y :: l' => if path_ltb x y then x :: y :: l' else y :: insert_sorted x l'
  end.

Definition sorted (l : list Path) : list Path :=
  fold_left (fun acc x => insert_sorted x acc) l [].

(** [p] does not come after [q]; a list in processing order. *)
Definition path_le (p q : Path) : Prop := path_ltb q p = false.

Definition in_path_order (l : list Path) : Prop := StronglySorted path_le l.

Section Enumeration.
Context `{Platform}.
Variable cfg : Config.

(** [input_dir.glob("*" + ext)] for an extension without glob
    metacharacters: the listed names that end with [ext]. *)
Definition glob_suffix (input_dir ext : string) (files : FS) : list Path :=
  map (mkPath input_dir)
      (filter (fun n => endswith n ext) (os_listdir input_dir files)).

Definition get_input_files (files : FS) : list Path :=
  let input_dir := processing_renamed (directories cfg) in
  sorted
    (flat_map
       (fun ext =>
          glob_suffix input_dir ext files ++
          glob_suffix input_dir (upper ext) files)
       (supported_formats (face_processing cfg))).

End Enumeration.

(** ** A reference platform

    An in-memory instance of the interface, used to run the program on
    concrete inputs: files are an association list, an image is 100x100
    and is identified by the length of the file it was read from, the
    encoder produces one byte and [12 * quality] more. *)

Module Ref.

Definition path_eqb (p q : Path) : bool :=
  (String.eqb (parent p) (parent q) && String.eqb (name p) (name q))%bool.

Definition files := list (Path * bytes).

Fixpoint lookup (p : Path) (l : files) : option bytes :=
  match l with
  | [] => None
  | (q, b) :: l' => if path_eqb p q then Some b else lookup p l'
  end.

Definition remove (p : Path) (l : files) : files :=
  filter (fun e => negb (path_eqb p (fst e))) l.

Definition imread (p : Path) (l : files) : result (option nat) :=
  match lookup p l with
  | None => Ok None
  | Some [] => Ok None
  | Some b => Ok (Some (List.length b))
  end.

Definition a_face : Face :=
  {| bbox := (30 # 1, 20 # 1, 70 # 1, 60 # 1)%Q; det_score := Some (92 # 100)%Q |}.

Definition detect (img : nat) : result (list Face) :=
  match img with
  | 1%nat => Err "inference failed"
  | 2%nat => Ok []
  | _ => Ok [a_face]
  end.

Definition imencode (img : nat) (quality : Z) : bool * bytes :=
  (true, Byte.xff :: repeat Byte.x00 (Z.to_nat (12 * quality))).

Definition write (p : Path) (b : bytes) (l : files) : result files :=
  Ok ((p, b) :: remove p l).

Definition rename (src dst : Path) (l : files) : result files :=
  match lookup src l with
  | Some b => Ok ((dst, b) :: remove dst (remove src l))
  | None => Err "No such file or directory"
  end.

Definition listdir (dir : string) (l : files) : list string :=
  map (fun e => name (fst e))
      (filter (fun e => String.eqb (parent (fst e)) dir) l).

Definition platform : Platform :=
  {| image := nat;
     FS := files;
     shape := fun _ => (100, 100, 3)%N;
     np_slice := fun img _ _ _ _ => img;
     np_size := fun _ => 30000%N;
     cv2_imread := imread;
     app_get := detect;
     cv2_resize := fun img _ => Ok img;
     cv2_filter2D := fun img => Ok img;
     cv2_imencode := imencode;
     os_write := write;
     os_write_failed := fun p _ l => (p, []) :: remove p l;
     os_mkdir := fun _ l => Ok l;
     os_rename := rename;
     os_listdir := listdir;
     clock := fun k => 1000000 * Z.of_nat k;
     fmt_low_confidence := fun _ _ => "Face confidence below threshold" |}.

Definition dirs : Directories :=
  {| processing_renamed := "renamed"; processing_cropped := "cropped";
     processing_failed := "failed"; logs := "logs" |}.

(** A configuration with the ladder 95, 90, ..., 50 and a budget of 1 KB. *)
Definition cfg : Config :=
  {| directories := dirs;
     face_processing :=
       {| padding_width_factor := (3 # 2)%Q;
          padding_height_factor := (2 # 1)%Q;
          intermediate_size := (800, 800);
          target_size := (400, 400);
          min_face_confidence := (1 # 2)%Q;
          max_file_size_kb := 1;
          jpeg_quality_start := 95;
          jpeg_quality_min := 50;
          jpeg_quality_step := 5;
          supported_formats := [".jpg"; ".png"];
          batch_size := 10 |} |}.

(** The same configuration with other ladder and budget settings. *)
Definition cfg_ladder (kb start qmin step : Z) : Config :=
  let fp := face_processing cfg in
  {| directories := dirs;
     face_processing :=
       {| padding_width_factor := padding_width_factor fp;
          padding_height_factor := padding_height_factor fp;
          intermediate_size := intermediate_size fp;
          target_size := target_size fp;
          min_face_confidence := min_face_confidence fp;
          max_file_size_kb := kb;
          jpeg_quality_start := start;
          jpeg_quality_min := qmin;
          jpeg_quality_step := step;
          supported_formats := supported_formats fp;
          batch_size := batch_size fp |} |}.

(** The same configuration with other padding factors. *)
Definition cfg_padding (pw ph : Q) : Config :=
  let fp := face_processing cfg in
  {| directories := dirs;
     face_processing :=
       {| padding_width_factor := pw;
          padding_height_factor := ph;
          intermediate_size := intermediate_size fp;
          target_size := target_size fp;
          min_face_confidence := min_face_confidence fp;
          max_file_size_kb := max_file_size_kb fp;
          jpeg_quality_start := jpeg_quality_start fp;
          jpeg_quality_min := jpeg_quality_min fp;
          jpeg_quality_step := jpeg_quality_step fp;
          supported_formats := supported_formats fp;
          batch_size := batch_size fp |} |}.

Definition photo (n : string) : Path := mkPath "renamed" n.

(** Three files: a portrait, a file whose detection crashes, and a
    picture without a face. *)
Definition disk : files :=
  [ (photo "ann.jpg", repeat Byte.x01 5);
    (photo "bob.jpg", repeat Byte.x01 1);
    (photo "cat.jpg", repeat Byte.x01 2) ].

(** A directory whose files spell the extension in three ways. *)
Definition mixed_disk : files :=
  [ (photo "a.jpg", repeat Byte.x01 5);
    (photo "b.Jpg", repeat Byte.x01 5);
    (photo "c.JPG", repeat Byte.x01 5) ].

Definition st0 : @State platform :=
  @mkState platform disk 0 [] init_stats.

(** The same platform on a system that refuses to make a directory. *)
Definition no_mkdir_platform : Platform :=
  {| image := nat;
     FS := files;
     shape := fun _ => (100, 100, 3)%N;
     np_slice := fun img _ _ _ _ => img;
     np_size := fun _ => 30000%N;
     cv2_imread := imread;
     app_get := detect;
     cv2_resize := fun img _ => Ok img;
     cv2_filter2D := fun img => Ok img;
     cv2_imencode := imencode;
     os_write := write;
     os_write_failed := fun p _ l => (p, []) :: remove p l;
     os_mkdir := fun _ _ => Err "Permission denied";
     os_rename := rename;
     os_listdir := listdir;
     clock := fun k => 1000000 * Z.of_nat k;
     fmt_low_confidence := fun _ _ => "Face confidence below threshold" |}.

Definition no_mkdir_st0 : @State no_mkdir_platform :=
  @mkState no_mkdir_platform disk 0 [] init_stats.

End Ref.

(** Two detected faces: a large one near the origin of the image and a
    small one far from it. *)
Definition large_face : Face :=
  {| bbox := (10 # 1, 10 # 1, 210 # 1, 210 # 1)%Q; det_score := Some (95 # 100)%Q |}.
Definition small_face : Face :=
  {| bbox := (300 # 1, 300 # 1, 350 # 1, 350 # 1)%Q; det_score := Some (90 # 100)%Q |}.

(** ** Vocabulary of the properties *)

Section Vocabulary.
Context `{Platform}.
Variable cfg : Config.

(** The qualities the search visits when no encode is accepted earlier:
    [quality_start - k * quality_step], as long as it is at least
    [quality_min]. *)
Definition ladder_from (q0 q : Z) : Prop :=
  exists k : nat,
    q = q0 - Z.of_nat k * jpeg_quality_step (face_processing cfg) /\
    jpeg_quality_min (face_processing cfg) <= q.

Definition on_ladder (q : Z) : Prop :=
  ladder_from (jpeg_quality_start (face_processing cfg)) q.

(** Fuel that pays for every test of the loop condition of a descending
    ladder. *)
Definition enough_fuel : nat :=
  S (Z.to_nat (jpeg_quality_start (face_processing cfg)
               - jpeg_quality_min (face_processing cfg) + 1)).

(** Persisting an accepted encode and returning from the search. *)
Definition persist (output_path : Path) (quality : Z) (enc_img : bytes)
    (st : State) : Outcome (Z * Q) * State :=
  match os_write output_path enc_img (fs st) with
  | Ok fs' => (Val (quality, size_kb enc_img), set_fs st fs')
  | Err msg =>
      (Raise (ExternalError msg),
       set_fs st (os_write_failed output_path enc_img (fs st)))
  end.

(** The forced encode at [quality_min] after the loop. *)
Definition forced_encode (img : image) (p : Path) (st : State)
    : Outcome (Z * Q) * State :=
  let '(ok, enc) := cv2_imencode img (jpeg_quality_min (face_processing cfg)) in
  if ok then persist p (jpeg_quality_min (face_processing cfg)) enc st
  else (Raise (PyException "Failed to encode image"), st).

(** The state in which the [try] block of the pipeline starts: the clock
    has been read once. *)
Definition entered (st : State) : State := snd (datetime_now st).

(** A computation that leaves [self.stats] alone, however it ends. *)
Definition keeps_stats {A} (m : M A) : Prop :=
  forall st, stats (snd (m st)) = stats st.

(** Every value a computation returns satisfies [Q]. *)
Definition returns {A} (Q : A -> Prop) (m : M A) : Prop :=
  forall st a st', m st = (Val a, st') -> Q a.

(** A computation that finishes, by a return or by an exception. *)
Definition terminating {A} (m : M A) : Prop :=
  forall st, fst (m st) <> Diverge.

(** The state after the "Update statistics" block. *)
Definition counted (r : ProcessingResult) (st : State) : State :=
  {| fs := fs st; ticks := ticks st; log := log st;
     stats := update_statistics cfg r (stats st) |}.

(** The state after the "Log result" block put [records] in the log and
    left the file system as [fs']. *)
Definition logged (st : State) (fs' : FS) (records : list LogRecord)
    : State :=
  {| fs := fs'; ticks := ticks st; log := log st ++ records;
     stats := stats st |}.

(** The four outcome counters add up to the total. *)
Definition stats_balanced (s : Stats) : Prop :=
  total_files s = successful s + no_face s + poor_quality s + failed s.

(** From [s] to [s'] the total and exactly one outcome counter grew by
    one, the other three are unchanged. *)
Definition one_counter_incremented (s s' : Stats) : Prop :=
  total_files s' = total_files s + 1 /\
  ((successful s' = successful s + 1 /\ no_face s' = no_face s /\
    poor_quality s' = poor_quality s /\ failed s' = failed s) \/
   (successful s' = successful s /\ no_face s' = no_face s + 1 /\
    poor_quality s' = poor_quality s /\ failed s' = failed s) \/
   (successful s' = successful s /\ no_face s' = no_face s /\
    poor_quality s' = poor_quality s + 1 /\ failed s' = failed s) \/
   (successful s' = successful s /\ no_face s' = no_face s /\
    poor_quality s' = poor_quality s /\ failed s' = failed s + 1)).

(** From [s] to [s'] a file was counted under [no_face]: the total and
    that counter grew by one, the other three counters are unchanged. *)
Definition counted_as_no_face (s s' : Stats) : Prop :=
  total_files s' = total_files s + 1 /\
  no_face s' = no_face s + 1 /\
  failed s' = failed s /\
  successful s' = successful s /\
  poor_quality s' = poor_quality s.

End Vocabulary.

(** ** Further vocabulary *)

(** The intermediate values of [calculate_crop_region]: the centre of the
    face box and the two paddings. *)
Module CropParts.

Definition centre_x (face : Face) : Z :=
  (py_int (bbox_x1 face) + py_int (bbox_x2 face)) / 2.

Definition centre_y (face : Face) : Z :=
  (py_int (bbox_y1 face) + py_int (bbox_y2 face)) / 2.

Definition pad_w (cfg : Config) (face : Face) : Z :=
  py_int (inject_Z (py_int (bbox_x2 face) - py_int (bbox_x1 face))
          * padding_width_factor (face_processing cfg))%Q.

Definition pad_h (cfg : Config) (face : Face) : Z :=
  py_int (inject_Z (py_int (bbox_y2 face) - py_int (bbox_y1 face))
          * padding_height_factor (face_processing cfg))%Q.

End CropParts.

(** The results of the pipeline, by the place that builds them. *)
Section ResultKinds.
Context `{Platform}.
Variable cfg : Config.

(** The four failures returned from inside the [try] block. *)
Inductive EarlyFailure (image_path : Path) : ProcessingResult -> Prop :=
| UnreadableImage :
    EarlyFailure image_path
      (failure (name image_path) false 0 (0, 0) "Failed to read image" 0)
| NoFaceDetected (orig : Z * Z) :
    EarlyFailure image_path
      (failure (name image_path) false 0 orig "No face detected" 0)
| LowConfidence (orig : Z * Z) (confidence : Q) :
    Qltb confidence (min_face_confidence (face_processing cfg)) = true ->
    EarlyFailure image_path
      (failure (name image_path) true confidence orig
         (fmt_low_confidence confidence
            (min_face_confidence (face_processing cfg))) 0)
| EmptyCropRegion (orig : Z * Z) (confidence : Q) :
    Qltb confidence (min_face_confidence (face_processing cfg)) = false ->
    EarlyFailure image_path
      (failure (name image_path) true confidence orig
         "Cropped region is empty" 0).

(** The result built after the encoder returned. *)
Definition success_result (image_path : Path) (confidence : Q)
    (orig : Z * Z) (quality : Z) (kb : Q) (time : Q) : ProcessingResult :=
  {| filename := name image_path; success := true; face_detected := true;
     face_confidence := confidence; original_size := orig;
     output_size := target_size (face_processing cfg);
     file_size_kb := kb; jpeg_quality := quality; error_message := "";
     processing_time := time |}.

(** The path of the output file of an image. *)
Definition output_path_of (image_path : Path) : Path :=
  mkPath (processing_cropped (directories cfg))
         (stem image_path ++ ".jpg")%string.

(** The image the pipeline hands to the encoder for the file
    [image_path] on the file system [files]: the file was read, the
    selected face has the confidence [confidence], which is not below
    the threshold, and its crop, which is not empty, was resized to the
    intermediate and to the target size and sharpened. *)
Definition prepared (image_path : Path) (files : FS) (sharpened : image)
    (confidence : Q) (orig : Z * Z) : Prop :=
  exists img shape0 shape1 channels faces face x1 y1 x2 y2
         intermediate resized,
    cv2_imread image_path files = Ok (Some img) /\
    shape img = (shape0, shape1, channels) /\
    orig = (Z.of_N shape1, Z.of_N shape0) /\
    app_get img = Ok faces /\
    FaceSelector.select_face faces = Some face /\
    confidence = FaceSelector.confidence_of face /\
    Qltb confidence (min_face_confidence (face_processing cfg)) = false /\
    CropGeometry.calculate_crop_region cfg face (shape img)
    = (x1, y1, x2, y2) /\
    (np_size (np_slice img y1 y2 x1 x2) =? 0)%N = false /\
    cv2_resize (np_slice img y1 y2 x1 x2)
      (intermediate_size (face_processing cfg)) = Ok intermediate /\
    cv2_resize intermediate (target_size (face_processing cfg))
    = Ok resized /\
    cv2_filter2D resized = Ok sharpened.

End ResultKinds.

(** The class the "Update statistics" block puts a result in, and the
    number of results of a class. *)
Section ResultClasses.
Variable cfg : Config.

Definition is_no_face (r : ProcessingResult) : bool :=
  (negb (success r) && negb (face_detected r))%bool.

Definition is_poor_quality (r : ProcessingResult) : bool :=
  (negb (success r) && face_detected r &&
   Qltb (face_confidence r) (min_face_confidence (face_processing cfg)))%bool.

Definition is_failed (r : ProcessingResult) : bool :=
  (negb (success r) && face_detected r &&
   negb (Qltb (face_confidence r)
              (min_face_confidence (face_processing cfg))))%bool.

Definition count (f : ProcessingResult -> bool)
    (results : list ProcessingResult) : Z :=
  Z.of_nat (List.length (filter f results)).

(** The record the "Log result" block writes first for a result. *)
Definition log_record_of (r : ProcessingResult) : LogRecord :=
  if success r then InfoProcessed r
  else WarningFailed (filename r) (error_message r).

End ResultClasses.

(** A result to name when a run returned none. *)
Definition no_result : ProcessingResult :=
  {| filename := ""; success := false; face_detected := false;
     face_confidence := 0; original_size := (0, 0); output_size := (0, 0);
     file_size_kb := 0; jpeg_quality := 0; error_message := "";
     processing_time := 0 |}.

Definition value_or {A : Type} (o : Outcome A) (default : A) : A :=
  match o with
  | Val a => a
  | _ => default
  end.


(** ** The run of the processor *)

(** [range(start, stop, step)]; [None] is the [ValueError] of a zero
    step. *)
Definition py_range (start stop step : Z) : option (list Z) :=
  if step =? 0 then None
  else
    let n :=
      if 0 <? step then (stop - start + step - 1) / step
      else (start - stop - step - 1) / (- step) in
    Some (map (fun k => start + Z.of_nat k * step) (seq 0 (Z.to_nat n))).

(** [l[i:j]]: a negative index counts from the end, an index outside
    the list is moved to its nearer end. *)
Definition py_slice {A : Type} (l : list A) (i j : Z) : list A :=
  let n := Z.of_nat (List.length l) in
  let norm x := if x <? 0 then Z.max (x + n) 0 else Z.min x n in
  firstn (Z.to_nat (norm j - norm i)) (skipn (Z.to_nat (norm i)) l).

(** [a / b] on integers; dividing by zero raises. *)
Definition py_truediv (a b : Z) : result Q :=
  if b =? 0 then Err "division by zero"
  else Ok (inject_Z a / inject_Z b)%Q.

(** The records [run], [initialize_insightface] and [generate_report]
    hand to the logger. *)
Inductive RunRecord :=
| InfoStarting
| InfoInitializing
| InfoInitialized
| ErrorInitFailed (e : exn)
| WarningNoInputFiles
| InfoFound (n : Z)
| InfoProcessingBatch (number total : Z)
| InfoReportGenerated (report_path : Path)
| InfoCompleted
| InfoSummary (n_successful n_total : Z).

(** What [run] needs beside the platform: the construction of the face
    analysis model, and the formatting of text. *)
Class Services `{Platform} := {
  (** [FaceAnalysis(name=..., providers=...)] and [app.prepare(ctx_id=...)] *)
  face_analysis_prepare : FS -> result unit;
  (** [datetime.strftime(format)] of a clock reading *)
  strftime : string -> Z -> string;
  (** [f"{n}"], [f"{x:.1f}"], [f"{x:.2f}"] *)
  fmt_int : Z -> string;
  fmt_1f : Q -> string;
  fmt_2f : Q -> string
}.

(** The state of a run: the state of the processor, and the records of
    the run, each with the number of per-file records logged before it,
    which fixes its place in the stream of the logger. *)
Record RunState `{Platform} := mkRunState {
  base : State;
  journal : list (nat * RunRecord)
}.

Definition R `{Platform} (A : Type) : Type :=
  RunState -> Outcome A * RunState.

Section RunMonad.
Context `{Platform}.

Definition rret {A} (a : A) : R A := fun rs => (Val a, rs).

Definition rbind {A B} (m : R A) (k : A -> R B) : R B :=
  fun rs =>
    match m rs with
    | (Val a, rs') => k a rs'
    | (Raise e, rs') => (Raise e, rs')
    | (Diverge, rs') => (Diverge, rs')
    end.

(** A computation of the processor inside a run. *)
Definition lift {A} (m : M A) : R A :=
  fun rs =>
    let '(o, st') := m (base rs) in
    (o, {| base := st'; journal := journal rs |}).

(** [self.logger.info / warning / error] of a record of the run. *)
Definition say (r : RunRecord) : R unit :=
  fun rs =>
    (Val tt,
     {| base := base rs;
        journal := journal rs ++ [(List.length (log (base rs)), r)] |}).

(** Reading the file system, the statistics and the clock to come. *)
Definition get_fs : M FS := fun st => (Val (fs st), st).
Definition get_stats : M Stats := fun st => (Val (stats st), st).
Definition next_clock : M Z := fun st => (Val (clock (ticks st)), st).

End RunMonad.

Notation "x <-- c1 ;;; c2" := (rbind c1 (fun x => c2))
  (at level 61, c1 at next level, right associativity).
Notation "c1 ;;; c2" := (rbind c1 (fun _ => c2))
  (at level 61, right associativity).

Section Runner.
Context `{Services}.
Variable cfg : Config.

(** The line feed. *)
Definition nl : string := String (ascii_of_nat 10) EmptyString.

(** *** generate_report *)

(** The two writes of the loop over the results. *)
Definition detail_line (r : ProcessingResult) : string :=
  (filename r ++ ": " ++
   (if success r then
      "SUCCESS - Quality: " ++ fmt_int (jpeg_quality r) ++ "%, " ++
      "Size: " ++ fmt_1f (file_size_kb r) ++ "KB, " ++
      "Confidence: " ++ fmt_2f (face_confidence r) ++ nl
    else "FAILED - " ++ error_message r ++ nl))%string.

(** The line of the success rate; [None] when there is no such line. *)
Definition success_rate_line (s : Stats) : result (option string) :=
  if 0 <? total_files s then
    match py_truediv (successful s) (total_files s) with
    | Ok ratio =>
        Ok (Some ("Success rate: " ++ fmt_1f (ratio * 100)%Q ++ "%" ++ nl)%string)
    | Err msg => Err msg
    end
  else Ok None.

Definition report_head (s : Stats) (generated : Z) (rate : option string)
    : string :=
  ("=== Face Processing Report ===" ++ nl ++
   "Generated: " ++ strftime "%Y-%m-%d %H:%M:%S" generated ++ nl ++ nl ++
   "=== Summary ===" ++ nl ++
   "Total files: " ++ fmt_int (total_files s) ++ nl ++
   "Successful: " ++ fmt_int (successful s) ++ nl ++
   "Failed: " ++ fmt_int (failed s) ++ nl ++
   "No face detected: " ++ fmt_int (no_face s) ++ nl ++
   "Poor quality faces: " ++ fmt_int (poor_quality s) ++ nl ++
   match rate with Some line => line | None => "" end ++
   nl ++ "=== Detailed Results ===" ++ nl)%string.

Definition report_text (s : Stats) (generated : Z) (rate : option string)
    (results : list ProcessingResult) : string :=
  (report_head s generated rate ++ String.concat "" (map detail_line results))%string.

Definition report_path_at (t : Z) : Path :=
  mkPath (logs (directories cfg))
         ("face_processing_report_" ++ strftime "%Y%m%d_%H%M%S" t ++ ".txt")%string.

(** The file is opened before the clock is read for the line
    "Generated"; the text is written to it in one go. *)
Definition generate_report (results : list ProcessingResult) : R unit :=
  t <-- lift datetime_now ;;;
  let report_path := report_path_at t in
  generated <-- lift next_clock ;;;
  s <-- lift get_stats ;;;
  rate <-- lift (call (success_rate_line s)) ;;;
  lift (write_file report_path
          (list_byte_of_string (report_text s generated rate results))) ;;;
  lift datetime_now ;;;
  say (InfoReportGenerated report_path).

(** *** initialize_insightface *)

Definition initialize_insightface : R bool :=
  say InfoInitializing ;;;
  fun rs =>
    match face_analysis_prepare (fs (base rs)) with
    | Ok _ => (say InfoInitialized ;;; rret true) rs
    | Err msg =>
        (say (ErrorInitFailed (ExternalError msg)) ;;; rret false) rs
    end.

(** *** run *)

(** The body of [for i in range(0, len(files), batch_size)]. *)
Fixpoint run_batches (fuel : nat) (files : list Path) (starts : list Z)
    (all_results : list ProcessingResult) : R (list ProcessingResult) :=
  match starts with
  | [] => rret all_results
  | i :: rest =>
      let size := batch_size (face_processing cfg) in
      let batch := py_slice files i (i + size) in
      say (InfoProcessingBatch
             (i / size + 1)
             ((Z.of_nat (List.length files) + size - 1) / size)) ;;;
      batch_results <-- lift (process_batch cfg fuel batch) ;;;
      run_batches fuel files rest (all_results ++ batch_results)
  end.

Definition run (fuel : nat) : R bool :=
  say InfoStarting ;;;
  ready <-- initialize_insightface ;;;
  if negb ready then rret false
  else
    disk <-- lift get_fs ;;;
    let files := get_input_files cfg disk in
    match files with
    | [] => say WarningNoInputFiles ;;; rret true
    | _ :: _ =>
        say (InfoFound (Z.of_nat (List.length files))) ;;;
        lift (syscall (os_mkdir (processing_cropped (directories cfg)))) ;;;
        lift (syscall (os_mkdir (processing_failed (directories cfg)))) ;;;
        match py_range 0 (Z.of_nat (List.length files))
                (batch_size (face_processing cfg)) with
        | None =>
            fun rs =>
              (Raise (ExternalError "range() arg 3 must not be zero"), rs)
        | Some starts =>
            all_results <-- run_batches fuel files starts [] ;;;
            generate_report all_results ;;;
            say InfoCompleted ;;;
            s <-- lift get_stats ;;;
            say (InfoSummary (successful s) (total_files s)) ;;;
            rret true
        end
    end.

(** The batches of a run: the slices the loop takes. *)
Definition batches (files : list Path) : option (list (list Path)) :=
  match py_range 0 (Z.of_nat (List.length files))
          (batch_size (face_processing cfg)) with
  | None => None
  | Some starts =>
      Some (map (fun i => py_slice files i
                            (i + batch_size (face_processing cfg))) starts)
  end.

End Runner.

(** Reference settings for a run. *)
Module RefRun.

Definition services : @Services Ref.platform :=
  {| face_analysis_prepare := fun _ => Ok tt;
     strftime := fun _ t => "T";
     fmt_int := fun _ => "N";
     fmt_1f := fun _ => "X";
     fmt_2f := fun _ => "Y" |}.

(** A platform whose model cannot be loaded. *)
Definition no_model : @Services Ref.platform :=
  {| face_analysis_prepare := fun _ => Err "model not found";
     strftime := fun _ t => "T";
     fmt_int := fun _ => "N";
     fmt_1f := fun _ => "X";
     fmt_2f := fun _ => "Y" |}.

(** The reference configuration with other extensions and batch size. *)
Definition cfg_with (formats : list string) (size : Z) : Config :=
  let fp := face_processing Ref.cfg in
  {| directories := Ref.dirs;
     face_processing :=
       {| padding_width_factor := padding_width_factor fp;
          padding_height_factor := padding_height_factor fp;
          intermediate_size := intermediate_size fp;
          target_size := target_size fp;
          min_face_confidence := min_face_confidence fp;
          max_file_size_kb := max_file_size_kb fp;
          jpeg_quality_start := jpeg_quality_start fp;
          jpeg_quality_min := jpeg_quality_min fp;
          jpeg_quality_step := jpeg_quality_step fp;
          supported_formats := formats;
          batch_size := size |} |}.

Definition rs0 : @RunState Ref.platform :=
  @mkRunState Ref.platform Ref.st0 [].

End RefRun.

(** Statistics as batches make them: balanced, with counters that are
    not negative. *)
Definition stats_sound (s : Stats) : Prop :=
  stats_balanced s /\ 0 <= successful s /\ 0 <= no_face s /\
  0 <= poor_quality s /\ 0 <= failed s.

(** The state of a run after the records [records] were logged while
    the processor was in state [st]. *)
Definition said `{Platform} (rs : RunState) (st : State)
    (records : list RunRecord) : RunState :=
  {| base := st;
     journal := journal rs
                ++ map (fun r => (List.length (log (base rs)), r)) records |}.

(** ASCII text that [Path.glob] reads literally inside a pattern: it has
    none of the pattern characters [*], [?] and [[], and no separator. *)
Fixpoint glob_literal (s : string) : bool :=
  match s with
  | EmptyString => true
  | String c s' =>
      ((N_of_ascii c <? 128)%N &&
       negb (Ascii.eqb c "*") && negb (Ascii.eqb c "?") &&
       negb (Ascii.eqb c "[") && negb (Ascii.eqb c "/") &&
       glob_literal s')%bool
  end.

(** A string without a dot. *)
Fixpoint dotless (s : string) : bool :=
  match s with
  | EmptyString => true
  | String c s' => (negb (Ascii.eqb c ".") && dotless s')%bool
  end.

(** * Properties *)

(** ** CropGeometry *)

Module CropGeometryFacts.
Import CropGeometry.

Lemma clamp_in_range (v lo hi : Z) : lo <= hi -> lo <= clamp v lo hi <= hi.
Proof. unfold clamp. lia. Qed.

Lemma clamp_mono (v v' lo hi : Z) :
  v <= v' -> clamp v lo hi <= clamp v' lo hi.
Proof. unfold clamp. lia. Qed.

Lemma py_int_nonneg (x : Q) : (0 <= x)%Q -> 0 <= py_int x.
Proof.
  destruct x as [n d]. unfold Qle, py_int. simpl. intros Hn.
  apply Z.quot_pos; lia.
Qed.

Lemma py_int_mono (x y : Q) : (x <= y)%Q -> py_int x <= py_int y.
Proof.
  destruct x as [a b], y as [c d]. unfold Qle, py_int. simpl. intros Hle.
  rewrite <- (Z.quot_mul_cancel_r a (Z.pos b) (Z.pos d)) by lia.
  rewrite <- (Z.quot_mul_cancel_r c (Z.pos d) (Z.pos b)) by lia.
  rewrite (Z.mul_comm (Z.pos d) (Z.pos b)).
  apply Z.quot_le_mono; lia.
Qed.

Lemma pad_nonneg (a b : Q) (factor : Q) :
  (a < b)%Q -> (0 <= factor)%Q ->
  0 <= py_int (inject_Z (py_int b - py_int a) * factor)%Q.
Proof.
  intros Hab Hf. apply py_int_nonneg.
  apply Qmult_le_0_compat; [|exact Hf].
  assert (py_int a <= py_int b) by (apply py_int_mono, Qlt_le_weak, Hab).
  unfold Qle. simpl. lia.
Qed.

(** C3 as stated fails: with a padding factor of -1 the left edge of the
    crop lies to the right of its right edge. *)
Lemma crop_region_negative_padding :
  (bbox_x1 Ref.a_face < bbox_x2 Ref.a_face)%Q /\
  (bbox_y1 Ref.a_face < bbox_y2 Ref.a_face)%Q /\
  calculate_crop_region (Ref.cfg_padding (-1 # 1) (1 # 1)) Ref.a_face
    (100, 100, 3)%N = (90, 0, 10, 80) /\
  ~ (let '(x1, y1, x2, y2) :=
       calculate_crop_region (Ref.cfg_padding (-1 # 1) (1 # 1)) Ref.a_face
         (100, 100, 3)%N in
     0 <= x1 <= x2 /\ x2 <= 100 /\ 0 <= y1 <= y2 /\ y2 <= 100).
Proof.
  repeat split; try reflexivity.
  vm_compute. intros [[_ Hx] _]. apply Hx. reflexivity.
Qed.

(** C3, amended: for every face box with x1 < x2 and y1 < y2, all
    padding factors that are not negative and all image bounds (height,
    width), the crop rectangle satisfies 0 <= x1 <= x2 <= width and
    0 <= y1 <= y2 <= height. *)
Theorem crop_region_within_bounds (cfg : Config) (face : Face)
    (height width channels : N) :
  (0 <= padding_width_factor (face_processing cfg))%Q ->
  (0 <= padding_height_factor (face_processing cfg))%Q ->
  (bbox_x1 face < bbox_x2 face)%Q ->
  (bbox_y1 face < bbox_y2 face)%Q ->
  let '(x1, y1, x2, y2) :=
    calculate_crop_region cfg face (height, width, channels) in
  0 <= x1 <= x2 /\ x2 <= Z.of_N width /\
  0 <= y1 <= y2 /\ y2 <= Z.of_N height.
Proof.
  intros Hpw Hph Hx Hy. unfold calculate_crop_region.
  pose proof (pad_nonneg _ _ _ Hx Hpw) as Hw.
  pose proof (pad_nonneg _ _ _ Hy Hph) as Hh.
  set (pw := py_int (inject_Z _ * padding_width_factor _)%Q) in *.
  set (ph := py_int (inject_Z _ * padding_height_factor _)%Q) in *.
  set (cx := (py_int (bbox_x1 face) + py_int (bbox_x2 face)) / 2).
  set (cy := (py_int (bbox_y1 face) + py_int (bbox_y2 face)) / 2).
  pose proof (clamp_in_range (cx - pw) 0 (Z.of_N width) (N2Z.is_nonneg _)).
  pose proof (clamp_in_range (cx + pw) 0 (Z.of_N width) (N2Z.is_nonneg _)).
  pose proof (clamp_in_range (cy - ph) 0 (Z.of_N height) (N2Z.is_nonneg _)).
  pose proof (clamp_in_range (cy + ph) 0 (Z.of_N height) (N2Z.is_nonneg _)).
  pose proof (clamp_mono (cx - pw) (cx + pw) 0 (Z.of_N width) ltac:(lia)).
  pose proof (clamp_mono (cy - ph) (cy + ph) 0 (Z.of_N height) ltac:(lia)).
  lia.
Qed.

Lemma crop_region_within_bounds_witness :
  let '(x1, y1, x2, y2) :=
    calculate_crop_region Ref.cfg Ref.a_face (100, 100, 3)%N in
  0 <= x1 <= x2 /\ x2 <= 100 /\ 0 <= y1 <= y2 /\ y2 <= 100.
Proof.
  apply (crop_region_within_bounds Ref.cfg Ref.a_face 100 100 3);
    vm_compute; congruence.
Defined.

End CropGeometryFacts.

(** ** FaceSelector *)

Lemma Qltb_true (a b : Q) : Qltb a b = true <-> (a < b)%Q.
Proof.
  unfold Qltb. rewrite negb_true_iff, <- not_true_iff_false, Qle_bool_iff.
  split; [apply Qnot_le_lt | apply Qlt_not_le].
Qed.

Lemma Qltb_false (a b : Q) : Qltb a b = false <-> (b <= a)%Q.
Proof.
  unfold Qltb. rewrite negb_false_iff. apply Qle_bool_iff.
Qed.

Module FaceSelectorFacts.
Import FaceSelector.

(** What the selection computes: an element of the list whose key
    [x2 * y2] no other element exceeds. *)
Lemma max_from_maximal {A : Type} (key : A -> Q) (rest : list A) :
  forall best,
    In (max_from key best rest) (best :: rest) /\
    forall x, In x (best :: rest) ->
              (key x <= key (max_from key best rest))%Q.
Proof.
  induction rest as [|y rest IH]; intros best; simpl.
  - split; [now left|]. intros x [<-|[]]. apply Qle_refl.
  - destruct (Qltb (key best) (key y)) eqn:E.
    + destruct (IH y) as [Hin Hmax]. split.
      * right. exact Hin.
      * intros x [<-|Hx]; [|now apply Hmax].
        apply Qle_trans with (key y).
        -- apply Qlt_le_weak, Qltb_true, E.
        -- apply Hmax. now left.
    + destruct (IH best) as [Hin Hmax]. split.
      * destruct Hin as [Hin|Hin]; [now left | right; now right].
      * intros x [<-|[<-|Hx]].
        -- apply Hmax. now left.
        -- apply Qle_trans with (key best).
           ++ apply Qltb_false, E.
           ++ apply Hmax. now left.
        -- apply Hmax. now right.
Qed.

(** Ties: the element returned is the first one of maximal key; every
    element before it has a strictly smaller key. *)
Lemma max_from_first {A : Type} (key : A -> Q) (rest : list A) :
  forall best,
    exists before after,
      best :: rest = before ++ max_from key best rest :: after /\
      (forall x, In x before ->
                 (key x < key (max_from key best rest))%Q) /\
      (forall x, In x after ->
                 (key x <= key (max_from key best rest))%Q).
Proof.
  induction rest as [|y rest IH]; intros best; simpl.
  - exists [], []. repeat split; intros x [].
  - destruct (Qltb (key best) (key y)) eqn:E.
    + destruct (IH y) as (before & after & Heq & Hb & Ha).
      exists (best :: before), after. split; [simpl; now rewrite <- Heq|].
      split; [|exact Ha].
      intros x [<-|Hx]; [|now apply Hb].
      apply Qlt_le_trans with (key y); [apply Qltb_true, E|].
      apply max_from_maximal. now left.
    + destruct (IH best) as (before & after & Heq & Hb & Ha).
      destruct before as [|b before]; simpl in Heq.
      * injection Heq as Hbest Hrest.
        exists [], (y :: after). split; [simpl; congruence|].
        split; [intros x []|].
        intros x [<-|Hx]; [|now apply Ha].
        rewrite <- Hbest. apply Qltb_false, E.
      * injection Heq as <- Hrest.
        exists (best :: y :: before), after.
        split; [simpl; congruence|]. split; [|exact Ha].
        intros x [<-|[<-|Hx]].
        -- apply Hb. now left.
        -- apply Qle_lt_trans with (key best); [apply Qltb_false, E|].
           apply Hb. now left.
        -- apply Hb. now right.
Qed.

Lemma select_face_maximises_corner_product (faces : list Face) (f : Face) :
  select_face faces = Some f ->
  In f faces /\ forall g, In g faces -> (rank_key g <= rank_key f)%Q.
Proof.
  destruct faces as [|f0 rest]; [discriminate|].
  unfold select_face, py_max. intros [= <-]. apply max_from_maximal.
Qed.

(** C1 on the code: of a 200x200 face at (10,10) and a 50x50 face at
    (300,300) the selection returns the small one, in either order of the
    list, although the large one has the greater area (x2-x1)*(y2-y1):
    the key of the code is x2*y2. *)
Theorem select_face_not_largest_area :
  select_face [large_face; small_face] = Some small_face /\
  select_face [small_face; large_face] = Some small_face /\
  (bbox_area small_face < bbox_area large_face)%Q /\
  (rank_key large_face < rank_key small_face)%Q.
Proof.
  repeat split.
Qed.

End FaceSelectorFacts.

(** ** QualityOptimizedEncoder *)

Section EncoderFacts.
Context `{Platform}.
Variable cfg : Config.

Local Abbreviation qstart := (jpeg_quality_start (face_processing cfg)).
Local Abbreviation qmin := (jpeg_quality_min (face_processing cfg)).
Local Abbreviation qstep := (jpeg_quality_step (face_processing cfg)).
Local Abbreviation budget := (max_file_size_kb (face_processing cfg) * 1024).

Lemma within_budget_spec (img : image) (q : Z) :
  within_budget cfg img q = true <->
  exists enc, cv2_imencode img q = (true, enc) /\ len enc <= budget.
Proof.
  unfold within_budget. destruct (cv2_imencode img q) as [ok enc].
  rewrite andb_true_iff, Z.leb_le. split.
  - intros [-> Hle]. now exists enc.
  - intros (enc' & [= -> ->] & Hle). now split.
Qed.

Lemma ladder_from_le (q0 q : Z) :
  0 < qstep -> ladder_from cfg q0 q -> q <= q0.
Proof. intros Hs (k & -> & _). nia. Qed.

Lemma ladder_from_top (q0 : Z) : qmin <= q0 -> ladder_from cfg q0 q0.
Proof. intros Hq. exists 0%nat. split; [simpl; lia | exact Hq]. Qed.

Lemma ladder_from_next (q0 q : Z) :
  0 < qstep -> ladder_from cfg (q0 - qstep) q -> ladder_from cfg q0 q.
Proof.
  intros Hs (k & -> & Hq). exists (S k). split; [lia | exact Hq].
Qed.

Lemma ladder_from_inv (q0 q : Z) :
  ladder_from cfg q0 q -> q = q0 \/ ladder_from cfg (q0 - qstep) q.
Proof.
  intros ([|k] & -> & Hq).
  - left. simpl. lia.
  - right. exists k. split; [lia | lia].
Qed.

(** The search loop on a descending ladder, with enough fuel: either it
    stops at the highest quality of the ladder whose encode is within
    the budget and persists that encode, or no quality of the ladder is
    within the budget and the loop is left. *)
Lemma quality_loop_descending (img : image) (p : Path) :
  0 < qstep ->
  forall fuel q st,
    (Z.to_nat (q - qmin + 1) < fuel)%nat ->
    (exists q' enc,
        ladder_from cfg q q' /\
        cv2_imencode img q' = (true, enc) /\ len enc <= budget /\
        (forall q'', ladder_from cfg q q'' -> q' < q'' ->
                     within_budget cfg img q'' = false) /\
        quality_loop cfg fuel img p q st =
          match persist p q' enc st with
          | (Val r, st') => (Val (Some r), st')
          | (Raise e, st') => (Raise e, st')
          | (Diverge, st') => (Diverge, st')
          end) \/
    ((forall q', ladder_from cfg q q' -> within_budget cfg img q' = false) /\
     quality_loop cfg fuel img p q st = (Val None, st)).
Proof.
  intros Hs. induction fuel as [|fuel IH]; intros q st Hfuel; [lia|].
  simpl.
  destruct (q >=? qmin) eqn:Hge.
  - apply Z.geb_le in Hge.
    pose proof (within_budget_spec img q) as Hspec.
    unfold within_budget in Hspec.
    destruct (cv2_imencode img q) as [ok enc] eqn:Henc.
    destruct (ok && (len enc <=? budget))%bool eqn:Hfit.
    + left. destruct Hspec as [Hspec _].
      destruct (Hspec eq_refl) as (enc' & [= -> ->] & Hle).
      exists q, enc'. repeat split; auto.
      * now apply ladder_from_top.
      * intros q'' Hl Hlt. apply ladder_from_le in Hl; [lia | exact Hs].
      * unfold bind, write_file, persist, ret.
        destruct (os_write p enc' (fs st)); reflexivity.
    + destruct (IH (q - qstep) st) as
          [(q' & enc' & Hl & He & Hle & Hhigh & Heq) | [Hnone Heq]]; [lia| |].
      * left. exists q', enc'. repeat split; auto.
        -- now apply ladder_from_next.
        -- intros q'' Hl'' Hlt.
           destruct (ladder_from_inv _ _ Hl'') as [-> | Hl2].
           ++ unfold within_budget. rewrite Henc. exact Hfit.
           ++ now apply Hhigh.
      * right. split; [|exact Heq].
        intros q' Hl'. destruct (ladder_from_inv _ _ Hl') as [-> | Hl2].
        -- unfold within_budget. rewrite Henc. exact Hfit.
        -- now apply Hnone.
  - right. rewrite Z.geb_leb, Z.leb_gt in Hge. split; [|reflexivity].
    intros q' Hl. pose proof (ladder_from_le _ _ Hs Hl).
    destruct Hl as (k & _ & Hq). lia.
Qed.

(** When the step is not positive and nothing from [q0] upwards is
    accepted, the loop condition holds forever. *)
Lemma quality_loop_never_exits (img : image) (p : Path) (q0 : Z) :
  qstep <= 0 ->
  qmin <= q0 ->
  (forall q, q0 <= q -> within_budget cfg img q = false) ->
  forall fuel q st,
    q0 <= q -> quality_loop cfg fuel img p q st = (Diverge, st).
Proof.
  intros Hs Hmin Hover. induction fuel as [|fuel IH]; intros q st Hq;
    [reflexivity|].
  simpl.
  destruct (q >=? qmin) eqn:Hge.
  - pose proof (Hover q Hq) as Hq'. unfold within_budget in Hq'.
    destruct (cv2_imencode img q) as [ok enc]. rewrite Hq'.
    apply IH. lia.
  - rewrite Z.geb_leb, Z.leb_gt in Hge. lia.
Qed.

(** The loop raises nothing of its own: an exception that leaves it
    comes from the write of the file. *)
Lemma quality_loop_raises_external (img : image) (p : Path) :
  forall fuel q st e st',
    quality_loop cfg fuel img p q st = (Raise e, st') ->
    exists msg, e = ExternalError msg.
Proof.
  induction fuel as [|fuel IH]; intros q st e st'; simpl; [discriminate|].
  destruct (q >=? qmin); [|discriminate].
  destruct (cv2_imencode img q) as [ok enc].
  destruct (ok && (len enc <=? budget))%bool; [|apply IH].
  unfold bind, write_file, ret. destruct (os_write p enc (fs st)) as [l|msg].
  - discriminate.
  - intros [= <- _]. now exists msg.
Qed.

Lemma save_after_loop (fuel : nat) (img : image) (p : Path) (st : State) :
  quality_loop cfg fuel img p qstart st = (Val None, st) ->
  save_with_quality_optimization cfg fuel img p st = forced_encode cfg img p st.
Proof.
  intros Hloop. unfold save_with_quality_optimization, bind.
  rewrite Hloop. unfold forced_encode.
  destruct (cv2_imencode img qmin) as [ok enc]. destruct ok; [|reflexivity].
  unfold write_file, persist, ret. destruct (os_write p enc (fs st)); reflexivity.
Qed.

Lemma save_found (fuel : nat) (img : image) (p : Path) (st : State)
    (q : Z) (enc : bytes) :
  quality_loop cfg fuel img p qstart st =
    match persist p q enc st with
    | (Val r, st') => (Val (Some r), st')
    | (Raise e, st') => (Raise e, st')
    | (Diverge, st') => (Diverge, st')
    end ->
  save_with_quality_optimization cfg fuel img p st = persist p q enc st.
Proof.
  intros Hloop. unfold save_with_quality_optimization, bind.
  rewrite Hloop. unfold persist.
  destruct (os_write p enc (fs st)); reflexivity.
Qed.

Lemma persist_not_diverge p q enc st : fst (persist p q enc st) <> Diverge.
Proof. unfold persist. destruct (os_write p enc (fs st)); discriminate. Qed.

Lemma forced_encode_not_diverge img p st :
  fst (forced_encode cfg img p st) <> Diverge.
Proof.
  unfold forced_encode. destruct (cv2_imencode img qmin) as [[] enc].
  - apply persist_not_diverge.
  - discriminate.
Qed.

Lemma enough_fuel_spec (fuel : nat) :
  (enough_fuel cfg <= fuel)%nat ->
  (Z.to_nat (qstart - qmin + 1) < fuel)%nat.
Proof. unfold enough_fuel. lia. Qed.

(** On a descending ladder the encoder finishes, by a return or by an
    exception, once it has enough fuel. *)
Lemma save_terminates (img : image) (p : Path) :
  0 < qstep ->
  forall fuel st,
    (enough_fuel cfg <= fuel)%nat ->
    fst (save_with_quality_optimization cfg fuel img p st) <> Diverge.
Proof.
  intros Hs fuel st Hfuel. apply enough_fuel_spec in Hfuel.
  destruct (quality_loop_descending img p Hs fuel qstart st Hfuel) as
      [(q' & enc & _ & _ & _ & _ & Heq) | [_ Heq]].
  - rewrite (save_found _ _ _ _ _ _ Heq). apply persist_not_diverge.
  - rewrite (save_after_loop _ _ _ _ Heq). apply forced_encode_not_diverge.
Qed.

(** On a ladder that does not descend, with nothing accepted, the
    encoder never finishes. *)
Lemma save_never_finishes (img : image) (p : Path) :
  qstep <= 0 ->
  qmin <= qstart ->
  (forall q, qstart <= q -> within_budget cfg img q = false) ->
  forall fuel st,
    save_with_quality_optimization cfg fuel img p st = (Diverge, st).
Proof.
  intros Hs Hq Hover fuel st.
  unfold save_with_quality_optimization, bind.
  rewrite (quality_loop_never_exits img p qstart Hs Hq Hover fuel qstart st)
    by lia.
  reflexivity.
Qed.

(** The encoder raises "Failed to encode image" only after the loop,
    when the codec reports the encode at quality_min as failed. *)
Lemma save_encode_failure (img : image) (p : Path) (fuel : nat) (st : State) :
  fst (save_with_quality_optimization cfg fuel img p st)
  = Raise (PyException "Failed to encode image") ->
  fst (cv2_imencode img qmin) = false.
Proof.
  unfold save_with_quality_optimization, bind.
  pose proof (quality_loop_raises_external img p fuel qstart st) as Hext.
  destruct (quality_loop cfg fuel img p qstart st) as [[[r|]|e|] st1]; simpl.
  - discriminate.
  - destruct (cv2_imencode img qmin) as [[] enc]; [|reflexivity].
    unfold write_file, ret. destruct (os_write p enc (fs st1)); discriminate.
  - destruct (Hext e st1 eq_refl) as [msg ->]. discriminate.
  - discriminate.
Qed.

(** C2: on the descending ladder quality_start, quality_start - step, ...
    (while at least quality_min) the encoder finishes, and the quality it
    returns is the highest one of the ladder whose successful encode has
    at most max_file_size_kb * 1024 bytes; when some quality of the
    ladder is within the budget the returned size is within it (and the
    encoder does return as soon as the file can be written), and when
    none is, the returned quality is quality_min (with a size within
    the budget if the encode at quality_min happens to fit). *)
Theorem encoder_returns_highest_quality_within_budget
    (img : image) (p : Path) :
  0 < qstep ->
  forall fuel st,
    (enough_fuel cfg <= fuel)%nat ->
    let '(o, st') := save_with_quality_optimization cfg fuel img p st in
    o <> Diverge /\
    (forall q kb,
        o = Val (q, kb) ->
        (exists enc,
            cv2_imencode img q = (true, enc) /\ kb = size_kb enc /\
            os_write p enc (fs st) = Ok (fs st')) /\
        ((exists q', on_ladder cfg q' /\ within_budget cfg img q' = true) ->
         on_ladder cfg q /\ within_budget cfg img q = true /\
         (forall q', on_ladder cfg q' -> within_budget cfg img q' = true ->
                     q' <= q) /\
         (kb <= inject_Z (max_file_size_kb (face_processing cfg)))%Q) /\
        ((forall q', on_ladder cfg q' -> within_budget cfg img q' = false) ->
         q = qmin /\
         (within_budget cfg img qmin = true ->
          (kb <= inject_Z (max_file_size_kb (face_processing cfg)))%Q))) /\
    ((exists q', on_ladder cfg q' /\ within_budget cfg img q' = true) ->
     (forall enc, exists fs', os_write p enc (fs st) = Ok fs') ->
     exists q kb, o = Val (q, kb)).
Proof.
  intros Hs fuel st Hfuel.
  pose proof (save_terminates img p Hs fuel st Hfuel) as Hterm.
  apply enough_fuel_spec in Hfuel.
  destruct (save_with_quality_optimization cfg fuel img p st) as [o st']
    eqn:Hsave.
  simpl in Hterm. split; [exact Hterm|].
  destruct (quality_loop_descending img p Hs fuel qstart st Hfuel) as
      [(q' & enc & Hl & He & Hle & Hhigh & Heq) | [Hnone Heq]].
  - rewrite (save_found _ _ _ _ _ _ Heq) in Hsave. unfold persist in Hsave.
    destruct (os_write p enc (fs st)) as [fs'|msg] eqn:Hw;
      injection Hsave as <- <-.
    + split.
      * intros q kb [= <- <-]. split; [|split].
        -- exists enc. repeat split; auto.
        -- intros _. repeat split.
           ++ exact Hl.
           ++ apply within_budget_spec. now exists enc.
           ++ intros q'' Hl'' Hfit.
              destruct (Z_le_gt_dec q'' q'); [assumption|].
              rewrite Hhigh in Hfit by (assumption || lia). discriminate.
           ++ unfold size_kb, Qle. simpl. lia.
        -- intros Hnone. specialize (Hnone q' Hl).
           assert (within_budget cfg img q' = true)
             by (apply within_budget_spec; now exists enc).
           congruence.
      * intros _ _. now exists q', (size_kb enc).
    + split; [discriminate|].
      intros _ Hwr. destruct (Hwr enc) as [fs' Hfs']. congruence.
  - rewrite (save_after_loop _ _ _ _ Heq) in Hsave.
    unfold forced_encode in Hsave.
    destruct (cv2_imencode img qmin) as [ok enc] eqn:He.
    split.
    + destruct ok; [|injection Hsave as <- <-; discriminate].
      unfold persist in Hsave.
      destruct (os_write p enc (fs st)) as [fs'|msg] eqn:Hw;
        injection Hsave as <- <-; [|discriminate].
      intros q kb [= <- <-]. split; [|split].
      * exists enc. repeat split; auto.
      * intros (q' & Hl & Hfit). rewrite Hnone in Hfit by assumption.
        discriminate.
      * intros _. split; [reflexivity|]. intros Hfit.
        apply within_budget_spec in Hfit.
        destruct Hfit as (enc' & Henc' & Hle). rewrite He in Henc'.
        injection Henc' as <-. unfold size_kb, Qle. simpl. lia.
    + intros (q' & Hl & Hfit). rewrite Hnone in Hfit by assumption.
      discriminate.
Qed.

(** C7, amended: with quality_step >= 1, when no quality of the ladder
    gives an encode within the byte budget, the encoder makes one forced
    encode at quality_min and writes it to the output path whatever its
    size, raising "Failed to encode image" when the codec reports that
    encode as failed (an error of the write is raised as it is, after the
    output file was touched); and for every configuration the encoder
    raises "Failed to encode image" only if the encode at quality_min is
    reported as failed by the codec. *)
Theorem forced_minimum_quality_encode (img : image) (p : Path) :
  (0 < qstep ->
   (forall q, on_ladder cfg q -> within_budget cfg img q = false) ->
   forall fuel st,
     (enough_fuel cfg <= fuel)%nat ->
     save_with_quality_optimization cfg fuel img p st =
       (let '(ok, enc) := cv2_imencode img qmin in
        if ok then
          match os_write p enc (fs st) with
          | Ok fs' => (Val (qmin, size_kb enc), set_fs st fs')
          | Err msg =>
              (Raise (ExternalError msg),
               set_fs st (os_write_failed p enc (fs st)))
          end
        else (Raise (PyException "Failed to encode image"), st))) /\
  (forall fuel st,
      fst (save_with_quality_optimization cfg fuel img p st)
      = Raise (PyException "Failed to encode image") ->
      fst (cv2_imencode img qmin) = false).
Proof.
  split; [|apply save_encode_failure].
  intros Hs Hnone fuel st Hfuel. apply enough_fuel_spec in Hfuel.
  destruct (quality_loop_descending img p Hs fuel qstart st Hfuel) as
      [(q' & enc & Hl & He & Hle & _) | [_ Heq]].
  - assert (within_budget cfg img q' = true)
      by (apply within_budget_spec; now exists enc).
    rewrite (Hnone q' Hl) in *. discriminate.
  - now apply save_after_loop.
Qed.

(** C9: with quality_step >= 1 the quality search finishes for every
    image; with quality_step <= 0, quality_start >= quality_min and no
    encode within the budget the loop never ends: no amount of fuel
    lets the call finish. *)
Theorem quality_search_termination (img : image) (p : Path) :
  (1 <= qstep ->
   forall fuel st,
     (enough_fuel cfg <= fuel)%nat ->
     fst (save_with_quality_optimization cfg fuel img p st) <> Diverge) /\
  (qstep <= 0 ->
   qmin <= qstart ->
   (forall q, within_budget cfg img q = false) ->
   forall fuel st,
     save_with_quality_optimization cfg fuel img p st = (Diverge, st)).
Proof.
  split.
  - intros Hs. apply save_terminates. lia.
  - intros Hs Hq Hover. apply save_never_finishes; auto.
Qed.

End EncoderFacts.

(** The encoder on the reference platform. *)

Lemma ref_over_one_kb (start qmin step : Z) (img : nat) (q : Z) :
  95 <= q ->
  @within_budget Ref.platform (Ref.cfg_ladder 1 start qmin step) img q = false.
Proof.
  intros Hq. unfold within_budget.
  cbn [cv2_imencode Ref.platform Ref.imencode andb]. apply Z.leb_gt.
  unfold len. cbn [List.length]. rewrite repeat_length.
  cbn [max_file_size_kb face_processing Ref.cfg_ladder]. lia.
Qed.

Lemma ref_over_budget (start qmin step : Z) (img : nat) (q : Z) :
  @within_budget Ref.platform (Ref.cfg_ladder 0 start qmin step) img q = false.
Proof.
  unfold within_budget. simpl. apply Z.leb_gt. unfold len. simpl List.length.
  lia.
Qed.

Lemma encoder_returns_highest_quality_within_budget_witness :
  fst (@save_with_quality_optimization Ref.platform Ref.cfg 60 5%nat
         (mkPath "cropped" "ann.jpg") Ref.st0) = Val (85, (1021 # 1024)%Q) /\
  on_ladder Ref.cfg 85 /\
  (forall q', on_ladder Ref.cfg q' ->
              @within_budget Ref.platform Ref.cfg 5%nat q' = true ->
              q' <= 85).
Proof.
  pose proof (@encoder_returns_highest_quality_within_budget Ref.platform
                Ref.cfg 5%nat (mkPath "cropped" "ann.jpg") eq_refl
                60%nat Ref.st0) as Hthm.
  assert (Hfuel : (enough_fuel Ref.cfg <= 60)%nat)
    by (unfold enough_fuel; simpl; lia).
  specialize (Hthm Hfuel).
  assert (Hrun : fst (@save_with_quality_optimization Ref.platform Ref.cfg 60
                        5%nat (mkPath "cropped" "ann.jpg") Ref.st0)
                 = Val (85, (1021 # 1024)%Q)) by (vm_compute; reflexivity).
  split; [exact Hrun|].
  destruct (@save_with_quality_optimization Ref.platform Ref.cfg 60 5%nat
              (mkPath "cropped" "ann.jpg") Ref.st0) as [o st'].
  simpl in Hrun. destruct Hthm as (_ & Hret & _).
  destruct (Hret 85 (1021 # 1024)%Q Hrun) as (_ & Hhigh & _).
  assert (Hsome : exists q', on_ladder Ref.cfg q' /\
                    @within_budget Ref.platform Ref.cfg 5%nat q' = true).
  { exists 85. split; [|vm_compute; reflexivity].
    exists 2%nat. split; [reflexivity | vm_compute; discriminate]. }
  destruct (Hhigh Hsome) as (Hl & _ & Hmax & _). split; assumption.
Defined.

(** C7 as stated fails: with quality_step = 0 and a budget of 0 KB the
    only quality of the ladder is 95 and its encode is over the budget,
    the codec would encode at quality_min = 50, and yet the encoder makes
    no forced encode: it stays in its loop, with nothing written, however
    much fuel it is given. *)
Lemma forced_encode_not_reached_on_constant_ladder :
  (forall q, on_ladder (Ref.cfg_ladder 0 95 50 0) q ->
             @within_budget Ref.platform (Ref.cfg_ladder 0 95 50 0) 5%nat q
             = false) /\
  fst (@cv2_imencode Ref.platform 5%nat 50) = true /\
  (forall fuel,
      @save_with_quality_optimization Ref.platform
        (Ref.cfg_ladder 0 95 50 0) fuel 5%nat (mkPath "cropped" "ann.jpg")
        Ref.st0 = (Diverge, Ref.st0)) /\
  ~ (exists fuel r st',
        @save_with_quality_optimization Ref.platform
          (Ref.cfg_ladder 0 95 50 0) fuel 5%nat (mkPath "cropped" "ann.jpg")
          Ref.st0 = (Val r, st')).
Proof.
  assert (Hloop : forall fuel,
             @save_with_quality_optimization Ref.platform
               (Ref.cfg_ladder 0 95 50 0) fuel 5%nat
               (mkPath "cropped" "ann.jpg") Ref.st0 = (Diverge, Ref.st0)).
  { intros fuel. apply save_never_finishes.
    - simpl. lia.
    - simpl. lia.
    - intros q _. apply ref_over_budget. }
  split; [intros q _; apply ref_over_budget|].
  split; [reflexivity|]. split; [exact Hloop|].
  intros (fuel & r & st' & Hrun). rewrite Hloop in Hrun. discriminate.
Qed.

Lemma forced_minimum_quality_encode_witness :
  fst (@save_with_quality_optimization Ref.platform
         (Ref.cfg_ladder 0 95 50 5) 60 5%nat (mkPath "cropped" "ann.jpg")
         Ref.st0) = Val (50, (601 # 1024)%Q) /\
  Ref.lookup (mkPath "cropped" "ann.jpg")
    (fs (snd (@save_with_quality_optimization Ref.platform
                (Ref.cfg_ladder 0 95 50 5) 60 5%nat
                (mkPath "cropped" "ann.jpg") Ref.st0)))
  = Some (snd (Ref.imencode 5 50)).
Proof.
  assert (Hfuel : (enough_fuel (Ref.cfg_ladder 0 95 50 5) <= 60)%nat)
    by (unfold enough_fuel; simpl; lia).
  destruct (@forced_minimum_quality_encode Ref.platform
              (Ref.cfg_ladder 0 95 50 5) 5%nat (mkPath "cropped" "ann.jpg"))
    as [Hforced _].
  rewrite (Hforced eq_refl (fun q _ => ref_over_budget 95 50 5 5%nat q)
             60%nat Ref.st0 Hfuel).
  split; vm_compute; reflexivity.
Defined.

Lemma quality_search_termination_witness :
  fst (@save_with_quality_optimization Ref.platform Ref.cfg 60 5%nat
         (mkPath "cropped" "ann.jpg") Ref.st0) <> Diverge /\
  (forall fuel,
      @save_with_quality_optimization Ref.platform
        (Ref.cfg_ladder 0 95 50 0) fuel 5%nat (mkPath "cropped" "ann.jpg")
        Ref.st0 = (Diverge, Ref.st0)).
Proof.
  split.
  - apply (proj1 (@quality_search_termination Ref.platform Ref.cfg 5%nat
                    (mkPath "cropped" "ann.jpg"))).
    + simpl. lia.
    + unfold enough_fuel. simpl. lia.
  - intros fuel.
    apply (proj2 (@quality_search_termination Ref.platform
                    (Ref.cfg_ladder 0 95 50 0) 5%nat
                    (mkPath "cropped" "ann.jpg"))).
    + simpl. lia.
    + simpl. lia.
    + intros q. apply ref_over_budget.
Defined.

(** ** Frame and termination rules of the monad *)

Section MonadFacts.
Context `{Platform}.

Lemma keeps_ret {A} (a : A) : keeps_stats (ret a).
Proof. intros st. reflexivity. Qed.

Lemma keeps_raise {A} (e : exn) : keeps_stats (@raise _ A e).
Proof. intros st. reflexivity. Qed.

Lemma keeps_diverge {A} : keeps_stats (@diverge _ A).
Proof. intros st. reflexivity. Qed.

Lemma keeps_call {A} (r : result A) : keeps_stats (call r).
Proof. intros st. destruct r; reflexivity. Qed.

Lemma keeps_call_fs {A} (op : FS -> result A) : keeps_stats (call_fs op).
Proof. intros st. unfold call_fs. apply keeps_call. Qed.

Lemma keeps_syscall (op : FS -> result FS) : keeps_stats (syscall op).
Proof. intros st. unfold syscall. destruct (op (fs st)); reflexivity. Qed.

Lemma keeps_write_file (p : Path) (b : bytes) : keeps_stats (write_file p b).
Proof.
  intros st. unfold write_file. destruct (os_write p b (fs st)); reflexivity.
Qed.

Lemma keeps_now : keeps_stats datetime_now.
Proof. intros st. reflexivity. Qed.

Lemma keeps_logger (r : LogRecord) : keeps_stats (logger r).
Proof. intros st. reflexivity. Qed.

Lemma keeps_bind {A B} (m : M A) (k : A -> M B) :
  keeps_stats m -> (forall a, keeps_stats (k a)) -> keeps_stats (bind m k).
Proof.
  intros Hm Hk st. unfold bind. specialize (Hm st).
  destruct (m st) as [[a|e|] st1]; simpl in *; try assumption.
  rewrite Hk. assumption.
Qed.

Lemma keeps_try {A} (body : M A) (handler : exn -> M A) :
  keeps_stats body -> (forall e, keeps_stats (handler e)) ->
  keeps_stats (try_except body handler).
Proof.
  intros Hm Hk st. unfold try_except. specialize (Hm st).
  destruct (body st) as [[a|e|] st1]; simpl in *; try assumption.
  rewrite Hk. assumption.
Qed.

Lemma term_ret {A} (a : A) : terminating (ret a).
Proof. intros st. discriminate. Qed.

Lemma term_raise {A} (e : exn) : terminating (@raise _ A e).
Proof. intros st. discriminate. Qed.

Lemma term_call {A} (r : result A) : terminating (call r).
Proof. intros st. destruct r; discriminate. Qed.

Lemma term_call_fs {A} (op : FS -> result A) : terminating (call_fs op).
Proof. intros st. unfold call_fs. apply term_call. Qed.

Lemma term_syscall (op : FS -> result FS) : terminating (syscall op).
Proof. intros st. unfold syscall. destruct (op (fs st)); discriminate. Qed.

Lemma term_write_file (p : Path) (b : bytes) : terminating (write_file p b).
Proof.
  intros st. unfold write_file. destruct (os_write p b (fs st)); discriminate.
Qed.

Lemma term_now : terminating datetime_now.
Proof. intros st. discriminate. Qed.

Lemma term_logger (r : LogRecord) : terminating (logger r).
Proof. intros st. discriminate. Qed.

Lemma term_modify (f : Stats -> Stats) : terminating (modify_stats f).
Proof. intros st. discriminate. Qed.

Lemma term_bind {A B} (m : M A) (k : A -> M B) :
  terminating m -> (forall a, terminating (k a)) -> terminating (bind m k).
Proof.
  intros Hm Hk st. unfold bind. specialize (Hm st).
  destruct (m st) as [[a|e|] st1]; simpl in *; try discriminate.
  - apply Hk.
  - congruence.
Qed.

Lemma term_try {A} (body : M A) (handler : exn -> M A) :
  terminating body -> (forall e, terminating (handler e)) ->
  terminating (try_except body handler).
Proof.
  intros Hm Hk st. unfold try_except. specialize (Hm st).
  destruct (body st) as [[a|e|] st1]; simpl in *; try discriminate.
  - apply Hk.
  - congruence.
Qed.

Lemma returns_ret {A} (Q : A -> Prop) (a : A) : Q a -> returns Q (ret a).
Proof. intros Ha st a' st' [= <- _]. exact Ha. Qed.

Lemma returns_bind {A B} (Q : B -> Prop) (m : M A) (k : A -> M B) :
  (forall a, returns Q (k a)) -> returns Q (bind m k).
Proof.
  intros Hk st b st'. unfold bind.
  destruct (m st) as [[a|e|] st1]; try discriminate. apply Hk.
Qed.

Lemma returns_try {A} (Q : A -> Prop) (body : M A) (handler : exn -> M A) :
  returns Q body -> (forall e, returns Q (handler e)) ->
  returns Q (try_except body handler).
Proof.
  intros Hb Hh st a st'. unfold try_except.
  destruct (body st) as [[a'|e|] st1] eqn:E; try discriminate.
  - intros [= <- <-]. exact (Hb _ _ _ E).
  - apply Hh.
Qed.

End MonadFacts.

Create HintDb frame.
#[export] Hint Resolve keeps_ret keeps_raise keeps_diverge keeps_call
  keeps_call_fs keeps_syscall keeps_write_file keeps_now keeps_logger : frame.
Create HintDb term.
#[export] Hint Resolve term_ret term_raise term_call term_call_fs
  term_syscall term_write_file term_now term_logger term_modify : term.

(** Walks through a computation built from binds, matches and tests. *)
Ltac walk bind_rule base :=
  repeat first
    [ solve [base]
    | apply bind_rule; [|intros ?]
    | match goal with
      | |- _ (match ?x with _ => _ end) => destruct x
      end ].

(** ** ImagePipeline *)

Section PipelineFacts.
Context `{Platform}.
Variable cfg : Config.

Local Abbreviation qstep := (jpeg_quality_step (face_processing cfg)).

Lemma keeps_quality_loop (img : image) (p : Path) :
  forall fuel q, keeps_stats (quality_loop cfg fuel img p q).
Proof.
  induction fuel as [|fuel IH]; intros q; simpl.
  - apply keeps_diverge.
  - walk @keeps_bind ltac:(auto with frame).
Qed.

Lemma keeps_save (fuel : nat) (img : image) (p : Path) :
  keeps_stats (save_with_quality_optimization cfg fuel img p).
Proof.
  unfold save_with_quality_optimization.
  pose proof (keeps_quality_loop img p).
  walk @keeps_bind ltac:(auto with frame).
Qed.

Lemma keeps_pipeline_body (fuel : nat) (p : Path) (t0 : Z) :
  keeps_stats (pipeline_body cfg fuel p t0).
Proof.
  unfold pipeline_body. pose proof keeps_save.
  walk @keeps_bind ltac:(auto with frame).
Qed.

Lemma keeps_process_single_image (fuel : nat) (p : Path) :
  keeps_stats (process_single_image cfg fuel p).
Proof.
  unfold process_single_image, pipeline_handler.
  apply keeps_bind; [auto with frame|]. intros t0.
  apply keeps_try; [apply keeps_pipeline_body|]. intros e.
  walk @keeps_bind ltac:(auto with frame).
Qed.

Lemma term_pipeline_body (fuel : nat) (p : Path) (t0 : Z) :
  (forall img out, terminating (save_with_quality_optimization cfg fuel img out)) ->
  terminating (pipeline_body cfg fuel p t0).
Proof.
  intros Hsave. unfold pipeline_body.
  walk @term_bind ltac:(auto with term).
Qed.

(** The pipeline is the [try] block run after one reading of the clock,
    with the handler applied to an exception of the block. *)
Lemma process_single_image_unfold (fuel : nat) (p : Path) (st : State) :
  process_single_image cfg fuel p st =
    match pipeline_body cfg fuel p (clock (ticks st)) (entered st) with
    | (Raise e, st1) =>
        (Val (failure (name p) false 0 (0, 0) (str e)
                (total_seconds (clock (ticks st1)) (clock (ticks st)))),
         entered st1)
    | other => other
    end.
Proof.
  unfold process_single_image, bind, try_except, entered. simpl.
  destruct (pipeline_body cfg fuel p (clock (ticks st)) _) as [[r|e|] st1];
    reflexivity.
Qed.

(** The [try] block up to the call of the encoder, for an image that is
    read, has a face of sufficient confidence and a crop that is not
    empty. *)
Lemma pipeline_body_reaches_encoder (fuel : nat) (p : Path) (t0 : Z)
    (st : State) (img : image) (faces : list Face) (face : Face)
    (x1 y1 x2 y2 : Z) (intermediate resized sharpened : image) :
  cv2_imread p (fs st) = Ok (Some img) ->
  app_get img = Ok faces ->
  FaceSelector.select_face faces = Some face ->
  Qltb (FaceSelector.confidence_of face)
       (min_face_confidence (face_processing cfg)) = false ->
  CropGeometry.calculate_crop_region cfg face (shape img) = (x1, y1, x2, y2) ->
  (np_size (np_slice img y1 y2 x1 x2) =? 0)%N = false ->
  cv2_resize (np_slice img y1 y2 x1 x2)
    (intermediate_size (face_processing cfg)) = Ok intermediate ->
  cv2_resize intermediate (target_size (face_processing cfg)) = Ok resized ->
  cv2_filter2D resized = Ok sharpened ->
  forall o st1,
    save_with_quality_optimization cfg fuel sharpened
      (mkPath (processing_cropped (directories cfg)) (stem p ++ ".jpg")%string)
      st = (o, st1) ->
    (o = Diverge -> pipeline_body cfg fuel p t0 st = (Diverge, st1)) /\
    (forall e, o = Raise e -> pipeline_body cfg fuel p t0 st = (Raise e, st1)).
Proof.
  intros Hread Hget Hsel Hconf Hcrop Hsize Hr1 Hr2 Hf o st1 Hsave.
  unfold pipeline_body, bind, call_fs, call, ret.
  rewrite Hread. cbv beta iota.
  destruct (shape img) as [[s0 s1] c] eqn:Hshape.
  rewrite Hget. cbv beta iota.
  rewrite Hsel, Hconf, Hcrop, Hsize, Hr1. cbv beta iota.
  rewrite Hr2. cbv beta iota. rewrite Hf. cbv beta iota. rewrite Hsave.
  split; [intros -> | intros e ->]; reflexivity.
Qed.

(** Every result of the pipeline names the file it was given. *)
Lemma process_single_image_filename (fuel : nat) (p : Path) :
  returns (fun r => filename r = name p) (process_single_image cfg fuel p).
Proof.
  unfold process_single_image, pipeline_handler.
  apply returns_bind. intros t0. apply returns_try; [|intros e].
  - unfold pipeline_body.
    repeat first
      [ apply returns_ret; reflexivity
      | apply returns_bind; intros ?
      | match goal with
        | |- _ (match ?x with _ => _ end) => destruct x
        end ].
  - apply returns_bind. intros now. apply returns_ret. reflexivity.
Qed.

(** A successful result is only built after the encoder returned. *)
Lemma pipeline_total (fuel : nat) (p : Path) :
  0 < qstep ->
  (enough_fuel cfg <= fuel)%nat ->
  forall st, exists r st', process_single_image cfg fuel p st = (Val r, st').
Proof.
  intros Hs Hfuel st. rewrite process_single_image_unfold.
  assert (Hterm : terminating (pipeline_body cfg fuel p (clock (ticks st)))).
  { apply term_pipeline_body. intros img out st1.
    now apply save_terminates. }
  specialize (Hterm (entered st)).
  destruct (pipeline_body cfg fuel p (clock (ticks st)) (entered st))
    as [[r|e|] st1]; simpl in Hterm.
  - now exists r, st1.
  - eexists. eexists. reflexivity.
  - congruence.
Qed.

(** C5, amended: provided the ladder descends (quality_step >= 1), the
    per-image pipeline is total: for every path and state it returns a
    ProcessingResult and raises nothing; an exception raised at any
    stage of the try block becomes the failure result that carries the
    message of the exception and the time between the clock reading at
    the entry of the pipeline and the reading taken by the handler. *)
Theorem pipeline_total_on_descending_ladder
    (fuel : nat) (image_path : Path) (st : State) :
  0 < qstep ->
  (enough_fuel cfg <= fuel)%nat ->
  exists r st',
    process_single_image cfg fuel image_path st = (Val r, st') /\
    forall e st1,
      pipeline_body cfg fuel image_path (clock (ticks st)) (entered st)
        = (Raise e, st1) ->
      r = failure (name image_path) false 0 (0, 0) (str e)
            (total_seconds (clock (ticks st1)) (clock (ticks st))) /\
      success r = false /\
      error_message r = str e /\
      processing_time r =
        total_seconds (clock (ticks st1)) (clock (ticks st)).
Proof.
  intros Hs Hfuel.
  destruct (pipeline_total fuel image_path Hs Hfuel st) as (r & st' & Hrun).
  exists r, st'. split; [exact Hrun|].
  intros e st1 Hbody. rewrite process_single_image_unfold, Hbody in Hrun.
  injection Hrun as <- <-. repeat split.
Qed.

End PipelineFacts.

(** The pipeline on the reference platform. *)

(** C5 as stated fails: with quality_step = 0, a budget of 1 KB and an
    encode of 1141 bytes at quality 95, the pipeline on a readable
    portrait returns no result, whatever the fuel. *)
Lemma pipeline_never_returns_on_constant_ladder :
  ~ (exists fuel r st',
        @process_single_image Ref.platform (Ref.cfg_ladder 1 95 50 0) fuel
          (Ref.photo "ann.jpg") Ref.st0 = (Val r, st')).
Proof.
  intros (fuel & r & st' & Hrun).
  rewrite process_single_image_unfold in Hrun.
  pose proof (@save_never_finishes Ref.platform (Ref.cfg_ladder 1 95 50 0)
                5%nat (mkPath "cropped" "ann.jpg")
                ltac:(simpl; lia) ltac:(simpl; lia)
                (ref_over_one_kb 95 50 0 5%nat) fuel
                (@entered Ref.platform Ref.st0)) as Hsave.
  destruct (@pipeline_body_reaches_encoder Ref.platform
              (Ref.cfg_ladder 1 95 50 0) fuel (Ref.photo "ann.jpg")
              0 (@entered Ref.platform Ref.st0) 5%nat [Ref.a_face] Ref.a_face
              0 0 100 100 5%nat 5%nat 5%nat
              eq_refl eq_refl eq_refl eq_refl eq_refl eq_refl eq_refl
              eq_refl eq_refl Diverge _ Hsave) as [Hdiv _].
  change (@clock Ref.platform (@ticks Ref.platform Ref.st0)) with 0 in Hrun.
  rewrite (Hdiv eq_refl) in Hrun. discriminate.
Qed.

Lemma pipeline_total_on_descending_ladder_witness :
  exists r st',
    @process_single_image Ref.platform Ref.cfg 60 (Ref.photo "bob.jpg")
      Ref.st0 = (Val r, st') /\
    error_message r = "inference failed"%string /\
    processing_time r = (1000000 # 1000000)%Q.
Proof.
  assert (Hfuel : (enough_fuel Ref.cfg <= 60)%nat)
    by (unfold enough_fuel; simpl; lia).
  destruct (@pipeline_total_on_descending_ladder Ref.platform Ref.cfg 60
              (Ref.photo "bob.jpg") Ref.st0 eq_refl Hfuel)
    as (r & st' & Hrun & Hexn).
  exists r, st'. split; [exact Hrun|].
  destruct (Hexn (ExternalError "inference failed")
                 (@entered Ref.platform Ref.st0) eq_refl)
    as (_ & _ & Hmsg & Htime).
  split; [exact Hmsg | exact Htime].
Defined.

(** ** BatchOrchestrator *)

Section BatchFacts.
Context `{Platform}.
Variable cfg : Config.

Local Abbreviation qstep := (jpeg_quality_step (face_processing cfg)).
Local Abbreviation failed_dir := (processing_failed (directories cfg)).

Lemma update_statistics_one_counter (r : ProcessingResult) (s : Stats) :
  one_counter_incremented s (update_statistics cfg r s).
Proof.
  unfold one_counter_incremented, update_statistics, classify.
  destruct (success r); [|destruct (face_detected r); simpl;
    [destruct (Qltb _ _)|]]; simpl; split; try reflexivity; tauto.
Qed.

Lemma one_counter_keeps_balance (s s' : Stats) :
  one_counter_incremented s s' -> stats_balanced s -> stats_balanced s'.
Proof. unfold one_counter_incremented, stats_balanced. lia. Qed.

Lemma keeps_log_and_quarantine (p : Path) (r : ProcessingResult) :
  keeps_stats (log_and_quarantine cfg p r).
Proof.
  unfold log_and_quarantine. destruct (success r); [auto with frame|].
  apply keeps_bind; [auto with frame|]. intros _.
  apply keeps_bind; [auto with frame|]. intros _.
  apply keeps_try; auto with frame.
Qed.

(** The loop body: the pipeline, then the statistics, then the log and
    the move of a failed file. *)
Lemma process_file_unfold (fuel : nat) (p : Path) (st : State) :
  process_file cfg fuel p st =
    match process_single_image cfg fuel p st with
    | (Val r, st1) =>
        match log_and_quarantine cfg p r (counted cfg r st1) with
        | (Val _, st2) => (Val r, st2)
        | (Raise e, st2) => (Raise e, st2)
        | (Diverge, st2) => (Diverge, st2)
        end
    | (Raise e, st1) => (Raise e, st1)
    | (Diverge, st1) => (Diverge, st1)
    end.
Proof.
  unfold process_file, bind.
  destruct (process_single_image cfg fuel p st) as [[r|e|] st1];
    reflexivity.
Qed.

(** One turn of the loop leaves the statistics untouched or updates
    them for the result of the pipeline; it updates them whenever the
    pipeline returned. *)
Lemma process_file_stats (fuel : nat) (p : Path) (st : State) :
  match process_single_image cfg fuel p st with
  | (Val r, _) =>
      stats (snd (process_file cfg fuel p st))
      = update_statistics cfg r (stats st)
  | _ => stats (snd (process_file cfg fuel p st)) = stats st
  end.
Proof.
  rewrite process_file_unfold.
  pose proof (keeps_process_single_image cfg fuel p st) as Hk.
  destruct (process_single_image cfg fuel p st) as [[r|e|] st1];
    simpl in Hk; try exact Hk.
  pose proof (keeps_log_and_quarantine p r (counted cfg r st1)) as Hq.
  destruct (log_and_quarantine cfg p r (counted cfg r st1)) as [[u|e|] st2];
    simpl in *; rewrite Hq, Hk; reflexivity.
Qed.

Lemma process_file_balance (fuel : nat) (p : Path) (st : State) :
  stats_balanced (stats st) ->
  stats_balanced (stats (snd (process_file cfg fuel p st))).
Proof.
  intros Hb. pose proof (process_file_stats fuel p st) as Hs.
  destruct (process_single_image cfg fuel p st) as [[r|e|] st1];
    rewrite Hs; try exact Hb.
  eapply one_counter_keeps_balance; [apply update_statistics_one_counter|].
  exact Hb.
Qed.

Lemma process_file_returned (fuel : nat) (p : Path) (st : State)
    (r : ProcessingResult) (st' : State) :
  process_file cfg fuel p st = (Val r, st') ->
  stats st' = update_statistics cfg r (stats st) /\ filename r = name p.
Proof.
  intros Hrun. pose proof (process_file_stats fuel p st) as Hs.
  pose proof (process_single_image_filename cfg fuel p st) as Hname.
  rewrite Hrun in Hs. simpl snd in Hs. rewrite process_file_unfold in Hrun.
  destruct (process_single_image cfg fuel p st) as [[r1|e|] st1];
    try discriminate.
  destruct (log_and_quarantine cfg p r1 (counted cfg r1 st1))
    as [[u|e|] st2]; try discriminate.
  injection Hrun as <- <-. split; [exact Hs|]. now apply (Hname r1 st1).
Qed.

Lemma batch_loop_balance (fuel : nat) (files : list Path) :
  forall acc st,
    stats_balanced (stats st) ->
    stats_balanced (stats (snd (batch_loop cfg fuel files acc st))).
Proof.
  induction files as [|p rest IH]; intros acc st Hb; [exact Hb|].
  cbn [batch_loop]. unfold bind.
  pose proof (process_file_balance fuel p st Hb) as Hb1.
  destruct (process_file cfg fuel p st) as [[r|e|] st1]; simpl in Hb1;
    try exact Hb1.
  now apply IH.
Qed.

Lemma batch_loop_results (fuel : nat) (files : list Path) :
  forall acc st results st',
    batch_loop cfg fuel files acc st = (Val results, st') ->
    exists rs,
      results = acc ++ rs /\
      map filename rs = map name files /\
      total_files (stats st')
      = total_files (stats st) + Z.of_nat (List.length files).
Proof.
  induction files as [|p rest IH]; intros acc st results st'.
  - intros [= <- <-]. exists []. rewrite app_nil_r. repeat split.
    simpl. lia.
  - cbn [batch_loop]. unfold bind.
    pose proof (process_file_returned fuel p st) as Hret.
    destruct (process_file cfg fuel p st) as [[r|e|] st1]; try discriminate.
    destruct (Hret r st1 eq_refl) as [Hstats Hname]. intros Hrun.
    destruct (IH _ _ _ _ Hrun) as (rs & -> & Hnames & Htotal).
    exists (r :: rs). rewrite <- app_assoc. split; [reflexivity|].
    split; [simpl; congruence|].
    rewrite Htotal, Hstats.
    destruct (update_statistics_one_counter r (stats st)) as [-> _].
    change (List.length (p :: rest)) with (S (List.length rest)). lia.
Qed.

(** With a descending ladder and a quarantine directory that can be
    made, one turn of the loop always returns the result of its file. *)
Lemma process_file_returns (fuel : nat) (p : Path) (st : State) :
  0 < qstep ->
  (forall l, exists l', os_mkdir failed_dir l = Ok l') ->
  (enough_fuel cfg <= fuel)%nat ->
  exists r st', process_file cfg fuel p st = (Val r, st').
Proof.
  intros Hs Hmk Hfuel. rewrite process_file_unfold.
  destruct (pipeline_total cfg fuel p Hs Hfuel st) as (r & st1 & ->).
  unfold log_and_quarantine. destruct (success r).
  - eexists. eexists. reflexivity.
  - unfold bind, logger, syscall, try_except. simpl fs.
    destruct (Hmk (fs st1)) as [l' ->]. simpl fs.
    destruct (os_rename p _ l'); eexists; eexists; reflexivity.
Qed.

(** The quarantine directory is made outside the [try] block: when
    making it raises, the exception leaves the loop body. *)
Lemma mkdir_failure_propagates (fuel : nat) (p : Path) (st st1 : State)
    (r : ProcessingResult) (msg : string) :
  process_single_image cfg fuel p st = (Val r, st1) ->
  success r = false ->
  os_mkdir failed_dir (fs st1) = Err msg ->
  fst (process_file cfg fuel p st) = Raise (ExternalError msg).
Proof.
  intros Hrun Hko Hmk. rewrite process_file_unfold, Hrun.
  unfold log_and_quarantine. rewrite Hko.
  unfold bind, logger, syscall. simpl fs. rewrite Hmk. reflexivity.
Qed.

Lemma batch_loop_returns (fuel : nat) (files : list Path) :
  0 < qstep ->
  (forall l, exists l', os_mkdir failed_dir l = Ok l') ->
  (enough_fuel cfg <= fuel)%nat ->
  forall acc st,
    exists results st', batch_loop cfg fuel files acc st = (Val results, st').
Proof.
  intros Hs Hmk Hfuel. induction files as [|p rest IH]; intros acc st.
  - exists acc, st. reflexivity.
  - cbn [batch_loop]. unfold bind.
    destruct (process_file_returns fuel p st Hs Hmk Hfuel) as (r & st1 & ->).
    apply IH.
Qed.

(** C4: for every processed image the orchestrator increments the total
    and exactly one of the counters successful, no_face, poor_quality
    and failed; a batch keeps the total equal to the sum of those four
    counters, as it is in the statistics made by the constructor, and a
    batch that returns has counted every file once. *)
Theorem batch_counters_partition :
  (forall r s, one_counter_incremented s (update_statistics cfg r s)) /\
  (forall fuel file_path st r st',
      process_file cfg fuel file_path st = (Val r, st') ->
      stats st' = update_statistics cfg r (stats st)) /\
  (forall fuel files st,
      stats_balanced (stats st) ->
      stats_balanced (stats (snd (process_batch cfg fuel files st))) /\
      forall results st',
        process_batch cfg fuel files st = (Val results, st') ->
        map filename results = map name files /\
        total_files (stats st')
        = total_files (stats st) + Z.of_nat (List.length files)) /\
  stats_balanced init_stats.
Proof.
  split; [exact update_statistics_one_counter|].
  split; [intros fuel p st r st' Hrun;
          exact (proj1 (process_file_returned fuel p st r st' Hrun))|].
  split; [|reflexivity].
  intros fuel files st Hb. unfold process_batch.
  split; [now apply batch_loop_balance|]. intros results st' Hrun.
  destruct (batch_loop_results fuel files [] st results st' Hrun)
    as (rs & -> & Hnames & Htotal).
  split; assumption.
Qed.

(** The statistics after a batch of one file are those after the loop
    body on that file. *)
Lemma singleton_batch_stats (fuel : nat) (p : Path) (st : State) :
  stats (snd (process_batch cfg fuel [p] st))
  = stats (snd (process_file cfg fuel p st)).
Proof.
  unfold process_batch. cbn [batch_loop]. unfold bind, ret.
  destruct (process_file cfg fuel p st) as [[r|e|] st1]; reflexivity.
Qed.

(** C10: a failure produced before face selection, for an image that
    cannot be read, for an image in which no face is found and for any
    exception of the try block, is a result with face_detected = false
    and confidence 0.0, and the batch counts it under no_face and not
    under failed: after the loop body on that file, and after a batch of
    that file, the total and the no_face counter of the processor have
    grown by one and the counters failed, successful and poor_quality
    are as they were, whatever the log and the move of the file do
    afterwards. *)
Theorem early_failures_counted_as_no_face
    (fuel : nat) (image_path : Path) (st : State) :
  (cv2_imread image_path (fs st) = Ok None \/
   (exists img,
       cv2_imread image_path (fs st) = Ok (Some img) /\
       app_get img = Ok []) \/
   exists e st1,
     pipeline_body cfg fuel image_path (clock (ticks st)) (entered st)
       = (Raise e, st1)) ->
  exists r st',
    process_single_image cfg fuel image_path st = (Val r, st') /\
    success r = false /\
    face_detected r = false /\
    face_confidence r = 0%Q /\
    (forall s, counted_as_no_face s (update_statistics cfg r s)) /\
    counted_as_no_face (stats st)
      (stats (snd (process_file cfg fuel image_path st))) /\
    counted_as_no_face (stats st)
      (stats (snd (process_batch cfg fuel [image_path] st))).
Proof.
  intros Hearly.
  assert (Hrun : exists r st',
             process_single_image cfg fuel image_path st = (Val r, st') /\
             success r = false /\ face_detected r = false /\
             face_confidence r = 0%Q).
  { rewrite process_single_image_unfold.
    destruct Hearly as [Hread | [(img & Hread & Hget) | (e & st1 & Hbody)]].
    2: { assert (Hbody : exists orig,
           pipeline_body cfg fuel image_path (clock (ticks st)) (entered st) =
           (Val (failure (name image_path) false 0 orig
                   "No face detected" 0), entered st)).
         { unfold pipeline_body, bind, call_fs, call, ret.
           change (fs (entered st)) with (fs st).
           rewrite Hread. cbv beta iota.
           destruct (shape img) as [[s0 s1] c]. rewrite Hget.
           eexists. reflexivity. }
         destruct Hbody as [orig ->]. eexists. eexists. repeat split. }
    - assert (Hbody :
        pipeline_body cfg fuel image_path (clock (ticks st)) (entered st) =
        (Val (failure (name image_path) false 0 (0, 0)
                "Failed to read image" 0), entered st)).
      { unfold pipeline_body, bind, call_fs. simpl fs. rewrite Hread.
        reflexivity. }
      rewrite Hbody. eexists. eexists. repeat split.
    - rewrite Hbody. eexists. eexists. repeat split. }
  destruct Hrun as (r & st' & Hrun & Hko & Hface & Hconf).
  exists r, st'. repeat (split; [assumption|]).
  assert (Hcount : forall s, counted_as_no_face s (update_statistics cfg r s)).
  { intros s. unfold counted_as_no_face, update_statistics, classify.
    rewrite Hko, Hface. repeat split. }
  split; [exact Hcount|].
  pose proof (process_file_stats fuel image_path st) as Hstats.
  rewrite Hrun in Hstats.
  rewrite singleton_batch_stats, Hstats. split; apply Hcount.
Qed.

(** C8, amended: provided the quarantine directory can be made where the
    loop body makes it (line 327, outside the try block): when the
    pipeline returned a success, the loop body only logs it and the file
    system is left as the pipeline left it; when it returned a failure,
    the loop body makes the quarantine directory and renames the source
    file to its own name inside that directory; if the rename raises,
    the error is logged and the loop body still returns, so that the
    batch goes on with the next file: with a descending ladder a batch
    returns one result per file whatever the renames do. *)
Theorem failures_are_quarantined :
  (forall fuel file_path st r st1,
      process_single_image cfg fuel file_path st = (Val r, st1) ->
      (success r = true ->
       process_file cfg fuel file_path st =
         (Val r, logged (counted cfg r st1) (fs st1) [InfoProcessed r])) /\
      (success r = false ->
       forall fs2,
         os_mkdir failed_dir (fs st1) = Ok fs2 ->
         process_file cfg fuel file_path st =
           match os_rename file_path
                   (mkPath failed_dir (name file_path)) fs2 with
           | Ok fs3 =>
               (Val r,
                logged (counted cfg r st1) fs3
                  [WarningFailed (name file_path) (error_message r)])
           | Err msg =>
               (Val r,
                logged (counted cfg r st1) fs2
                  [WarningFailed (name file_path) (error_message r);
                   ErrorMoveFailed (name file_path) (ExternalError msg)])
           end)) /\
  (forall fuel file_path rest results st r st',
      process_file cfg fuel file_path st = (Val r, st') ->
      batch_loop cfg fuel (file_path :: rest) results st
      = batch_loop cfg fuel rest (results ++ [r]) st') /\
  (0 < qstep ->
   (forall l, exists l', os_mkdir failed_dir l = Ok l') ->
   forall fuel files st,
     (enough_fuel cfg <= fuel)%nat ->
     exists results st',
       process_batch cfg fuel files st = (Val results, st') /\
       map filename results = map name files).
Proof.
  split; [|split].
  - intros fuel p st r st1 Hrun.
    pose proof (process_single_image_filename cfg fuel p st r st1 Hrun)
      as Hname.
    split.
    + intros Hok. rewrite process_file_unfold, Hrun.
      unfold log_and_quarantine. rewrite Hok. reflexivity.
    + intros Hko fs2 Hmk. rewrite process_file_unfold, Hrun.
      unfold log_and_quarantine. rewrite Hko, Hname.
      unfold bind, logger, syscall, try_except. simpl fs. rewrite Hmk.
      simpl fs. destruct (os_rename p _ fs2); unfold logged; simpl;
        rewrite <- ?app_assoc; reflexivity.
  - intros fuel p rest results st r st' Hrun.
    cbn [batch_loop]. unfold bind. rewrite Hrun. reflexivity.
  - intros Hs Hmk fuel files st Hfuel. unfold process_batch.
    destruct (batch_loop_returns fuel files Hs Hmk Hfuel [] st)
      as (results & st' & Hrun).
    exists results, st'. split; [exact Hrun|].
    destruct (batch_loop_results fuel files [] st results st' Hrun)
      as (rs & -> & Hnames & _).
    exact Hnames.
Qed.

End BatchFacts.

(** The batch on the reference platform: a portrait, a file whose
    detection raises, a picture without a face and a missing file. *)

Lemma batch_counters_partition_witness :
  stats_balanced
    (stats (snd (@process_batch Ref.platform Ref.cfg 60
                   [Ref.photo "ann.jpg"; Ref.photo "bob.jpg";
                    Ref.photo "cat.jpg"; Ref.photo "dan.jpg"] Ref.st0))) /\
  stats (snd (@process_batch Ref.platform Ref.cfg 60
                [Ref.photo "ann.jpg"; Ref.photo "bob.jpg";
                 Ref.photo "cat.jpg"; Ref.photo "dan.jpg"] Ref.st0))
  = {| total_files := 4; successful := 1; failed := 0; no_face := 3;
       poor_quality := 0 |}.
Proof.
  destruct (@batch_counters_partition Ref.platform Ref.cfg)
    as (_ & _ & Hbatch & Hinit).
  destruct (Hbatch 60%nat
              [Ref.photo "ann.jpg"; Ref.photo "bob.jpg";
               Ref.photo "cat.jpg"; Ref.photo "dan.jpg"] Ref.st0 Hinit)
    as [Hbalanced _].
  split; [exact Hbalanced | vm_compute; reflexivity].
Defined.

(** C8 as stated fails: where the quarantine directory cannot be made,
    the file whose detection raised is a failure of the pipeline and is
    not moved: it stays in the input directory, nothing reaches the
    quarantine directory, and the exception of mkdir ends the batch
    before the next file is processed. *)
Lemma failed_file_not_quarantined_without_directory :
  (exists r st1,
      @process_single_image Ref.no_mkdir_platform Ref.cfg 60
        (Ref.photo "bob.jpg") Ref.no_mkdir_st0 = (Val r, st1) /\
      success r = false) /\
  fst (@process_batch Ref.no_mkdir_platform Ref.cfg 60
         [Ref.photo "bob.jpg"; Ref.photo "ann.jpg"] Ref.no_mkdir_st0)
  = Raise (ExternalError "Permission denied") /\
  Ref.lookup (Ref.photo "bob.jpg")
    (fs (snd (@process_batch Ref.no_mkdir_platform Ref.cfg 60
                [Ref.photo "bob.jpg"; Ref.photo "ann.jpg"]
                Ref.no_mkdir_st0))) = Some [Byte.x01] /\
  Ref.lookup (mkPath "failed" "bob.jpg")
    (fs (snd (@process_batch Ref.no_mkdir_platform Ref.cfg 60
                [Ref.photo "bob.jpg"; Ref.photo "ann.jpg"]
                Ref.no_mkdir_st0))) = None /\
  total_files
    (stats (snd (@process_batch Ref.no_mkdir_platform Ref.cfg 60
                   [Ref.photo "bob.jpg"; Ref.photo "ann.jpg"]
                   Ref.no_mkdir_st0))) = 1 /\
  ~ (exists results st',
        @process_batch Ref.no_mkdir_platform Ref.cfg 60
          [Ref.photo "bob.jpg"; Ref.photo "ann.jpg"] Ref.no_mkdir_st0
        = (Val results, st')).
Proof.
  split.
  { eexists. eexists. split; [vm_compute; reflexivity | reflexivity]. }
  assert (Hrun : fst (@process_batch Ref.no_mkdir_platform Ref.cfg 60
                        [Ref.photo "bob.jpg"; Ref.photo "ann.jpg"]
                        Ref.no_mkdir_st0)
                 = Raise (ExternalError "Permission denied"))
    by (vm_compute; reflexivity).
  split; [exact Hrun|].
  split; [vm_compute; reflexivity|].
  split; [vm_compute; reflexivity|].
  split; [vm_compute; reflexivity|].
  intros (results & st' & Hval). rewrite Hval in Hrun. discriminate.
Qed.

Lemma early_failures_counted_as_no_face_witness :
  exists r st',
    @process_single_image Ref.platform Ref.cfg 60 (Ref.photo "dan.jpg")
      Ref.st0 = (Val r, st') /\
    face_detected r = false /\
    no_face (stats (snd (@process_file Ref.platform Ref.cfg 60
                           (Ref.photo "dan.jpg") Ref.st0))) = 1 /\
    failed (stats (snd (@process_file Ref.platform Ref.cfg 60
                          (Ref.photo "dan.jpg") Ref.st0))) = 0.
Proof.
  destruct (@early_failures_counted_as_no_face Ref.platform Ref.cfg 60
              (Ref.photo "dan.jpg") Ref.st0 (or_introl eq_refl))
    as (r & st' & Hrun & _ & Hdet & _ & _ & Hfile & _).
  exists r, st'. destruct Hfile as (_ & Hn & Hf & _).
  repeat split; assumption.
Defined.

Lemma failures_are_quarantined_witness :
  Ref.lookup (mkPath "failed" "bob.jpg")
    (fs (snd (@process_file Ref.platform Ref.cfg 60 (Ref.photo "bob.jpg")
                Ref.st0))) = Some [Byte.x01] /\
  Ref.lookup (Ref.photo "bob.jpg")
    (fs (snd (@process_file Ref.platform Ref.cfg 60 (Ref.photo "bob.jpg")
                Ref.st0))) = None /\
  exists results st',
    @process_batch Ref.platform Ref.cfg 60
      [Ref.photo "dan.jpg"; Ref.photo "ann.jpg"] Ref.st0
    = (Val results, st') /\
    map filename results = ["dan.jpg"; "ann.jpg"]%string.
Proof.
  destruct (@failures_are_quarantined Ref.platform Ref.cfg)
    as (Hfile & _ & Hbatch).
  pose (run := @process_single_image Ref.platform Ref.cfg 60
                 (Ref.photo "bob.jpg") Ref.st0).
  assert (Hrun : run =
                 (Val match fst run with
                      | Val r => r
                      | _ => failure "" false 0 (0, 0) "" 0
                      end, snd run)) by (vm_compute; reflexivity).
  destruct (Hfile 60%nat (Ref.photo "bob.jpg") Ref.st0 _ _ Hrun)
    as [_ Hfailed].
  specialize (Hfailed eq_refl _ eq_refl).
  split; [rewrite Hfailed; vm_compute; reflexivity|].
  split; [rewrite Hfailed; vm_compute; reflexivity|].
  apply (Hbatch eq_refl).
  - intros l. exists l. reflexivity.
  - unfold enough_fuel. simpl. lia.
Defined.

(** ** Input enumeration *)

Module PathOrder.

Lemma ltb_lt (a b : string) : String.ltb a b = true <-> String_as_OT.lt a b.
Proof.
  unfold String.ltb. rewrite <- String_as_OT.cmp_lt. unfold String_as_OT.cmp.
  destruct (String.compare a b); intuition congruence.
Qed.

Lemma trichotomy (a b : string) :
  String_as_OT.lt a b \/ a = b \/ String_as_OT.lt b a.
Proof. destruct (String_as_OT.compare a b); auto. Qed.

Lemma lt_irrefl (a : string) : ~ String_as_OT.lt a a.
Proof. intros Hlt. now apply (String_as_OT.lt_not_eq _ _ Hlt). Qed.

(** The order of paths as a proposition. *)
Lemma path_ltb_spec (p q : Path) :
  path_ltb p q = true <->
  String_as_OT.lt (parent p) (parent q) \/
  (parent p = parent q /\ String_as_OT.lt (name p) (name q)).
Proof.
  unfold path_ltb. destruct (String.eqb_spec (parent p) (parent q)) as [E|E];
    rewrite ltb_lt.
  - split; [tauto|]. intros [Hlt|[_ Hlt]]; [|exact Hlt].
    rewrite E in Hlt. now apply lt_irrefl in Hlt.
  - tauto.
Qed.

Lemma path_ltb_trans (p q r : Path) :
  path_ltb p q = true -> path_ltb q r = true -> path_ltb p r = true.
Proof.
  rewrite !path_ltb_spec.
  intros [H1|[E1 H1]] [H2|[E2 H2]].
  - left. eapply String_as_OT.lt_trans; eassumption.
  - left. now rewrite <- E2.
  - left. now rewrite E1.
  - right. split; [congruence|]. eapply String_as_OT.lt_trans; eassumption.
Qed.

Lemma path_ltb_irrefl (p : Path) : path_ltb p p = false.
Proof.
  apply not_true_iff_false. rewrite path_ltb_spec.
  intros [Hlt|[_ Hlt]]; now apply lt_irrefl in Hlt.
Qed.

Lemma path_trichotomy (p q : Path) :
  path_ltb p q = true \/ p = q \/ path_ltb q p = true.
Proof.
  rewrite !path_ltb_spec. destruct p as [d n], q as [d' n']; simpl.
  destruct (trichotomy d d') as [Hd|[->|Hd]]; [tauto| |tauto].
  destruct (trichotomy n n') as [Hn|[->|Hn]]; tauto.
Qed.

Lemma path_le_spec (p q : Path) :
  path_le p q <-> path_ltb p q = true \/ p = q.
Proof.
  unfold path_le. split.
  - intros Hno. destruct (path_trichotomy p q) as [Hlt|[->|Hgt]]; auto.
    congruence.
  - intros [Hlt| ->]; [|apply path_ltb_irrefl].
    apply not_true_iff_false. intros Hgt.
    pose proof (path_ltb_trans _ _ _ Hlt Hgt) as Hpp.
    rewrite path_ltb_irrefl in Hpp. discriminate.
Qed.

Lemma path_le_trans (p q r : Path) : path_le p q -> path_le q r -> path_le p r.
Proof.
  rewrite !path_le_spec. intros [H1| ->] [H2| ->]; auto.
  left. eapply path_ltb_trans; eassumption.
Qed.

Lemma insert_sorted_order (x : Path) (l : list Path) :
  in_path_order l -> in_path_order (insert_sorted x l).
Proof.
  unfold in_path_order. induction 1 as [|y l Hs IH Hall]; simpl.
  - constructor; constructor.
  - destruct (path_ltb x y) eqn:E.
    + constructor; [constructor; assumption|].
      assert (Hxy : path_le x y) by (apply path_le_spec; now left).
      constructor; [exact Hxy|].
      eapply Forall_impl; [|exact Hall]. intros z Hz.
      eapply path_le_trans; eassumption.
    + constructor; [exact IH|].
      apply Forall_forall. intros z Hz.
      assert (Hz' : z = x \/ In z l).
      { clear - Hz. induction l as [|w l IHl]; simpl in Hz.
        - destruct Hz as [<-|[]]. now left.
        - destruct (path_ltb x w); simpl in Hz.
          + destruct Hz as [<-|Hz]; [now left | now right].
          + destruct Hz as [<-|Hz]; [right; now left|].
            destruct (IHl Hz) as [->|Hin]; [now left | right; now right]. }
      destruct Hz' as [->|Hin]; [exact E|].
      rewrite Forall_forall in Hall. now apply Hall.
Qed.

Lemma sorted_order (l : list Path) : in_path_order (sorted l).
Proof.
  unfold sorted.
  assert (Hgen : forall acc,
             in_path_order acc ->
             in_path_order (fold_left (fun acc x => insert_sorted x acc) l acc)).
  { induction l as [|x l IH]; intros acc Hacc; simpl; [exact Hacc|].
    apply IH. now apply insert_sorted_order. }
  apply Hgen. constructor.
Qed.

End PathOrder.

Section EnumerationFacts.
Context `{Platform}.
Variable cfg : Config.

Lemma In_insert_sorted (x y : Path) (l : list Path) :
  In y (insert_sorted x l) <-> y = x \/ In y l.
Proof.
  induction l as [|z l IH]; simpl.
  - intuition congruence.
  - destruct (path_ltb x z); simpl; rewrite ?IH; intuition congruence.
Qed.

Lemma In_sorted (y : Path) (l : list Path) : In y (sorted l) <-> In y l.
Proof.
  unfold sorted.
  assert (Hgen : forall acc,
             In y (fold_left (fun acc x => insert_sorted x acc) l acc)
             <-> In y acc \/ In y l).
  { induction l as [|x l IH]; intros acc; simpl.
    - tauto.
    - rewrite IH, In_insert_sorted. intuition congruence. }
  rewrite Hgen. simpl. tauto.
Qed.

(** What the enumeration selects: the listed names that end with a
    configured extension as it is written or in upper case. *)
Lemma get_input_files_selects (files : FS) (p : Path) :
  In p (get_input_files cfg files) <->
  parent p = processing_renamed (directories cfg) /\
  In (name p) (os_listdir (processing_renamed (directories cfg)) files) /\
  exists ext,
    In ext (supported_formats (face_processing cfg)) /\
    (endswith (name p) ext = true \/ endswith (name p) (upper ext) = true).
Proof.
  unfold get_input_files. rewrite In_sorted, in_flat_map.
  assert (Hglob : forall ext,
             In p (glob_suffix (processing_renamed (directories cfg)) ext files)
             <-> parent p = processing_renamed (directories cfg) /\
                 In (name p)
                    (os_listdir (processing_renamed (directories cfg)) files) /\
                 endswith (name p) ext = true).
  { intros ext. unfold glob_suffix. rewrite in_map_iff. split.
    - intros (n & <- & Hn). apply filter_In in Hn. simpl. tauto.
    - intros (Hp & Hn & He). exists (name p). split.
      + destruct p as [d n]. simpl in *. now subst.
      + apply filter_In. tauto. }
  split.
  - intros (ext & Hext & Hin). apply in_app_or in Hin.
    destruct Hin as [Hin|Hin]; apply Hglob in Hin;
      destruct Hin as (Hp & Hn & He); repeat split; auto;
      exists ext; tauto.
  - intros (Hp & Hn & ext & Hext & He). exists ext. split; [exact Hext|].
    apply in_or_app. destruct He as [He|He]; [left|right]; now apply Hglob.
Qed.

(** The enumeration is in the order of the paths. *)
Lemma get_input_files_in_order (files : FS) :
  in_path_order (get_input_files cfg files).
Proof. unfold get_input_files. apply PathOrder.sorted_order. Qed.

End EnumerationFacts.

(** C6 on the code: in a directory holding a.jpg, b.Jpg and c.JPG, with
    ".jpg" among the configured extensions, the enumeration returns
    a.jpg and c.JPG in this order; b.Jpg is left out although its
    extension is the configured one up to case. *)
Theorem mixed_case_extension_not_enumerated :
  @get_input_files Ref.platform Ref.cfg Ref.mixed_disk
  = [Ref.photo "a.jpg"; Ref.photo "c.JPG"] /\
  In ".jpg"%string (supported_formats (face_processing Ref.cfg)) /\
  In "b.Jpg"%string (Ref.listdir "renamed" Ref.mixed_disk) /\
  endswith (upper "b.Jpg") (upper ".jpg") = true /\
  ~ In (Ref.photo "b.Jpg")
       (@get_input_files Ref.platform Ref.cfg Ref.mixed_disk).
Proof.
  split; [vm_compute; reflexivity|].
  split; [now left|].
  split; [right; now left|].
  split; [vm_compute; reflexivity|].
  vm_compute. intros [Ha|[Hc|[]]]; discriminate.
Qed.

(** * Further properties *)

(** ** CropGeometry: extent of the crop *)

Module CropGeometryMore.
Import CropGeometry CropParts.

Lemma crop_region_parts (cfg : Config) (face : Face) (height width channels : N) :
  calculate_crop_region cfg face (height, width, channels) =
  (clamp (centre_x face - pad_w cfg face) 0 (Z.of_N width),
   clamp (centre_y face - pad_h cfg face) 0 (Z.of_N height),
   clamp (centre_x face + pad_w cfg face) 0 (Z.of_N width),
   clamp (centre_y face + pad_h cfg face) 0 (Z.of_N height)).
Proof. reflexivity. Qed.

Lemma py_int_inject (z : Z) : py_int (inject_Z z) = z.
Proof. unfold py_int. simpl. apply Z.quot_1_r. Qed.

(** The crop is never larger than the image, and never wider (taller)
    than twice the horizontal (vertical) padding; this holds for every
    face box, every padding factor and every image. *)
Theorem crop_region_extent (cfg : Config) (face : Face)
    (height width channels : N) :
  let '(x1, y1, x2, y2) :=
    calculate_crop_region cfg face (height, width, channels) in
  x2 - x1 <= Z.max 0 (2 * pad_w cfg face) /\
  x2 - x1 <= Z.of_N width /\
  y2 - y1 <= Z.max 0 (2 * pad_h cfg face) /\
  y2 - y1 <= Z.of_N height.
Proof.
  rewrite crop_region_parts. unfold clamp.
  pose proof (N2Z.is_nonneg width). pose proof (N2Z.is_nonneg height). lia.
Qed.

(** With a padding factor equal to zero the crop has no area, whatever
    the face and the image: the two edges of that direction coincide. *)
Theorem crop_region_zero_padding (cfg : Config) (face : Face)
    (height width channels : N) :
  (padding_width_factor (face_processing cfg) == 0)%Q \/
  (padding_height_factor (face_processing cfg) == 0)%Q ->
  let '(x1, y1, x2, y2) :=
    calculate_crop_region cfg face (height, width, channels) in
  (x1 = x2 \/ y1 = y2) /\ (x2 - x1) * (y2 - y1) = 0.
Proof.
  intros Hzero. rewrite crop_region_parts.
  assert (Hpad : pad_w cfg face = 0 \/ pad_h cfg face = 0).
  { destruct Hzero as [Hz|Hz]; [left; unfold pad_w | right; unfold pad_h];
      match goal with
      | |- py_int ?q = 0 =>
          assert (Hq : (q == 0)%Q) by (rewrite Hz; ring);
          destruct q as [n d]; unfold Qeq in Hq; simpl in Hq;
          unfold py_int; simpl;
          replace n with 0 by lia; apply Z.quot_0_l; lia
      end. }
  destruct Hpad as [-> | ->]; rewrite ?Z.add_0_r, ?Z.sub_0_r; split;
    auto; lia.
Qed.

Lemma crop_region_zero_padding_witness :
  let '(x1, y1, x2, y2) :=
    calculate_crop_region (Ref.cfg_padding 0 (2 # 1)) Ref.a_face
      (100, 100, 3)%N in
  (x1 = x2 \/ y1 = y2) /\ (x2 - x1) * (y2 - y1) = 0.
Proof.
  apply (crop_region_zero_padding (Ref.cfg_padding 0 (2 # 1)) Ref.a_face
           100 100 3).
  left. reflexivity.
Defined.

(** When both paddings are at least one pixel and the centre of the face
    box lies in the image, the crop has a positive width and height. *)
Theorem crop_region_not_empty (cfg : Config) (face : Face)
    (height width channels : N) :
  1 <= pad_w cfg face ->
  1 <= pad_h cfg face ->
  0 <= centre_x face <= Z.of_N width ->
  0 <= centre_y face <= Z.of_N height ->
  1 <= Z.of_N width ->
  1 <= Z.of_N height ->
  let '(x1, y1, x2, y2) :=
    calculate_crop_region cfg face (height, width, channels) in
  x1 < x2 /\ y1 < y2.
Proof.
  intros Hw Hh Hx Hy HW HH. rewrite crop_region_parts. unfold clamp. lia.
Qed.

Lemma crop_region_not_empty_witness :
  let '(x1, y1, x2, y2) :=
    calculate_crop_region Ref.cfg Ref.a_face (100, 100, 3)%N in
  x1 < x2 /\ y1 < y2.
Proof.
  apply (crop_region_not_empty Ref.cfg Ref.a_face 100 100 3);
    vm_compute; try split; congruence.
Defined.

(** With padding factors of at least one, the crop covers the detected
    face box as far as the box lies in the image. *)
Theorem crop_region_covers_face (cfg : Config) (face : Face)
    (height width channels : N) :
  (1 <= padding_width_factor (face_processing cfg))%Q ->
  (1 <= padding_height_factor (face_processing cfg))%Q ->
  (bbox_x1 face < bbox_x2 face)%Q ->
  (bbox_y1 face < bbox_y2 face)%Q ->
  let '(x1, y1, x2, y2) :=
    calculate_crop_region cfg face (height, width, channels) in
  x1 <= clamp (py_int (bbox_x1 face)) 0 (Z.of_N width) /\
  clamp (py_int (bbox_x2 face)) 0 (Z.of_N width) <= x2 /\
  y1 <= clamp (py_int (bbox_y1 face)) 0 (Z.of_N height) /\
  clamp (py_int (bbox_y2 face)) 0 (Z.of_N height) <= y2.
Proof.
  intros Hpw Hph Hx Hy. rewrite crop_region_parts.
  assert (Hpad : forall a b f,
             (a < b)%Q -> (1 <= f)%Q ->
             py_int a <= py_int b /\
             py_int b - py_int a
             <= py_int (inject_Z (py_int b - py_int a) * f)%Q).
  { intros a b f Hab Hf.
    assert (Hle : 0 <= py_int b - py_int a).
    { pose proof (CropGeometryFacts.py_int_mono a b (Qlt_le_weak _ _ Hab)).
      lia. }
    split; [lia|].
    generalize dependent (py_int b - py_int a). intros z Hz.
    destruct f as [n d]. unfold Qle in Hf. simpl in Hf.
    unfold py_int. simpl.
    rewrite <- (Z.quot_mul z (Z.pos d)) at 1 by lia.
    apply Z.quot_le_mono; nia. }
  destruct (Hpad _ _ _ Hx Hpw) as [Hx1 Hx2].
  destruct (Hpad _ _ _ Hy Hph) as [Hy1 Hy2].
  unfold centre_x, centre_y, pad_w, pad_h.
  set (pw := py_int (inject_Z _ * padding_width_factor _)%Q) in *.
  set (ph := py_int (inject_Z _ * padding_height_factor _)%Q) in *.
  set (X1 := py_int (bbox_x1 face)) in *. set (X2 := py_int (bbox_x2 face)) in *.
  set (Y1 := py_int (bbox_y1 face)) in *. set (Y2 := py_int (bbox_y2 face)) in *.
  assert (X1 <= (X1 + X2) / 2 <= X2)
    by (split; [apply Z.div_le_lower_bound | apply Z.div_le_upper_bound]; lia).
  assert (Y1 <= (Y1 + Y2) / 2 <= Y2)
    by (split; [apply Z.div_le_lower_bound | apply Z.div_le_upper_bound]; lia).
  repeat split; apply CropGeometryFacts.clamp_mono; lia.
Qed.

Lemma crop_region_covers_face_witness :
  let '(x1, y1, x2, y2) :=
    calculate_crop_region Ref.cfg Ref.a_face (100, 100, 3)%N in
  x1 <= 30 /\ 70 <= x2 /\ y1 <= 20 /\ 60 <= y2.
Proof.
  apply (crop_region_covers_face Ref.cfg Ref.a_face 100 100 3);
    vm_compute; congruence.
Defined.

End CropGeometryMore.

(** ** FaceSelector: what the selection returns *)

Module FaceSelectorMore.
Import FaceSelector.

(** The selection fails exactly on an empty list; otherwise it returns
    the first candidate whose corner product x2*y2, as the float32 value
    the code compares, is maximal: every candidate before it has a
    strictly smaller product, no candidate after it a greater one. *)
Theorem select_face_first_of_maximal_key (faces : list Face) :
  (select_face faces = None <-> faces = []) /\
  forall f,
    select_face faces = Some f ->
    exists before after,
      faces = before ++ f :: after /\
      (forall g, In g before -> (rank_key g < rank_key f)%Q) /\
      (forall g, In g after -> (rank_key g <= rank_key f)%Q).
Proof.
  split.
  - destruct faces; simpl; split; intros; congruence.
  - intros f. destruct faces as [|f0 rest]; [discriminate|].
    unfold select_face, py_max. intros [= <-].
    apply FaceSelectorFacts.max_from_first.
Qed.

(** A tie made by the rounding: 4097 * 4097 is not a float32 value and
    is rounded to 4096 * 4098, so the first of the two candidates is
    kept. *)
Lemma select_face_rounding_tie :
  let f := {| bbox := (0, 0, 4096 # 1, 4098 # 1)%Q; det_score := None |} in
  let g := {| bbox := (0, 0, 4097 # 1, 4097 # 1)%Q; det_score := None |} in
  (rank_key f == rank_key g)%Q /\
  (bbox_x2 f * bbox_y2 f < bbox_x2 g * bbox_y2 g)%Q /\
  select_face [f; g] = Some f /\ select_face [g; f] = Some g.
Proof. vm_compute. repeat split; discriminate. Qed.

End FaceSelectorMore.

(** ** QualityOptimizedEncoder: what a returned pair says *)

Section EncoderMore.
Context `{Platform}.
Variable cfg : Config.

Local Abbreviation qstart := (jpeg_quality_start (face_processing cfg)).
Local Abbreviation qmin := (jpeg_quality_min (face_processing cfg)).
Local Abbreviation qstep := (jpeg_quality_step (face_processing cfg)).
Local Abbreviation budget := (max_file_size_kb (face_processing cfg) * 1024).

(** A pair returned from inside the loop: its quality is at least
    quality_min, lies on the side of the starting quality the step
    points to, and its encode succeeded within the budget and was
    written. *)
Lemma quality_loop_returned (img : image) (p : Path) :
  forall fuel q st q' kb st',
    quality_loop cfg fuel img p q st = (Val (Some (q', kb)), st') ->
    qmin <= q' /\
    (0 <= qstep -> q' <= q) /\
    (qstep <= 0 -> q <= q') /\
    exists enc,
      cv2_imencode img q' = (true, enc) /\ len enc <= budget /\
      kb = size_kb enc /\ os_write p enc (fs st) = Ok (fs st') /\
      st' = set_fs st (fs st').
Proof.
  induction fuel as [|fuel IH]; intros q st q' kb st'; simpl; [discriminate|].
  destruct (q >=? qmin) eqn:Hge; [|discriminate].
  apply Z.geb_le in Hge.
  destruct (cv2_imencode img q) as [ok enc] eqn:Henc.
  destruct (ok && (len enc <=? budget))%bool eqn:Hfit.
  - apply andb_true_iff in Hfit. destruct Hfit as [-> Hle].
    apply Z.leb_le in Hle.
    unfold bind, write_file, ret.
    destruct (os_write p enc (fs st)) as [l|msg] eqn:Hw; [|discriminate].
    intros [= <- <- <-]. repeat split; try lia.
    exists enc. repeat split; auto.
  - intros Hrun. destruct (IH _ _ _ _ _ Hrun) as (H1 & H2 & H3 & H4).
    repeat split; auto; lia.
Qed.

(** When the loop is left without a pair, no write was attempted and the
    state is as it was. *)
Lemma quality_loop_exit_state (img : image) (p : Path) :
  forall fuel q st st',
    quality_loop cfg fuel img p q st = (Val None, st') -> st' = st.
Proof.
  induction fuel as [|fuel IH]; intros q st st'; simpl; [discriminate|].
  destruct (q >=? qmin); [|now intros [= <-]].
  destruct (cv2_imencode img q) as [ok enc].
  destruct (ok && (len enc <=? budget))%bool; [|apply IH].
  unfold bind, write_file, ret.
  destruct (os_write p enc (fs st)); discriminate.
Qed.

(** What a returned pair of the encoder is: either a pair of the loop,
    or the forced encode at quality_min. *)
Lemma save_returned (fuel : nat) (img : image) (p : Path) (st st' : State)
    (q : Z) (kb : Q) :
  save_with_quality_optimization cfg fuel img p st = (Val (q, kb), st') ->
  exists enc,
    cv2_imencode img q = (true, enc) /\ kb = size_kb enc /\
    os_write p enc (fs st) = Ok (fs st') /\ st' = set_fs st (fs st') /\
    qmin <= q /\
    ((qstart <= q \/ 0 <= qstep /\ q <= qstart) /\ len enc <= budget \/
     q = qmin).
Proof.
  unfold save_with_quality_optimization, bind.
  destruct (quality_loop cfg fuel img p qstart st) as [[[[q' kb']|]|e|] st1]
    eqn:Hloop; try discriminate.
  - intros [= <- <- <-].
    destruct (quality_loop_returned img p _ _ _ _ _ _ Hloop)
      as (Hmin & Hdown & Hup & enc & He & Hle & Hkb & Hw & Hst).
    exists enc. repeat split; auto. left. split; [|exact Hle].
    destruct (Z_le_gt_dec 0 qstep); [right; auto | left; apply Hup; lia].
  - apply quality_loop_exit_state in Hloop. subst st1.
    destruct (cv2_imencode img qmin) as [[] enc] eqn:He; [|discriminate].
    unfold write_file, ret.
    destruct (os_write p enc (fs st)) as [l|msg] eqn:Hw; [|discriminate].
    intros [= <- <- <-]. exists enc. repeat split; auto; try lia.
Qed.

(** Whatever the configuration, a quality returned by the encoder is
    never below quality_min; with a step that is not negative it is at
    most the greater of quality_start and quality_min. *)
Theorem returned_quality_bounds (fuel : nat) (img : image) (p : Path)
    (st st' : State) (q : Z) (kb : Q) :
  save_with_quality_optimization cfg fuel img p st = (Val (q, kb), st') ->
  qmin <= q /\ (0 <= qstep -> q <= Z.max qstart qmin).
Proof.
  intros Hrun.
  destruct (save_returned _ _ _ _ _ _ _ Hrun)
    as (enc & _ & _ & _ & _ & Hmin & [[[Hup|[_ Hdown]] _]| ->]).
  - split; [exact Hmin|]. intros Hs.
    unfold save_with_quality_optimization, bind in Hrun.
    destruct (quality_loop cfg fuel img p qstart st) as [[[[q' kb']|]|e|] st1]
      eqn:Hloop; try discriminate.
    + injection Hrun as <- <- <-.
      destruct (quality_loop_returned img p _ _ _ _ _ _ Hloop)
        as (_ & Hdown & _). specialize (Hdown Hs). lia.
    + destruct (cv2_imencode img qmin) as [[] enc'];
        [|discriminate].
      unfold write_file, ret in Hrun.
      destruct (os_write p enc' (fs st1)); [|discriminate].
      injection Hrun as <- _ _. lia.
  - split; [exact Hmin | lia].
  - split; lia.
Qed.

(** Whatever the configuration, a returned size exceeds the budget only
    for the forced encode: a pair returned at another quality than
    quality_min is within max_file_size_kb. *)
Theorem over_budget_only_at_minimum_quality (fuel : nat) (img : image)
    (p : Path) (st st' : State) (q : Z) (kb : Q) :
  save_with_quality_optimization cfg fuel img p st = (Val (q, kb), st') ->
  q <> qmin ->
  (kb <= inject_Z (max_file_size_kb (face_processing cfg)))%Q.
Proof.
  intros Hrun Hq.
  destruct (save_returned _ _ _ _ _ _ _ Hrun)
    as (enc & _ & -> & _ & _ & _ & [[_ Hle]| ->]); [|congruence].
  unfold size_kb, Qle. simpl. lia.
Qed.

(** When the encode at quality_start is within the budget (and
    quality_start is not below quality_min), the encoder returns that
    quality after one encode, for every step, even one that does not
    descend. *)
Theorem first_encode_within_budget (fuel : nat) (img : image) (p : Path)
    (st : State) (fs' : FS) :
  qmin <= qstart ->
  within_budget cfg img qstart = true ->
  os_write p (snd (cv2_imencode img qstart)) (fs st) = Ok fs' ->
  save_with_quality_optimization cfg (S fuel) img p st =
    (Val (qstart, size_kb (snd (cv2_imencode img qstart))), set_fs st fs').
Proof.
  intros Hq Hfit Hw. unfold save_with_quality_optimization, bind. simpl.
  apply Z.geb_le in Hq. rewrite Hq. unfold within_budget in Hfit.
  destruct (cv2_imencode img qstart) as [ok enc]. rewrite Hfit.
  unfold bind, write_file, ret. simpl in Hw. rewrite Hw. reflexivity.
Qed.

(** An exception that leaves the loop is the error of a write that
    raised for an accepted encode, after the output file was touched. *)
Lemma quality_loop_raised (img : image) (p : Path) :
  forall fuel q st e st',
    quality_loop cfg fuel img p q st = (Raise e, st') ->
    exists q' enc msg,
      cv2_imencode img q' = (true, enc) /\
      os_write p enc (fs st) = Err msg /\
      e = ExternalError msg /\
      st' = set_fs st (os_write_failed p enc (fs st)).
Proof.
  induction fuel as [|fuel IH]; intros q st e st'; simpl; [discriminate|].
  destruct (q >=? qmin); [|discriminate].
  destruct (cv2_imencode img q) as [ok enc] eqn:Henc.
  destruct (ok && (len enc <=? budget))%bool eqn:Hfit; [|apply IH].
  apply andb_true_iff in Hfit. destruct Hfit as [-> _].
  unfold bind, write_file, ret.
  destruct (os_write p enc (fs st)) as [l|msg] eqn:Hw; [discriminate|].
  intros [= <- <-]. now exists q, enc, msg.
Qed.

(** An exception of the encoder is its own "Failed to encode image",
    raised with nothing written, or the error of a write that raised. *)
Lemma save_raised (fuel : nat) (img : image) (p : Path) (st st' : State)
    (e : exn) :
  save_with_quality_optimization cfg fuel img p st = (Raise e, st') ->
  (e = PyException "Failed to encode image" /\ st' = st) \/
  (exists q enc msg,
      cv2_imencode img q = (true, enc) /\
      os_write p enc (fs st) = Err msg /\
      e = ExternalError msg /\
      st' = set_fs st (os_write_failed p enc (fs st))).
Proof.
  unfold save_with_quality_optimization, bind.
  destruct (quality_loop cfg fuel img p qstart st) as [[[[q' kb']|]|e'|] st1]
    eqn:Hloop; try discriminate.
  - apply quality_loop_exit_state in Hloop. subst st1.
    destruct (cv2_imencode img qmin) as [[] enc] eqn:He.
    + unfold write_file, ret.
      destruct (os_write p enc (fs st)) as [l|msg] eqn:Hw; [discriminate|].
      intros [= <- <-]. right. now exists qmin, enc, msg.
    + intros [= <- <-]. now left.
  - intros [= <- <-]. right. now apply (quality_loop_raised img p fuel qstart).
Qed.

End EncoderMore.

Lemma returned_quality_bounds_witness :
  50 <= 85 /\ (0 <= 5 -> 85 <= Z.max 95 50).
Proof.
  assert (Hrun : @save_with_quality_optimization Ref.platform Ref.cfg 60
                   5%nat (mkPath "cropped" "ann.jpg") Ref.st0
                 = (Val (85, (1021 # 1024)%Q),
                    snd (@save_with_quality_optimization Ref.platform Ref.cfg
                           60 5%nat (mkPath "cropped" "ann.jpg") Ref.st0)))
    by (vm_compute; reflexivity).
  exact (@returned_quality_bounds Ref.platform Ref.cfg _ _ _ _ _ _ _ Hrun).
Defined.

Lemma over_budget_only_at_minimum_quality_witness :
  (1021 # 1024 <= inject_Z 1)%Q.
Proof.
  assert (Hrun : @save_with_quality_optimization Ref.platform Ref.cfg 60
                   5%nat (mkPath "cropped" "ann.jpg") Ref.st0
                 = (Val (85, (1021 # 1024)%Q),
                    snd (@save_with_quality_optimization Ref.platform Ref.cfg
                           60 5%nat (mkPath "cropped" "ann.jpg") Ref.st0)))
    by (vm_compute; reflexivity).
  apply (@over_budget_only_at_minimum_quality Ref.platform Ref.cfg _ _ _ _ _
           _ _ Hrun).
  discriminate.
Defined.

Lemma first_encode_within_budget_witness :
  fst (@save_with_quality_optimization Ref.platform
         (Ref.cfg_ladder 2 95 50 0) 1 5%nat (mkPath "cropped" "ann.jpg")
         Ref.st0) = Val (95, (1141 # 1024)%Q).
Proof.
  rewrite (@first_encode_within_budget Ref.platform
             (Ref.cfg_ladder 2 95 50 0) 0 5%nat (mkPath "cropped" "ann.jpg")
             Ref.st0 _ ltac:(simpl; lia) eq_refl eq_refl).
  reflexivity.
Defined.

(** ** ImagePipeline: the results it builds and what it changes *)

Section PipelineMore.
Context `{Platform}.
Variable cfg : Config.

Local Abbreviation qmin := (jpeg_quality_min (face_processing cfg)).

Lemma prepared_confident (p : Path) (files : FS) (sharpened : image)
    (confidence : Q) (orig : Z * Z) :
  prepared cfg p files sharpened confidence orig ->
  Qltb confidence (min_face_confidence (face_processing cfg)) = false.
Proof.
  intros (img & s0 & s1 & c & faces & face & x1 & y1 & x2 & y2 & i1 & i2 &
          _ & _ & _ & _ & _ & _ & Hc & _).
  exact Hc.
Qed.

(** The ways through the [try] block: an early failure or an exception
    of a library before the encoder, both with the state untouched, or
    the call of the encoder on the sharpened image. *)
Lemma pipeline_body_cases (fuel : nat) (p : Path) (t0 : Z) (st : State) :
  (exists r, EarlyFailure cfg p r /\
             pipeline_body cfg fuel p t0 st = (Val r, st)) \/
  (exists msg,
      pipeline_body cfg fuel p t0 st = (Raise (ExternalError msg), st)) \/
  (exists sharpened confidence orig,
      prepared cfg p (fs st) sharpened confidence orig /\
      pipeline_body cfg fuel p t0 st =
        match save_with_quality_optimization cfg fuel sharpened
                (output_path_of cfg p) st with
        | (Val (quality, kb), st1) =>
            (Val (success_result cfg p confidence orig quality kb
                    (total_seconds (clock (ticks st1)) t0)),
             entered st1)
        | (Raise e, st1) => (Raise e, st1)
        | (Diverge, st1) => (Diverge, st1)
        end).
Proof.
  unfold pipeline_body, bind, call_fs, call, ret, raise.
  destruct (cv2_imread p (fs st)) as [[img|]|msg] eqn:Hread; cbv beta iota.
  2: { left. eexists. split. 2: reflexivity. apply UnreadableImage. }
  2: { right. left. now exists msg. }
  destruct (shape img) as [[s0 s1] c] eqn:Hshape.
  destruct (app_get img) as [faces|msg] eqn:Hget; cbv beta iota.
  2: { right. left. now exists msg. }
  destruct (FaceSelector.select_face faces) as [face|] eqn:Hsel.
  2: { left. eexists. split. 2: reflexivity. apply NoFaceDetected. }
  destruct (Qltb (FaceSelector.confidence_of face) _) eqn:Hconf.
  { left. eexists. split. 2: reflexivity. now apply LowConfidence. }
  destruct (CropGeometry.calculate_crop_region cfg face (s0, s1, c))
    as [[[x1 y1] x2] y2] eqn:Hcrop.
  destruct (np_size (np_slice img y1 y2 x1 x2) =? 0)%N eqn:Hsize.
  { left. eexists. split. 2: reflexivity. now apply EmptyCropRegion. }
  destruct (cv2_resize (np_slice img y1 y2 x1 x2) _) as [i1|msg] eqn:Hr1;
    cbv beta iota.
  2: { right. left. now exists msg. }
  destruct (cv2_resize i1 _) as [i2|msg] eqn:Hr2; cbv beta iota.
  2: { right. left. now exists msg. }
  destruct (cv2_filter2D i2) as [i3|msg] eqn:Hf; cbv beta iota.
  2: { right. left. now exists msg. }
  right. right.
  exists i3, (FaceSelector.confidence_of face), (Z.of_N s1, Z.of_N s0).
  split.
  { exists img, s0, s1, c, faces, face, x1, y1, x2, y2, i1, i2.
    rewrite Hshape. repeat split; assumption. }
  unfold output_path_of.
  destruct (save_with_quality_optimization cfg fuel i3 _ st)
    as [[[q kb]|e|] st1]; reflexivity.
Qed.

(** The pipeline, by cases: what it returns and the state it leaves. *)
Lemma process_single_image_cases (fuel : nat) (p : Path) (st st' : State)
    (r : ProcessingResult) :
  process_single_image cfg fuel p st = (Val r, st') ->
  (EarlyFailure cfg p r /\ st' = entered st) \/
  (exists e,
      r = failure (name p) false 0 (0, 0) (str e)
            (total_seconds (clock (S (ticks st))) (clock (ticks st))) /\
      (st' = entered (entered st) \/
       exists sharpened confidence orig quality enc msg,
         prepared cfg p (fs st) sharpened confidence orig /\
         cv2_imencode sharpened quality = (true, enc) /\
         os_write (output_path_of cfg p) enc (fs st) = Err msg /\
         e = ExternalError msg /\
         st' = entered (entered
                 (set_fs st (os_write_failed (output_path_of cfg p) enc
                               (fs st)))))) \/
  (exists sharpened confidence orig quality enc,
      prepared cfg p (fs st) sharpened confidence orig /\
      r = success_result cfg p confidence orig quality (size_kb enc)
            (total_seconds (clock (S (ticks st))) (clock (ticks st))) /\
      cv2_imencode sharpened quality = (true, enc) /\
      qmin <= quality /\
      os_write (output_path_of cfg p) enc (fs st) = Ok (fs st') /\
      st' = entered (entered (set_fs st (fs st')))).
Proof.
  rewrite process_single_image_unfold.
  destruct (pipeline_body_cases fuel p (clock (ticks st)) (entered st))
    as [(r0 & Hearly & ->) | [(msg & ->) | (img & c & orig & Hprep & ->)]].
  - intros [= <- <-]. now left.
  - intros [= <- <-]. right. left. exists (ExternalError msg).
    split; [reflexivity | now left].
  - destruct (save_with_quality_optimization cfg fuel img _ (entered st))
      as [[[q kb]|e|] st1] eqn:Hsave.
    + intros [= <- <-].
      destruct (save_returned cfg _ _ _ _ _ _ _ Hsave)
        as (enc & He & -> & Hw & Hst & Hmin & _).
      right. right. exists img, c, orig, q, enc.
      rewrite Hst. repeat split; auto.
    + intros [= <- <-]. right. left. exists e.
      destruct (save_raised cfg _ _ _ _ _ _ Hsave)
        as [[-> ->] | (q & enc & msg & He & Hw & -> & ->)].
      * split; [reflexivity | now left].
      * split; [reflexivity|]. right.
        exists img, c, orig, q, enc, msg. repeat split; auto.
    + discriminate.
Qed.

(** A pipeline that returned has left the log and the statistics as
    they were. *)
Lemma pipeline_keeps_log (fuel : nat) (p : Path) (st st' : State)
    (r : ProcessingResult) :
  process_single_image cfg fuel p st = (Val r, st') ->
  log st' = log st /\ stats st' = stats st.
Proof.
  intros Hrun.
  destruct (process_single_image_cases _ _ _ _ _ Hrun)
    as [[_ ->] |
        [(e & _ & [-> | (img & c & orig & q & enc & msg & _ & _ & _ & _
                         & ->)]) |
         (img & c & orig & q & enc & _ & _ & _ & _ & _ & ->)]];
    split; reflexivity.
Qed.

(** A success has a detected face of sufficient confidence, the target
    size, an empty message and a quality of at least quality_min; a
    failure has the output size (0, 0), the size 0.0 and the quality 0. *)
Theorem result_fields_by_outcome (fuel : nat) (p : Path) (st st' : State)
    (r : ProcessingResult) :
  process_single_image cfg fuel p st = (Val r, st') ->
  filename r = name p /\
  (if success r then
     face_detected r = true /\
     Qltb (face_confidence r) (min_face_confidence (face_processing cfg))
       = false /\
     output_size r = target_size (face_processing cfg) /\
     error_message r = ""%string /\
     qmin <= jpeg_quality r
   else
     output_size r = (0, 0) /\ file_size_kb r = 0%Q /\ jpeg_quality r = 0).
Proof.
  intros Hrun.
  destruct (process_single_image_cases _ _ _ _ _ Hrun)
    as [[Hearly _] | [(e & -> & _) |
         (img & c & orig & q & enc & Hprep & -> & _ & Hq & _)]].
  - destruct Hearly; repeat split.
  - repeat split.
  - apply prepared_confident in Hprep. repeat split; assumption.
Qed.

(** What a turn of the batch loop counts for a failure, by the place
    that built it: the failed counter of the processor grows only for an
    empty crop and the poor_quality counter only for a face below the
    confidence threshold; every other failure of the pipeline has
    face_detected = false and is counted under no_face; whatever the
    try block raises, the failure of the encoder included, is counted
    under no_face. *)
Theorem counters_by_failure_kind (fuel : nat) (p : Path) (st st' : State)
    (r : ProcessingResult) :
  process_single_image cfg fuel p st = (Val r, st') ->
  (failed (stats (snd (process_file cfg fuel p st))) = failed (stats st) + 1 ->
   error_message r = "Cropped region is empty"%string /\
   face_detected r = true) /\
  (poor_quality (stats (snd (process_file cfg fuel p st)))
   = poor_quality (stats st) + 1 ->
   error_message r
   = fmt_low_confidence (face_confidence r)
       (min_face_confidence (face_processing cfg)) /\
   face_detected r = true) /\
  (success r = false ->
   error_message r <> "Cropped region is empty"%string ->
   error_message r
   <> fmt_low_confidence (face_confidence r)
        (min_face_confidence (face_processing cfg)) ->
   face_detected r = false /\
   counted_as_no_face (stats st)
     (stats (snd (process_file cfg fuel p st)))) /\
  (forall e st1,
      pipeline_body cfg fuel p (clock (ticks st)) (entered st)
      = (Raise e, st1) ->
      error_message r = str e /\
      counted_as_no_face (stats st)
        (stats (snd (process_file cfg fuel p st)))).
Proof.
  intros Hrun.
  pose proof (process_file_stats cfg fuel p st) as Hstats.
  rewrite Hrun in Hstats. rewrite Hstats.
  assert (Hexn : forall e t,
             counted_as_no_face (stats st)
               (update_statistics cfg
                  (failure (name p) false 0 (0, 0) (str e) t) (stats st)))
    by (intros e t; repeat split).
  split; [|split; [|split]].
  4: { intros e st1 Hbody.
       rewrite process_single_image_unfold, Hbody in Hrun.
       injection Hrun as <- _. split; [reflexivity | apply Hexn]. }
  all: unfold counted_as_no_face, update_statistics, classify;
    destruct (process_single_image_cases _ _ _ _ _ Hrun)
      as [[Hearly _] | [(e & -> & _) |
           (img & c & orig & q & enc & Hprep & -> & _)]].
  all: try (destruct Hearly as [| orig | orig c Hc | orig c Hc]; simpl;
            rewrite ?Hc; simpl).
  all: simpl; intros; repeat split; try reflexivity; try congruence; try lia.
Qed.

(** The only file the pipeline touches is its output path
    processing_cropped/<stem>.jpg, and the log and the statistics are
    left alone.  A success made exactly one write to that path, of the
    encode it reports (quality and size), taken of the image that was
    read from the input path, cropped, resized twice and sharpened.  A
    failure left the file system as it was, unless its message is the
    error of a write to the output path that raised: then the file
    system is what that write left behind. *)
Theorem pipeline_writes_only_its_output (fuel : nat) (p : Path)
    (st st' : State) (r : ProcessingResult) :
  process_single_image cfg fuel p st = (Val r, st') ->
  log st' = log st /\ stats st' = stats st /\
  (if success r then
     exists sharpened enc,
       prepared cfg p (fs st) sharpened (face_confidence r)
         (original_size r) /\
       cv2_imencode sharpened (jpeg_quality r) = (true, enc) /\
       file_size_kb r = size_kb enc /\
       os_write (output_path_of cfg p) enc (fs st) = Ok (fs st')
   else
     fs st' = fs st \/
     exists sharpened confidence orig quality enc,
       prepared cfg p (fs st) sharpened confidence orig /\
       cv2_imencode sharpened quality = (true, enc) /\
       os_write (output_path_of cfg p) enc (fs st)
       = Err (error_message r) /\
       fs st' = os_write_failed (output_path_of cfg p) enc (fs st)).
Proof.
  intros Hrun.
  destruct (process_single_image_cases _ _ _ _ _ Hrun)
    as [[Hearly ->] |
        [(e & -> & [-> | (img & c & orig & q & enc & msg & Hprep & He & Hw
                          & -> & ->)]) |
         (img & c & orig & q & enc & Hprep & -> & He & _ & Hw & ->)]].
  - destruct Hearly; repeat split; now left.
  - repeat split. now left.
  - repeat split. right. exists img, c, orig, q, enc. repeat split; assumption.
  - repeat split. exists img, enc. repeat split; assumption.
Qed.

(** The clock is read once for a failure returned from inside the try
    block, which reports the time 0.0, and twice for a success and for a
    caught exception, which report the difference of the two readings. *)
Theorem processing_time_by_outcome (fuel : nat) (p : Path) (st st' : State)
    (r : ProcessingResult) :
  process_single_image cfg fuel p st = (Val r, st') ->
  (EarlyFailure cfg p r /\ processing_time r = 0%Q /\
   ticks st' = S (ticks st)) \/
  (processing_time r
   = total_seconds (clock (S (ticks st))) (clock (ticks st)) /\
   ticks st' = S (S (ticks st))).
Proof.
  intros Hrun.
  destruct (process_single_image_cases _ _ _ _ _ Hrun)
    as [[Hearly ->] |
        [(e & -> & [-> | (img & c & orig & q & enc & msg & _ & _ & _ & _
                          & ->)]) |
         (img & c & orig & q & enc & Hc & -> & _ & _ & _ & ->)]].
  - left. destruct Hearly; repeat split; constructor; assumption.
  - right. split; reflexivity.
  - right. split; reflexivity.
  - right. split; reflexivity.
Qed.

End PipelineMore.

(** The pipeline on the reference platform: a portrait that succeeds, a
    file whose detection raises and a file that is missing. *)

Lemma ref_run_returns (c : Config) (p : Path) :
  (exists r st', @process_single_image Ref.platform c 60 p Ref.st0
                 = (Val r, st')) ->
  @process_single_image Ref.platform c 60 p Ref.st0
  = (Val (value_or (fst (@process_single_image Ref.platform c 60 p Ref.st0))
                   no_result),
     snd (@process_single_image Ref.platform c 60 p Ref.st0)).
Proof. intros (r & st' & ->). reflexivity. Qed.

Lemma ref_portrait_returns :
  exists r st',
    @process_single_image Ref.platform Ref.cfg 60 (Ref.photo "ann.jpg")
      Ref.st0 = (Val r, st').
Proof. eexists. eexists. vm_compute. reflexivity. Qed.

Lemma ref_crash_returns :
  exists r st',
    @process_single_image Ref.platform Ref.cfg 60 (Ref.photo "bob.jpg")
      Ref.st0 = (Val r, st').
Proof. eexists. eexists. vm_compute. reflexivity. Qed.

Lemma ref_missing_returns :
  exists r st',
    @process_single_image Ref.platform Ref.cfg 60 (Ref.photo "dan.jpg")
      Ref.st0 = (Val r, st').
Proof. eexists. eexists. vm_compute. reflexivity. Qed.

Lemma result_fields_by_outcome_witness :
  exists r,
    fst (@process_single_image Ref.platform Ref.cfg 60 (Ref.photo "ann.jpg")
           Ref.st0) = Val r /\
    success r = true /\ output_size r = (400, 400) /\ 50 <= jpeg_quality r.
Proof.
  pose proof (@result_fields_by_outcome Ref.platform Ref.cfg 60
                (Ref.photo "ann.jpg") Ref.st0 _ _
                (ref_run_returns _ _ ref_portrait_returns)) as [_ Hfields].
  eexists. split; [vm_compute; reflexivity|].
  destruct Hfields as (_ & _ & Hsize & _ & Hq).
  split; [reflexivity|]. split; [exact Hsize | exact Hq].
Defined.

Lemma counters_by_failure_kind_witness :
  exists r,
    fst (@process_single_image Ref.platform Ref.cfg 60 (Ref.photo "bob.jpg")
           Ref.st0) = Val r /\
    error_message r = "inference failed"%string /\
    no_face (stats (snd (@process_file Ref.platform Ref.cfg 60
                           (Ref.photo "bob.jpg") Ref.st0))) = 1.
Proof.
  pose proof (@counters_by_failure_kind Ref.platform Ref.cfg 60
                (Ref.photo "bob.jpg") Ref.st0 _ _
                (ref_run_returns _ _ ref_crash_returns)) as (_ & _ & _ & Hno).
  destruct (Hno (ExternalError "inference failed")
                (@entered Ref.platform Ref.st0) eq_refl)
    as (Hmsg & _ & Hcount & _).
  eexists. split; [vm_compute; reflexivity|].
  split; [exact Hmsg | exact Hcount].
Defined.

Lemma pipeline_writes_only_its_output_witness :
  stats (snd (@process_single_image Ref.platform Ref.cfg 60
                (Ref.photo "ann.jpg") Ref.st0)) = init_stats /\
  Ref.lookup (mkPath "cropped" "ann.jpg")
    (fs (snd (@process_single_image Ref.platform Ref.cfg 60
                (Ref.photo "ann.jpg") Ref.st0)))
  = Some (snd (Ref.imencode 5 85)).
Proof.
  pose proof (@pipeline_writes_only_its_output Ref.platform Ref.cfg 60
                (Ref.photo "ann.jpg") Ref.st0 _ _
                (ref_run_returns _ _ ref_portrait_returns))
    as (_ & Hstats & _).
  split; [exact Hstats | vm_compute; reflexivity].
Defined.

Lemma processing_time_by_outcome_witness :
  exists r,
    fst (@process_single_image Ref.platform Ref.cfg 60 (Ref.photo "dan.jpg")
           Ref.st0) = Val r /\
    processing_time r = 0%Q.
Proof.
  destruct (@processing_time_by_outcome Ref.platform Ref.cfg 60
              (Ref.photo "dan.jpg") Ref.st0 _ _
              (ref_run_returns _ _ ref_missing_returns))
    as [(_ & Htime & _) | [_ Hticks]].
  - eexists. split; [vm_compute; reflexivity | exact Htime].
  - exfalso. vm_compute in Hticks. discriminate.
Defined.

(** ** BatchOrchestrator: statistics, log and composition of batches *)

Section BatchMore.
Context `{Platform}.
Variable cfg : Config.

Lemma batch_loop_fold (fuel : nat) (files : list Path) :
  forall acc st results st',
    batch_loop cfg fuel files acc st = (Val results, st') ->
    exists rs,
      results = acc ++ rs /\
      List.length rs = List.length files /\
      stats st' = fold_left (fun s r => update_statistics cfg r s) rs (stats st).
Proof.
  induction files as [|p rest IH]; intros acc st results st'.
  - intros [= <- <-]. exists []. now rewrite app_nil_r.
  - cbn [batch_loop]. unfold bind.
    pose proof (process_file_returned cfg fuel p st) as Hret.
    destruct (process_file cfg fuel p st) as [[r|e|] st1]; try discriminate.
    destruct (Hret r st1 eq_refl) as [Hstats _]. intros Hrun.
    destruct (IH _ _ _ _ Hrun) as (rs & -> & Hlen & Hfold).
    exists (r :: rs). rewrite <- app_assoc. split; [reflexivity|].
    split; [simpl; congruence|]. simpl. now rewrite <- Hstats.
Qed.

Lemma fold_update_counts (rs : list ProcessingResult) :
  forall s,
    let s' := fold_left (fun s r => update_statistics cfg r s) rs s in
    total_files s' = total_files s + Z.of_nat (List.length rs) /\
    successful s' = successful s + count success rs /\
    no_face s' = no_face s + count is_no_face rs /\
    poor_quality s' = poor_quality s + count (is_poor_quality cfg) rs /\
    failed s' = failed s + count (is_failed cfg) rs.
Proof.
  unfold count. induction rs as [|r rs IH]; intros s.
  - simpl. repeat split; lia.
  - cbn [fold_left]. destruct (IH (update_statistics cfg r s))
      as (Ht & Hs & Hn & Hp & Hf).
    cbv zeta. rewrite Ht, Hs, Hn, Hp, Hf. clear.
    unfold update_statistics, classify, is_no_face, is_poor_quality,
      is_failed. cbn [filter List.length].
    destruct (success r), (face_detected r),
      (Qltb (face_confidence r) (min_face_confidence (face_processing cfg)));
      cbn; repeat split; lia.
Qed.

(** After a batch that returns, the statistics are the former ones
    updated once for each returned result, in order: the total grew by
    the number of files, and each outcome counter by the number of
    results of its class. *)
Theorem batch_statistics_count_results (fuel : nat) (files : list Path)
    (st st' : State) (results : list ProcessingResult) :
  process_batch cfg fuel files st = (Val results, st') ->
  List.length results = List.length files /\
  stats st'
  = fold_left (fun s r => update_statistics cfg r s) results (stats st) /\
  total_files (stats st')
  = total_files (stats st) + Z.of_nat (List.length files) /\
  successful (stats st') = successful (stats st) + count success results /\
  no_face (stats st') = no_face (stats st) + count is_no_face results /\
  poor_quality (stats st')
  = poor_quality (stats st) + count (is_poor_quality cfg) results /\
  failed (stats st') = failed (stats st) + count (is_failed cfg) results.
Proof.
  unfold process_batch. intros Hrun.
  destruct (batch_loop_fold _ _ _ _ _ _ Hrun) as (rs & -> & Hlen & Hfold).
  simpl. split; [exact Hlen|]. split; [exact Hfold|].
  rewrite Hfold, <- Hlen. apply fold_update_counts.
Qed.

(** The loop with results already collected. *)
Lemma batch_loop_acc (fuel : nat) (files : list Path) :
  forall acc st,
    batch_loop cfg fuel files acc st =
      match batch_loop cfg fuel files [] st with
      | (Val rs, st') => (Val (acc ++ rs), st')
      | (Raise e, st') => (Raise e, st')
      | (Diverge, st') => (Diverge, st')
      end.
Proof.
  induction files as [|p rest IH]; intros acc st.
  - simpl. unfold ret. now rewrite app_nil_r.
  - cbn [batch_loop]. unfold bind.
    destruct (process_file cfg fuel p st) as [[r|e|] st1]; try reflexivity.
    rewrite (IH (acc ++ [r])), (IH ([] ++ [r])).
    destruct (batch_loop cfg fuel rest [] st1) as [[rs|e|] st2];
      try reflexivity.
    now rewrite <- app_assoc.
Qed.

Lemma batch_loop_app (fuel : nat) (l1 l2 : list Path) :
  forall acc st,
    batch_loop cfg fuel (l1 ++ l2) acc st =
      match batch_loop cfg fuel l1 acc st with
      | (Val rs, st1) => batch_loop cfg fuel l2 rs st1
      | (Raise e, st1) => (Raise e, st1)
      | (Diverge, st1) => (Diverge, st1)
      end.
Proof.
  induction l1 as [|p rest IH]; intros acc st; [reflexivity|].
  cbn [batch_loop app]. unfold bind.
  destruct (process_file cfg fuel p st) as [[r|e|] st1]; try reflexivity.
  apply IH.
Qed.

(** Processing a list in two batches, one after the other, is processing
    it in one batch: the results are appended and the final state is the
    same; an exception or a search that does not finish in the first
    batch stops both. *)
Theorem process_batch_app (fuel : nat) (l1 l2 : list Path) (st : State) :
  process_batch cfg fuel (l1 ++ l2) st =
    match process_batch cfg fuel l1 st with
    | (Val r1, st1) =>
        match process_batch cfg fuel l2 st1 with
        | (Val r2, st2) => (Val (r1 ++ r2), st2)
        | (Raise e, st2) => (Raise e, st2)
        | (Diverge, st2) => (Diverge, st2)
        end
    | (Raise e, st1) => (Raise e, st1)
    | (Diverge, st1) => (Diverge, st1)
    end.
Proof.
  unfold process_batch. rewrite batch_loop_app.
  destruct (batch_loop cfg fuel l1 [] st) as [[r1|e|] st1]; try reflexivity.
  apply batch_loop_acc.
Qed.

(** One turn of the loop only appends to the log, and what it appends
    starts with the record of the result. *)
Lemma process_file_log (fuel : nat) (p : Path) (st st' : State)
    (r : ProcessingResult) :
  process_file cfg fuel p st = (Val r, st') ->
  exists more, log st' = log st ++ log_record_of r :: more.
Proof.
  rewrite process_file_unfold.
  destruct (process_single_image cfg fuel p st) as [[r1|e|] st1] eqn:Hrun;
    try discriminate.
  assert (Hlog : log st1 = log st).
  { exact (proj1 (pipeline_keeps_log cfg _ _ _ _ _ Hrun)). }
  unfold log_and_quarantine, log_record_of.
  destruct (success r1) eqn:Hok.
  - intros [= <- <-]. exists []. rewrite Hok. simpl. now rewrite Hlog.
  - unfold bind, logger, syscall, try_except. simpl fs.
    destruct (os_mkdir _ (fs st1)) as [l|msg]; [|discriminate]. simpl fs.
    destruct (os_rename p _ l) as [l'|msg]; intros [= <- <-]; rewrite Hok;
      simpl; rewrite Hlog.
    + now exists [].
    + eexists. now rewrite <- app_assoc.
Qed.

Lemma batch_loop_log (fuel : nat) (files : list Path) :
  forall acc st results st',
    batch_loop cfg fuel files acc st = (Val results, st') ->
    exists rs records,
      results = acc ++ rs /\ log st' = log st ++ records /\
      forall r, In r rs -> In (log_record_of r) records.
Proof.
  induction files as [|p rest IH]; intros acc st results st'.
  - intros [= <- <-]. exists [], []. rewrite !app_nil_r.
    repeat split. intros r [].
  - cbn [batch_loop]. unfold bind.
    pose proof (process_file_log fuel p st) as Hlog.
    destruct (process_file cfg fuel p st) as [[r|e|] st1]; try discriminate.
    destruct (Hlog st1 r eq_refl) as [more Hmore]. intros Hrun.
    destruct (IH _ _ _ _ Hrun) as (rs & records & -> & Hrec & Hin).
    exists (r :: rs), (log_record_of r :: more ++ records).
    rewrite <- app_assoc. split; [reflexivity|]. split.
    + rewrite Hrec, Hmore, <- app_assoc. reflexivity.
    + intros r' [<-|Hr']; [now left|].
      right. apply in_or_app. right. now apply Hin.
Qed.

(** A batch that returns keeps the log it found and has appended, for
    every result, an info record of the result if it is a success and a
    warning with the file name and the error message if it is not. *)
Theorem batch_logs_every_result (fuel : nat) (files : list Path)
    (st st' : State) (results : list ProcessingResult) :
  process_batch cfg fuel files st = (Val results, st') ->
  exists records,
    log st' = log st ++ records /\
    forall r, In r results ->
      if success r then In (InfoProcessed r) records
      else In (WarningFailed (filename r) (error_message r)) records.
Proof.
  unfold process_batch. intros Hrun.
  destruct (batch_loop_log _ _ _ _ _ _ Hrun)
    as (rs & records & -> & Hlog & Hin).
  exists records. split; [exact Hlog|]. intros r Hr.
  specialize (Hin r Hr). unfold log_record_of in Hin.
  destruct (success r); exact Hin.
Qed.

End BatchMore.

Lemma ref_batch_returns :
  @process_batch Ref.platform Ref.cfg 60
    [Ref.photo "ann.jpg"; Ref.photo "bob.jpg"; Ref.photo "cat.jpg";
     Ref.photo "dan.jpg"] Ref.st0
  = (Val (value_or
            (fst (@process_batch Ref.platform Ref.cfg 60
                    [Ref.photo "ann.jpg"; Ref.photo "bob.jpg";
                     Ref.photo "cat.jpg"; Ref.photo "dan.jpg"] Ref.st0)) []),
     snd (@process_batch Ref.platform Ref.cfg 60
            [Ref.photo "ann.jpg"; Ref.photo "bob.jpg"; Ref.photo "cat.jpg";
             Ref.photo "dan.jpg"] Ref.st0)).
Proof. vm_compute. reflexivity. Qed.

Lemma batch_statistics_count_results_witness :
  successful
    (stats (snd (@process_batch Ref.platform Ref.cfg 60
                   [Ref.photo "ann.jpg"; Ref.photo "bob.jpg";
                    Ref.photo "cat.jpg"; Ref.photo "dan.jpg"] Ref.st0))) = 1 /\
  no_face
    (stats (snd (@process_batch Ref.platform Ref.cfg 60
                   [Ref.photo "ann.jpg"; Ref.photo "bob.jpg";
                    Ref.photo "cat.jpg"; Ref.photo "dan.jpg"] Ref.st0))) = 3.
Proof.
  destruct (@batch_statistics_count_results Ref.platform Ref.cfg _ _ _ _ _
              ref_batch_returns) as (_ & _ & _ & Hs & Hn & _).
  rewrite Hs, Hn. split; vm_compute; reflexivity.
Defined.

Lemma batch_logs_every_result_witness :
  In (WarningFailed "bob.jpg" "inference failed")
     (log (snd (@process_batch Ref.platform Ref.cfg 60
                  [Ref.photo "ann.jpg"; Ref.photo "bob.jpg";
                   Ref.photo "cat.jpg"; Ref.photo "dan.jpg"] Ref.st0))).
Proof.
  destruct (@batch_logs_every_result Ref.platform Ref.cfg _ _ _ _ _
              ref_batch_returns) as (records & Hlog & Hin).
  rewrite Hlog. apply in_or_app. right.
  apply (Hin (value_or (fst (@process_single_image Ref.platform Ref.cfg 60
                               (Ref.photo "bob.jpg") Ref.st0)) no_result)).
  vm_compute. right. left. reflexivity.
Defined.

(** ** Input enumeration: what is listed, in which order, how often *)

Section EnumerationMore.
Context `{Platform}.
Variable cfg : Config.

Local Abbreviation input_dir := (processing_renamed (directories cfg)).



(** When the configured extensions are ASCII text without a pattern
    character of glob or a separator, the enumeration lists exactly the names of the input
    directory that end with a configured extension, as it is written or
    in upper case, and lists them in the order of the paths. *)
Theorem enumeration_characterised (files : FS) :
  forallb glob_literal (supported_formats (face_processing cfg)) = true ->
  (forall p,
      In p (get_input_files cfg files) <->
      parent p = input_dir /\
      In (name p) (os_listdir input_dir files) /\
      exists ext,
        In ext (supported_formats (face_processing cfg)) /\
        (endswith (name p) ext = true \/
         endswith (name p) (upper ext) = true)) /\
  in_path_order (get_input_files cfg files).
Proof.
  intros _. split.
  - intros p. apply get_input_files_selects.
  - apply get_input_files_in_order.
Qed.


End EnumerationMore.

Lemma enumeration_characterised_witness :
  In (Ref.photo "c.JPG")
     (@get_input_files Ref.platform Ref.cfg Ref.mixed_disk) /\
  in_path_order (@get_input_files Ref.platform Ref.cfg Ref.mixed_disk).
Proof.
  destruct (@enumeration_characterised Ref.platform Ref.cfg Ref.mixed_disk
              eq_refl) as [Hsel Horder].
  split; [|exact Horder].
  apply Hsel. split; [reflexivity|]. split; [vm_compute; tauto|].
  exists ".jpg"%string. split; [now left|]. right. reflexivity.
Defined.


(** ** The run: batches *)

Section ChunkFacts.
Variable A : Type.

Lemma firstn_plus (a b : nat) (l : list A) :
  firstn (a + b) l = firstn a l ++ firstn b (skipn a l).
Proof.
  revert l. induction a as [|a IH]; intros l; [reflexivity|].
  destruct l as [|x l]; simpl.
  - now rewrite firstn_nil.
  - now rewrite IH.
Qed.

Lemma skipn_plus (a b : nat) (l : list A) :
  skipn (a + b) l = skipn b (skipn a l).
Proof.
  revert l. induction a as [|a IH]; intros l; [reflexivity|].
  destruct l as [|x l]; simpl; [now rewrite skipn_nil | apply IH].
Qed.

(** A slice of non-negative length that starts at a non-negative index:
    the elements from [i] on, at most [b] of them. *)
Lemma py_slice_chunk (l : list A) (i b : Z) :
  0 <= i -> 0 <= b ->
  py_slice l i (i + b) = firstn (Z.to_nat b) (skipn (Z.to_nat i) l).
Proof.
  intros Hi Hb. unfold py_slice.
  destruct (i <? 0) eqn:Ei; [apply Z.ltb_lt in Ei; lia|].
  destruct (i + b <? 0) eqn:Ej; [apply Z.ltb_lt in Ej; lia|].
  set (n := Z.of_nat (List.length l)).
  destruct (Z_le_gt_dec i n) as [Hin|Hin].
  - rewrite (Z.min_l i n) by lia.
    destruct (Z_le_gt_dec (i + b) n) as [Hjn|Hjn].
    + rewrite Z.min_l by lia. f_equal. lia.
    + rewrite Z.min_r by lia.
      rewrite !firstn_all2; try reflexivity; rewrite length_skipn; lia.
  - rewrite !Z.min_r by lia. rewrite Z.sub_diag. simpl.
    rewrite (skipn_all2 l) by lia. now rewrite firstn_nil.
Qed.

Lemma chunks_concat (b : nat) (l : list A) (m : nat) :
  forall j,
    List.concat (map (fun k => firstn b (skipn (k * b) l)) (seq j m))
    = firstn (m * b) (skipn (j * b) l).
Proof.
  induction m as [|m IH]; intros j; [reflexivity|].
  cbn [seq map List.concat]. rewrite IH.
  change (S m * b)%nat with (b + m * b)%nat. rewrite firstn_plus.
  f_equal. f_equal. rewrite <- skipn_plus. f_equal. simpl. lia.
Qed.

End ChunkFacts.

Section RunMore.
Context `{Services}.
Variable cfg : Config.

Local Abbreviation size := (batch_size (face_processing cfg)).

Lemma py_range_batches (n : Z) :
  1 <= size ->
  py_range 0 n size =
    Some (map (fun k => 0 + Z.of_nat k * size)
              (seq 0 (Z.to_nat ((n + size - 1) / size)))).
Proof.
  intros Hs. unfold py_range.
  destruct (size =? 0) eqn:E0; [apply Z.eqb_eq in E0; lia|].
  destruct (0 <? size) eqn:E1; [|apply Z.ltb_ge in E1; lia].
  now rewrite Z.sub_0_r.
Qed.

Lemma batches_chunks (files : list Path) :
  1 <= size ->
  batches cfg files =
    Some (map (fun k => firstn (Z.to_nat size)
                          (skipn (k * Z.to_nat size) files))
              (seq 0 (Z.to_nat ((Z.of_nat (List.length files) + size - 1)
                                / size)))).
Proof.
  intros Hs. unfold batches. rewrite py_range_batches by exact Hs.
  rewrite map_map. f_equal. apply map_ext. intros k.
  rewrite py_slice_chunk by lia. f_equal. f_equal. lia.
Qed.

(** With a batch size of at least one, the batches of a run are
    consecutive slices of the enumerated files: put end to end they are
    the list of files, each holds at least one file and at most
    batch_size, and their number is the total the log announces,
    (len(files) + batch_size - 1) // batch_size. *)
Theorem batches_partition (files : list Path) :
  1 <= size ->
  exists chunks,
    batches cfg files = Some chunks /\
    List.concat chunks = files /\
    Forall (fun c => 1 <= Z.of_nat (List.length c) <= size) chunks /\
    Z.of_nat (List.length chunks)
    = (Z.of_nat (List.length files) + size - 1) / size.
Proof.
  intros Hs. eexists. split; [now apply batches_chunks|].
  set (n := Z.of_nat (List.length files)).
  assert (Hm : 0 <= (n + size - 1) / size)
    by (apply Z.div_pos; lia).
  assert (Hceil : n <= (n + size - 1) / size * size)
    by (pose proof (Z.mod_pos_bound (n + size - 1) size ltac:(lia));
        pose proof (Z.div_mod (n + size - 1) size ltac:(lia)); nia).
  assert (Hlast : forall k, (k < Z.to_nat ((n + size - 1) / size))%nat ->
                            Z.of_nat k * size < n)
    by (intros k Hk;
        pose proof (Z.mul_div_le (n + size - 1) size ltac:(lia)); nia).
  split; [|split].
  - rewrite chunks_concat. simpl. apply firstn_all2. nia.
  - apply Forall_forall. intros c Hc. apply in_map_iff in Hc.
    destruct Hc as (k & <- & Hk). apply in_seq in Hk.
    specialize (Hlast k ltac:(lia)).
    rewrite length_firstn, length_skipn. lia.
  - rewrite length_map, length_seq. lia.
Qed.

End RunMore.

Lemma batches_partition_witness :
  batches (RefRun.cfg_with [".jpg"] 2)
    [Ref.photo "ann.jpg"; Ref.photo "bob.jpg"; Ref.photo "cat.jpg"]
  = Some [[Ref.photo "ann.jpg"; Ref.photo "bob.jpg"]; [Ref.photo "cat.jpg"]].
Proof.
  destruct (batches_partition (RefRun.cfg_with [".jpg"] 2)
              [Ref.photo "ann.jpg"; Ref.photo "bob.jpg"; Ref.photo "cat.jpg"]
              ltac:(simpl; lia)) as (chunks & Hb & _).
  reflexivity.
Defined.

(** ** The run: its loop, its edge cases and the report *)

Section RunFacts.
Context `{Services}.
Variable cfg : Config.

Local Abbreviation size := (batch_size (face_processing cfg)).
Local Abbreviation slices files starts :=
  (map (fun i => py_slice files i (i + size)) starts).

(** The loop of [run] over any list of starting indices is one pass of
    the batch loop over the slices put end to end. *)
Lemma run_batches_spec (fuel : nat) (files : list Path) (starts : list Z) :
  forall acc rs,
    fst (run_batches cfg fuel files starts acc rs)
    = fst (batch_loop cfg fuel (List.concat (slices files starts)) acc
             (base rs)) /\
    base (snd (run_batches cfg fuel files starts acc rs))
    = snd (batch_loop cfg fuel (List.concat (slices files starts)) acc
             (base rs)).
Proof.
  induction starts as [|i rest IH]; intros acc rs; [split; reflexivity|].
  cbn [run_batches map List.concat]. rewrite batch_loop_app.
  rewrite (batch_loop_acc cfg fuel (py_slice files i (i + size)) acc).
  unfold rbind, say, lift, process_batch. simpl base.
  destruct (batch_loop cfg fuel (py_slice files i (i + size)) [] (base rs))
    as [[br|e|] st1]; try (split; reflexivity).
  apply IH.
Qed.

Lemma batches_concat (files : list Path) (chunks : list (list Path)) :
  1 <= size -> batches cfg files = Some chunks -> List.concat chunks = files.
Proof.
  intros Hs. rewrite batches_chunks by exact Hs. intros [= <-].
  rewrite chunks_concat. simpl. apply firstn_all2.
  set (n := Z.of_nat (List.length files)).
  pose proof (Z.mod_pos_bound (n + size - 1) size ltac:(lia)).
  pose proof (Z.div_mod (n + size - 1) size ltac:(lia)).
  assert (0 <= (n + size - 1) / size) by (apply Z.div_pos; lia).
  nia.
Qed.

(** With a batch size of at least one, the loop of [run] over the
    batches does to the processor what one batch over all the files
    does: the same outcome and results, the same final state. *)
Theorem run_batches_as_one_batch (fuel : nat) (files : list Path)
    (starts : list Z) (rs : RunState) :
  1 <= size ->
  py_range 0 (Z.of_nat (List.length files)) size = Some starts ->
  fst (run_batches cfg fuel files starts [] rs)
  = fst (process_batch cfg fuel files (base rs)) /\
  base (snd (run_batches cfg fuel files starts [] rs))
  = snd (process_batch cfg fuel files (base rs)).
Proof.
  intros Hs Hrange.
  assert (Hcat : List.concat (slices files starts) = files).
  { apply batches_concat; [exact Hs|]. unfold batches. now rewrite Hrange. }
  pose proof (run_batches_spec fuel files starts [] rs) as Hspec.
  rewrite Hcat in Hspec. exact Hspec.
Qed.

(** The run up to the loop over the batches, when the model is ready,
    files are found and the two directories can be made. *)
Lemma run_ready (fuel : nat) (rs : RunState) (u : unit) (f : Path)
    (fl : list Path) (fs1 fs2 : FS) :
  face_analysis_prepare (fs (base rs)) = Ok u ->
  get_input_files cfg (fs (base rs)) = f :: fl ->
  os_mkdir (processing_cropped (directories cfg)) (fs (base rs)) = Ok fs1 ->
  os_mkdir (processing_failed (directories cfg)) fs1 = Ok fs2 ->
  run cfg fuel rs =
    let rs2 :=
      said rs (set_fs (base rs) fs2)
        [InfoStarting; InfoInitializing; InfoInitialized;
         InfoFound (Z.of_nat (List.length (f :: fl)))] in
    match py_range 0 (Z.of_nat (List.length (f :: fl))) size with
    | None => (Raise (ExternalError "range() arg 3 must not be zero"), rs2)
    | Some starts =>
        (all_results <-- run_batches cfg fuel (f :: fl) starts [] ;;;
         generate_report cfg all_results ;;;
         say InfoCompleted ;;;
         s <-- lift get_stats ;;;
         say (InfoSummary (successful s) (total_files s)) ;;;
         rret true) rs2
    end.
Proof.
  intros Hprep Hfiles Hmk1 Hmk2.
  unfold run, initialize_insightface, rbind, say, lift, get_fs, syscall.
  simpl base. simpl fs. rewrite Hprep. simpl. rewrite Hfiles.
  simpl fs. rewrite Hmk1. simpl. rewrite Hmk2.
  unfold said, set_fs. simpl. rewrite <- !app_assoc. simpl.
  destruct (py_range _ _ _); reflexivity.
Qed.

(** The report: the rate is computed only for a positive total, so that
    nothing is divided by zero; the only exception is the one of the
    write, which leaves what it made of the report file, and the
    statistics and the log are left alone. *)
Lemma generate_report_outcome (results : list ProcessingResult)
    (rs : RunState) :
  let st := base rs in
  let report_path := report_path_at cfg (clock (ticks st)) in
  let rate :=
    if 0 <? total_files (stats st) then
      Some ("Success rate: " ++
            fmt_1f (inject_Z (successful (stats st))
                    / inject_Z (total_files (stats st)) * 100)%Q ++
            "%" ++ nl)%string
    else None in
  generate_report cfg results rs =
    match os_write report_path
            (list_byte_of_string
               (report_text (stats st) (clock (S (ticks st))) rate results))
            (fs st) with
    | Ok fs' =>
        (Val tt,
         {| base := {| fs := fs'; ticks := S (S (ticks st)); log := log st;
                       stats := stats st |};
            journal := journal rs
                       ++ [(List.length (log st),
                            InfoReportGenerated report_path)] |})
    | Err msg =>
        (Raise (ExternalError msg),
         {| base :=
              {| fs := os_write_failed report_path
                         (list_byte_of_string
                            (report_text (stats st) (clock (S (ticks st)))
                               rate results))
                         (fs st);
                 ticks := S (ticks st); log := log st; stats := stats st |};
            journal := journal rs |})
    end.
Proof.
  cbv zeta.
  unfold generate_report, rbind, lift, datetime_now, next_clock, get_stats,
    call, success_rate_line, py_truediv, write_file, say, ret, raise, set_fs.
  cbn [base stats ticks fs log journal].
  destruct (0 <? total_files (stats (base rs))) eqn:Hpos.
  - assert (Hz : (total_files (stats (base rs)) =? 0) = false)
      by (apply Z.eqb_neq; apply Z.ltb_lt in Hpos; lia).
    rewrite Hz. cbn [base stats ticks fs log journal].
    destruct (os_write _ _ (fs (base rs))); reflexivity.
  - cbn [base stats ticks fs log journal].
    destruct (os_write _ _ (fs (base rs))); reflexivity.
Qed.

End RunFacts.

Section RunEdges.
Context `{Services}.
Variable cfg : Config.

Local Abbreviation size := (batch_size (face_processing cfg)).

(** When the model cannot be prepared the run returns False, and when
    no file is enumerated it returns True; in both cases the processor
    is left as it was: no directory is made, nothing is processed and
    no report is written. *)
Theorem run_without_model_or_input (fuel : nat) (rs : RunState) :
  (forall msg,
      face_analysis_prepare (fs (base rs)) = Err msg ->
      run cfg fuel rs =
        (Val false,
         said rs (base rs)
           [InfoStarting; InfoInitializing;
            ErrorInitFailed (ExternalError msg)])) /\
  (forall u,
      face_analysis_prepare (fs (base rs)) = Ok u ->
      get_input_files cfg (fs (base rs)) = [] ->
      run cfg fuel rs =
        (Val true,
         said rs (base rs)
           [InfoStarting; InfoInitializing; InfoInitialized;
            WarningNoInputFiles])).
Proof.
  split.
  - intros msg Hprep.
    unfold run, initialize_insightface, rbind, say, rret. simpl base.
    rewrite Hprep. unfold said. simpl. now rewrite <- !app_assoc.
  - intros u Hprep Hfiles.
    unfold run, initialize_insightface, rbind, say, rret, lift, get_fs.
    simpl base. rewrite Hprep. simpl. rewrite Hfiles.
    unfold said. simpl. now rewrite <- !app_assoc.
Qed.

Lemma py_range_negative (n : Z) :
  size < 0 -> 0 <= n -> py_range 0 n size = Some [].
Proof.
  intros Hs Hn. unfold py_range.
  destruct (size =? 0) eqn:E0; [apply Z.eqb_eq in E0; lia|].
  destruct (0 <? size) eqn:E1; [apply Z.ltb_lt in E1; lia|].
  assert (Hq : (0 - n - size - 1) / - size <= 0).
  { apply Z.lt_succ_r. apply Z.div_lt_upper_bound; lia. }
  destruct ((0 - n - size - 1) / - size); try reflexivity; lia.
Qed.

(** With files to process and a batch size of zero the run raises the
    ValueError of [range] after it made the directories; with a negative
    batch size the loop has no turn: the run processes no file, writes a
    report of the statistics as they were and returns True. *)
Theorem run_degenerate_batch_size (fuel : nat) (rs : RunState) (u : unit)
    (f : Path) (fl : list Path) (fs1 fs2 : FS) :
  face_analysis_prepare (fs (base rs)) = Ok u ->
  get_input_files cfg (fs (base rs)) = f :: fl ->
  os_mkdir (processing_cropped (directories cfg)) (fs (base rs)) = Ok fs1 ->
  os_mkdir (processing_failed (directories cfg)) fs1 = Ok fs2 ->
  (size = 0 ->
   fst (run cfg fuel rs)
   = Raise (ExternalError "range() arg 3 must not be zero") /\
   base (snd (run cfg fuel rs)) = set_fs (base rs) fs2) /\
  (size < 0 ->
   stats (base (snd (run cfg fuel rs))) = stats (base rs) /\
   log (base (snd (run cfg fuel rs))) = log (base rs) /\
   ((forall p b, exists l, os_write p b fs2 = Ok l) ->
    fst (run cfg fuel rs) = Val true)).
Proof.
  intros Hprep Hfiles Hmk1 Hmk2.
  rewrite (run_ready cfg fuel rs u f fl fs1 fs2 Hprep Hfiles Hmk1 Hmk2).
  cbv zeta. split.
  - intros Hz. rewrite Hz. split; reflexivity.
  - intros Hneg. rewrite py_range_negative by (exact Hneg || lia).
    set (out := rbind _ _ _).
    assert (Hout : stats (base (snd out)) = stats (base rs) /\
                   log (base (snd out)) = log (base rs) /\
                   ((forall p b, exists l, os_write p b fs2 = Ok l) ->
                    fst out = Val true)).
    { unfold out, rbind. cbn [run_batches]. unfold rret.
      rewrite generate_report_outcome.
      cbn [said base set_fs fs stats log ticks].
      destruct (os_write _ _ fs2) as [l|msg] eqn:Hw.
      - split; [reflexivity|]. split; [reflexivity|]. intros _. reflexivity.
      - split; [reflexivity|]. split; [reflexivity|]. intros Hwrite.
        match type of Hw with
        | os_write ?p ?b fs2 = _ => destruct (Hwrite p b) as [l Hl]
        end.
        congruence. }
    exact Hout.
Qed.

(** When the model is prepared, at least one file is enumerated, the
    two directories can be made and the batch size is at least one, a
    run that returns has returned True and has counted every enumerated
    file once in total_files: its statistics are those of one batch over
    all the files. *)
Theorem run_counts_every_enumerated_file (fuel : nat) (rs rs' : RunState)
    (u : unit) (f : Path) (fl : list Path) (fs1 fs2 : FS) (b : bool) :
  face_analysis_prepare (fs (base rs)) = Ok u ->
  get_input_files cfg (fs (base rs)) = f :: fl ->
  os_mkdir (processing_cropped (directories cfg)) (fs (base rs)) = Ok fs1 ->
  os_mkdir (processing_failed (directories cfg)) fs1 = Ok fs2 ->
  1 <= size ->
  run cfg fuel rs = (Val b, rs') ->
  b = true /\
  total_files (stats (base rs'))
  = total_files (stats (base rs)) + Z.of_nat (List.length (f :: fl)) /\
  exists results,
    fst (process_batch cfg fuel (f :: fl) (set_fs (base rs) fs2))
    = Val results /\
    stats (base rs')
    = fold_left (fun s r => update_statistics cfg r s) results
        (stats (base rs)).
Proof.
  intros Hprep Hfiles Hmk1 Hmk2 Hs.
  rewrite (run_ready cfg fuel rs u f fl fs1 fs2 Hprep Hfiles Hmk1 Hmk2).
  cbv zeta. rewrite py_range_batches by exact Hs.
  set (starts := map _ (seq 0 _)).
  set (rs2 := said rs _ _).
  assert (Hcat : List.concat
                   (map (fun i => py_slice (f :: fl) i (i + size)) starts)
                 = f :: fl).
  { apply (batches_concat cfg); [exact Hs|]. unfold batches.
    now rewrite py_range_batches by exact Hs. }
  pose proof (run_batches_spec cfg fuel (f :: fl) starts [] rs2) as Hspec.
  rewrite Hcat in Hspec. fold (process_batch cfg fuel (f :: fl) (base rs2))
    in Hspec.
  destruct Hspec as [Hout Hbase].
  unfold rbind at 1.
  destruct (run_batches cfg fuel (f :: fl) starts [] rs2) as [[rsl|e|] rs3];
    try discriminate.
  cbn [fst snd] in Hout, Hbase.
  assert (Hb : process_batch cfg fuel (f :: fl) (base rs2)
               = (Val rsl, base rs3))
    by (rewrite Hout, Hbase; apply surjective_pairing).
  unfold rbind at 1. rewrite generate_report_outcome.
  destruct (os_write _ _ (fs (base rs3))); [|discriminate].
  unfold rbind, say, lift, get_stats, rret. cbn [base stats].
  intros [= <- <-]. cbn [base stats].
  destruct (batch_loop_fold cfg fuel (f :: fl) [] _ _ _ Hb)
    as (rsl' & Heq & Hlen & Hfold).
  simpl in Heq. subst rsl'.
  split; [reflexivity|]. split.
  - destruct (batch_loop_results cfg fuel (f :: fl) [] _ _ _ Hb)
      as (x & _ & _ & Htotal). exact Htotal.
  - exists rsl. split; [exact (f_equal fst Hb) | exact Hfold].
Qed.

(** Whatever the statistics, the report changes neither the statistics
    nor the log, and it touches no file but the report: it returns after
    the write of the report text, or raises the error of that write,
    with the file system as the failed write left it; the line of the
    success rate is written exactly when total_files is positive, so
    nothing is divided by zero. *)
Theorem report_written_or_write_error (results : list ProcessingResult)
    (rs : RunState) :
  stats (base (snd (generate_report cfg results rs))) = stats (base rs) /\
  log (base (snd (generate_report cfg results rs))) = log (base rs) /\
  exists rate,
    (rate = None <-> total_files (stats (base rs)) <= 0) /\
    let report_path := report_path_at cfg (clock (ticks (base rs))) in
    let text :=
      list_byte_of_string
        (report_text (stats (base rs)) (clock (S (ticks (base rs)))) rate
           results) in
    match os_write report_path text (fs (base rs)) with
    | Ok fs' =>
        fst (generate_report cfg results rs) = Val tt /\
        fs (base (snd (generate_report cfg results rs))) = fs'
    | Err msg =>
        fst (generate_report cfg results rs) = Raise (ExternalError msg) /\
        fs (base (snd (generate_report cfg results rs)))
        = os_write_failed report_path text (fs (base rs))
    end.
Proof.
  rewrite generate_report_outcome.
  match goal with
  | |- context [os_write _ (list_byte_of_string (report_text _ _ ?r _))] =>
      set (rate := r)
  end.
  assert (Hrate : rate = None <-> total_files (stats (base rs)) <= 0).
  { unfold rate. destruct (0 <? total_files (stats (base rs))) eqn:Hpos.
    - apply Z.ltb_lt in Hpos. split; [discriminate | lia].
    - apply Z.ltb_ge in Hpos. tauto. }
  destruct (os_write _ _ (fs (base rs))) as [l|msg] eqn:Hw; cbn [snd base stats
    log fst fs]; (split; [reflexivity|]); (split; [reflexivity|]);
    exists rate; (split; [exact Hrate|]); cbv zeta; rewrite Hw;
    split; reflexivity.
Qed.

End RunEdges.

(** ** Statistics and the success rate of the report *)

Section StatsSound.
Context `{Platform}.
Variable cfg : Config.

Lemma update_keeps_sound (r : ProcessingResult) (s : Stats) :
  stats_sound s -> stats_sound (update_statistics cfg r s).
Proof.
  pose proof (update_statistics_one_counter cfg r s) as Hone.
  unfold stats_sound, stats_balanced, one_counter_incremented in *. lia.
Qed.

Lemma process_file_sound (fuel : nat) (p : Path) (st : State) :
  stats_sound (stats st) ->
  stats_sound (stats (snd (process_file cfg fuel p st))).
Proof.
  intros Hs. pose proof (process_file_stats cfg fuel p st) as Hst.
  destruct (process_single_image cfg fuel p st) as [[r|e|] st1];
    rewrite Hst; try exact Hs.
  now apply update_keeps_sound.
Qed.

Lemma batch_loop_sound (fuel : nat) (files : list Path) :
  forall acc st,
    stats_sound (stats st) ->
    stats_sound (stats (snd (batch_loop cfg fuel files acc st))).
Proof.
  induction files as [|p rest IH]; intros acc st Hs; [exact Hs|].
  cbn [batch_loop]. unfold bind.
  pose proof (process_file_sound fuel p st Hs) as Hs1.
  destruct (process_file cfg fuel p st) as [[r|e|] st1]; simpl in Hs1;
    try exact Hs1.
  now apply IH.
Qed.

(** A batch, however it ends, keeps statistics balanced with counters
    that are not negative; successful is then at most total_files, and
    the success rate of the report, successful / total_files * 100, lies
    between 0 and 100 whenever the division is defined. *)
Theorem success_rate_within_bounds (fuel : nat) (files : list Path)
    (st : State) :
  stats_sound (stats st) ->
  let s' := stats (snd (process_batch cfg fuel files st)) in
  stats_sound s' /\
  0 <= successful s' <= total_files s' /\
  forall ratio,
    py_truediv (successful s') (total_files s') = Ok ratio ->
    (0 <= ratio * 100)%Q /\ (ratio * 100 <= 100)%Q.
Proof.
  intros Hs. cbv zeta. unfold process_batch.
  pose proof (batch_loop_sound fuel files [] st Hs) as Hs'.
  set (s' := stats (snd (batch_loop cfg fuel files [] st))) in *.
  split; [exact Hs'|].
  assert (Hle : 0 <= successful s' <= total_files s')
    by (unfold stats_sound, stats_balanced in Hs'; lia).
  split; [exact Hle|].
  intros ratio. unfold py_truediv.
  destruct (total_files s' =? 0) eqn:Hz; [discriminate|].
  apply Z.eqb_neq in Hz. intros [= <-].
  assert (Hpos : (0 < inject_Z (total_files s'))%Q)
    by (rewrite <- (Zlt_Qlt 0); lia).
  assert (H0 : (0 <= inject_Z (successful s') / inject_Z (total_files s'))%Q).
  { apply Qle_shift_div_l; [exact Hpos|]. rewrite Qmult_0_l.
    rewrite <- (Zle_Qle 0). lia. }
  assert (H1 : (inject_Z (successful s') / inject_Z (total_files s') <= 1)%Q).
  { apply Qle_shift_div_r; [exact Hpos|]. rewrite Qmult_1_l.
    rewrite <- Zle_Qle. lia. }
  split.
  - apply Qmult_le_0_compat; [exact H0 | discriminate].
  - setoid_replace (100 : Q) with (1 * 100)%Q at 2 by reflexivity.
    apply Qmult_le_compat_r; [exact H1 | discriminate].
Qed.

End StatsSound.

Lemma success_rate_within_bounds_witness :
  0 <= successful
         (stats (snd (@process_batch Ref.platform Ref.cfg 60
                        [Ref.photo "ann.jpg"; Ref.photo "bob.jpg"] Ref.st0)))
    <= total_files
         (stats (snd (@process_batch Ref.platform Ref.cfg 60
                        [Ref.photo "ann.jpg"; Ref.photo "bob.jpg"] Ref.st0))).
Proof.
  assert (Hsound : stats_sound (stats Ref.st0))
    by (unfold stats_sound, stats_balanced; simpl; lia).
  exact (proj1 (proj2 (@success_rate_within_bounds Ref.platform Ref.cfg 60
                         [Ref.photo "ann.jpg"; Ref.photo "bob.jpg"] Ref.st0
                         Hsound))).
Defined.

(** The run on the reference platform. *)

Lemma run_batches_as_one_batch_witness :
  fst (@run_batches Ref.platform (RefRun.cfg_with [".jpg"] 2)
         60 [Ref.photo "ann.jpg"; Ref.photo "bob.jpg"; Ref.photo "cat.jpg"]
         [0; 2] [] RefRun.rs0)
  = fst (@process_batch Ref.platform (RefRun.cfg_with [".jpg"] 2) 60
           [Ref.photo "ann.jpg"; Ref.photo "bob.jpg"; Ref.photo "cat.jpg"]
           Ref.st0).
Proof.
  exact (proj1 (@run_batches_as_one_batch Ref.platform
                  (RefRun.cfg_with [".jpg"] 2) 60
                  [Ref.photo "ann.jpg"; Ref.photo "bob.jpg";
                   Ref.photo "cat.jpg"]
                  [0; 2] RefRun.rs0 ltac:(simpl; lia) eq_refl)).
Defined.

Lemma run_without_model_or_input_witness :
  fst (@run Ref.platform RefRun.no_model Ref.cfg 60 RefRun.rs0) = Val false /\
  base (snd (@run Ref.platform RefRun.no_model Ref.cfg 60 RefRun.rs0))
  = Ref.st0 /\
  fst (@run Ref.platform RefRun.services (RefRun.cfg_with [".gif"] 10) 60
         RefRun.rs0) = Val true /\
  base (snd (@run Ref.platform RefRun.services (RefRun.cfg_with [".gif"] 10)
               60 RefRun.rs0)) = Ref.st0.
Proof.
  destruct (@run_without_model_or_input Ref.platform RefRun.no_model Ref.cfg
              60 RefRun.rs0) as [Hmodel _].
  destruct (@run_without_model_or_input Ref.platform RefRun.services
              (RefRun.cfg_with [".gif"] 10) 60 RefRun.rs0) as [_ Hinput].
  rewrite (Hmodel "model not found"%string eq_refl).
  rewrite (Hinput tt eq_refl eq_refl).
  repeat split.
Defined.

Lemma run_degenerate_batch_size_witness :
  fst (@run Ref.platform RefRun.services (RefRun.cfg_with [".jpg"] 0) 60
         RefRun.rs0)
  = Raise (ExternalError "range() arg 3 must not be zero") /\
  fst (@run Ref.platform RefRun.services (RefRun.cfg_with [".jpg"] (-2)) 60
         RefRun.rs0) = Val true /\
  stats (base (snd (@run Ref.platform RefRun.services
                      (RefRun.cfg_with [".jpg"] (-2)) 60 RefRun.rs0)))
  = init_stats.
Proof.
  destruct (@run_degenerate_batch_size Ref.platform RefRun.services
              (RefRun.cfg_with [".jpg"] 0) 60 RefRun.rs0 tt
              (Ref.photo "ann.jpg")
              [Ref.photo "bob.jpg"; Ref.photo "cat.jpg"] Ref.disk Ref.disk
              eq_refl eq_refl eq_refl eq_refl) as [Hzero _].
  destruct (@run_degenerate_batch_size Ref.platform RefRun.services
              (RefRun.cfg_with [".jpg"] (-2)) 60 RefRun.rs0 tt
              (Ref.photo "ann.jpg")
              [Ref.photo "bob.jpg"; Ref.photo "cat.jpg"] Ref.disk Ref.disk
              eq_refl eq_refl eq_refl eq_refl) as [_ Hneg].
  destruct (Hzero eq_refl) as [Hraise _].
  destruct (Hneg ltac:(simpl; lia)) as (Hstats & _ & Hret).
  split; [exact Hraise|]. split; [|exact Hstats].
  apply Hret. intros p b. eexists. reflexivity.
Defined.

Lemma run_counts_every_enumerated_file_witness :
  total_files
    (stats (base (snd (@run Ref.platform RefRun.services
                         (RefRun.cfg_with [".jpg"] 2) 60 RefRun.rs0)))) = 3.
Proof.
  assert (Hrun : @run Ref.platform RefRun.services
                   (RefRun.cfg_with [".jpg"] 2) 60 RefRun.rs0
                 = (Val true,
                    snd (@run Ref.platform RefRun.services
                           (RefRun.cfg_with [".jpg"] 2) 60 RefRun.rs0)))
    by (vm_compute; reflexivity).
  destruct (@run_counts_every_enumerated_file Ref.platform RefRun.services
              (RefRun.cfg_with [".jpg"] 2) 60 RefRun.rs0 _ tt
              (Ref.photo "ann.jpg")
              [Ref.photo "bob.jpg"; Ref.photo "cat.jpg"] Ref.disk Ref.disk
              true eq_refl eq_refl eq_refl eq_refl ltac:(simpl; lia) Hrun)
    as (_ & Htotal & _).
  exact Htotal.
Defined.

(** ** The name of the output file *)

Section OutputName.
Context `{Platform}.
Variable cfg : Config.

Lemma rfind_dot_dotless (e : string) :
  dotless e = true -> forall i acc, rfind_dot e i acc = acc.
Proof.
  induction e as [|c e IH]; intros Hd i acc; [reflexivity|].
  simpl in *. apply andb_true_iff in Hd. destruct Hd as [Hc He].
  apply negb_true_iff in Hc. rewrite Hc. now apply IH.
Qed.

Lemma rfind_dot_last (b e : string) :
  dotless e = true ->
  forall i acc,
    rfind_dot (b ++ "." ++ e)%string i acc = Some (i + String.length b)%nat.
Proof.
  intros He. induction b as [|c b IH]; intros i acc; simpl.
  - rewrite rfind_dot_dotless by exact He. f_equal. lia.
  - rewrite IH. f_equal. lia.
Qed.

Lemma substring_prefix (b rest : string) :
  String.substring 0 (String.length b) (b ++ rest)%string = b.
Proof.
  induction b as [|c b IH]; simpl.
  - now destruct rest.
  - now rewrite IH.
Qed.

Lemma length_append (a b : string) :
  String.length (a ++ b)%string = (String.length a + String.length b)%nat.
Proof. induction a as [|c a IH]; simpl; [reflexivity | now rewrite IH]. Qed.

Lemma stem_of_name (dir b e : string) :
  b <> ""%string -> e <> ""%string -> dotless e = true ->
  stem (mkPath dir (b ++ "." ++ e)%string) = b.
Proof.
  intros Hb He Hd. unfold stem. cbn [name].
  rewrite rfind_dot_last by exact Hd. cbn [Nat.add].
  rewrite !length_append. cbn [String.length].
  assert (Hlb : (0 < String.length b)%nat)
    by (destruct b; [congruence | simpl; lia]).
  assert (Hle : (0 < String.length e)%nat)
    by (destruct e; [congruence | simpl; lia]).
  repeat match goal with
         | |- context [Nat.ltb ?x ?y] =>
             destruct (Nat.ltb_spec x y); [|lia]
         end.
  cbn [andb]. apply substring_prefix.
Qed.

(** The output file is named after the stem of the input: inputs whose
    names differ only in the extension are written to the same file of
    processing_cropped, so that the later one replaces the earlier. *)
Theorem same_stem_same_output (dir b e1 e2 : string) :
  b <> ""%string ->
  e1 <> ""%string -> dotless e1 = true ->
  e2 <> ""%string -> dotless e2 = true ->
  output_path_of cfg (mkPath dir (b ++ "." ++ e1)%string)
  = mkPath (processing_cropped (directories cfg)) (b ++ ".jpg")%string /\
  output_path_of cfg (mkPath dir (b ++ "." ++ e1)%string)
  = output_path_of cfg (mkPath dir (b ++ "." ++ e2)%string).
Proof.
  intros Hb He1 Hd1 He2 Hd2. unfold output_path_of.
  rewrite !stem_of_name by assumption. split; reflexivity.
Qed.

End OutputName.

Lemma same_stem_same_output_witness :
  output_path_of Ref.cfg (Ref.photo "ann.jpg")
  = output_path_of Ref.cfg (Ref.photo "ann.png").
Proof.
  exact (proj2 (same_stem_same_output Ref.cfg "renamed" "ann" "jpg" "png"
                  ltac:(discriminate) ltac:(discriminate) eq_refl
                  ltac:(discriminate) eq_refl)).
Defined.
